(** * Doctor-Support: embedding ingestion, retrieval and index management

    A shallow embedding of [vector_store.py], [retriever.py] and
    [manage_indexes.py].  Pure helpers become Rocq functions; code that
    talks to the embedding provider, the vector store or the console is
    written in a small state-and-exception monad over an explicit world. *)

From Stdlib Require Import Floats Ascii.
From stdpp Require Import gmap strings list fin_maps pretty.

#[local] Set Warnings "-register-all,-inexact-float,-abstract-large-number".

(** ** Python values

    Records come out of [json.load] and metadata maps hold arbitrary
    scalars, so a value is any JSON-shaped Python object.  Floats are the
    kernel's binary64 numbers, the same format as a Python [float]. *)

Inductive value : Type :=
| VNone
| VBool (b : bool)
| VInt (z : Z)
| VFloat (f : float)
| VStr (s : string)
| VList (l : list value)
| VDict (d : gmap string value).

(** A Python [dict] with string keys. *)
Abbreviation dict := (gmap string value).

(** [bool(v)]: the truth value Python gives to [v] in [if v:]. *)
Definition truthy (v : value) : bool :=
  match v with
  | VNone => false
  | VBool b => b
  | VInt z => negb (z =? 0)%Z
  | VFloat f => negb (PrimFloat.eqb f 0)
  | VStr s => negb (String.eqb s "")
  | VList l => match l with [] => false | _ => true end
  | VDict d => match map_to_list d with [] => false | _ => true end
  end.

(** [v is None] and [v == ""]. *)
Definition is_none (v : value) : bool :=
  match v with VNone => true | _ => false end.

Definition is_empty_str (v : value) : bool :=
  match v with VStr s => String.eqb s "" | _ => false end.

(** [d.get(k)] and [d.get(k, dflt)]. *)
Definition dict_get (d : dict) (k : string) : value :=
  default VNone (d !! k).

Definition dict_get_default (d : dict) (k : string) (dflt : value) : value :=
  default dflt (d !! k).

(** [a or b]. *)
Definition py_or (a b : value) : value := if truthy a then a else b.

(** [type(v).__name__], as it shows up in the interpreter's messages. *)
Definition type_name (v : value) : string :=
  match v with
  | VNone => "NoneType"
  | VBool _ => "bool"
  | VInt _ => "int"
  | VFloat _ => "float"
  | VStr _ => "str"
  | VList _ => "list"
  | VDict _ => "dict"
  end.

(** ** Exceptions *)

Inductive exn_class : Type :=
| ValueError
| TypeError
| IndexError
| AttributeError
| FileNotFoundError
| ProviderError   (* raised inside the embedding client library *)
| StoreError.     (* raised inside the vector store library *)

Record exn : Type := Exn { exn_kind : exn_class; exn_msg : string }.

(** [str(e)], the text an f-string inserts for [{e}]. *)
Definition exn_str (e : exn) : string := exn_msg e.

Abbreviation result A := (sum exn A).
Abbreviation Ok := inr.
Abbreviation Raise := inl.

(** ** Python strings

    A [string] is read as a sequence of code points below 256. *)

Module PyStr.

Definition LF : ascii := "010"%char.
Definition newline : string := String LF "".

(** [str.isspace] on one code point below 256: TAB..CR, FS..US, space,
    NEL and NBSP.  These are the characters [str.strip()] removes. *)
Definition is_space (c : ascii) : bool :=
  let n := nat_of_ascii c in
  ((9 <=? n) && (n <=? 13)) || ((28 <=? n) && (n <=? 32))
  || (n =? 133) || (n =? 160).

(** [s.replace(old, new)] for one-character [old] and [new]. *)
Fixpoint replace_char (old new : ascii) (s : string) : string :=
  match s with
  | "" => ""
  | String c s' =>
      String (if Ascii.eqb c old then new else c) (replace_char old new s')
  end.

Definition is_lower (c : ascii) : bool :=
  let n := nat_of_ascii c in (97 <=? n) && (n <=? 122).
Definition is_upper (c : ascii) : bool :=
  let n := nat_of_ascii c in (65 <=? n) && (n <=? 90).
Definition to_upper (c : ascii) : ascii :=
  if is_lower c then ascii_of_nat (nat_of_ascii c - 32) else c.
Definition to_lower (c : ascii) : ascii :=
  if is_upper c then ascii_of_nat (nat_of_ascii c + 32) else c.

(** [s.title()] on ASCII text: a letter that follows a letter is
    lower-cased, any other letter is upper-cased. *)
Fixpoint title_go (prev_cased : bool) (s : string) : string :=
  match s with
  | "" => ""
  | String c s' =>
      let cased := is_lower c || is_upper c in
      String (if cased then (if prev_cased then to_lower c else to_upper c)
              else c)
             (title_go cased s')
  end.
Definition title (s : string) : string := title_go false s.

(** [s.lstrip()], [s.rstrip()] and [s.strip()]. *)
Fixpoint lstrip (s : string) : string :=
  match s with
  | "" => ""
  | String c s' => if is_space c then lstrip s' else s
  end.

Fixpoint rstrip (s : string) : string :=
  match s with
  | "" => ""
  | String c s' =>
      match rstrip s' with
      | "" => if is_space c then "" else String c ""
      | r => String c r
      end
  end.

Definition strip (s : string) : string := rstrip (lstrip s).

(** [s[:n]]. *)
Fixpoint take (n : nat) (s : string) : string :=
  match n, s with
  | S n', String c s' => String c (take n' s')
  | _, _ => ""
  end.

(** [sep.join(parts)] on a list of strings. *)
Fixpoint join (sep : string) (parts : list string) : string :=
  match parts with
  | [] => ""
  | [p] => p
  | p :: ps => p +:+ sep +:+ join sep ps
  end.

(** [needle in s]. *)
Fixpoint prefix (p s : string) : bool :=
  match p, s with
  | "", _ => true
  | String a p', String b s' => Ascii.eqb a b && prefix p' s'
  | _, _ => false
  end.

Fixpoint contains (needle s : string) : bool :=
  prefix needle s
  || match s with "" => false | String _ s' => contains needle s' end.

(** [c in s] for one character. *)
Fixpoint has_char (c : ascii) (s : string) : bool :=
  match s with
  | "" => false
  | String a s' => Ascii.eqb a c || has_char c s'
  end.

End PyStr.

(** ** vector_store.py: the document text builder *)

Definition MAX_TEXT : nat := 6000.

Definition fields_in_order : list string :=
  [ "product_name"; "brand_name"; "therapeutic_class"; "strength";
    "dosage_form"; "pack_size"; "composition"; "indication_summary";
    "extracted_text" ].

(** [k.replace('_',' ').title()] *)
Definition field_label (k : string) : string :=
  PyStr.title (PyStr.replace_char "_" " " k).

Section TextBuilder.

(** [str()] of a float or a container is left to the interpreter. *)
Variable repr_opaque : value → string.

(** What an f-string inserts for [{v}]. *)
Definition py_str (v : value) : string :=
  match v with
  | VNone => "None"
  | VBool true => "True"
  | VBool false => "False"
  | VInt z => pretty z
  | VStr s => s
  | VFloat _ | VList _ | VDict _ => repr_opaque v
  end.

(** The loop over [fields_in_order] that fills [parts]. *)
Definition field_line (doc : dict) (k : string) : option string :=
  let v := dict_get doc k in
  if truthy v then Some (field_label k +:+ ": " +:+ py_str v) else None.

Definition field_parts (doc : dict) : list string :=
  omap (field_line doc) fields_in_order.

(** ["\n".join(parts)] where [parts] may hold a non-string: the
    fallback appends [doc.get("id", "")] unconverted. *)
Definition join_error (i : nat) (v : value) : exn :=
  Exn TypeError ("sequence item " +:+ pretty i
                 +:+ ": expected str instance, " +:+ type_name v
                 +:+ " found").

Definition build_text_for_embedding (doc : dict) : result string :=
  let parts := field_parts doc in
  match parts with
  | [] =>
      match dict_get_default doc "id" (VStr "") with
      | VStr s => Ok (PyStr.take MAX_TEXT (PyStr.strip s))
      | v => Raise (join_error 0 v)
      end
  | _ =>
      Ok (PyStr.take MAX_TEXT (PyStr.strip (PyStr.join PyStr.newline parts)))
  end.

End TextBuilder.

(** ** vector_store.py: the metadata sanitizer *)

(** The comprehension's guard [v is not None and v != ""]. *)
Definition keep_value (v : value) : bool :=
  negb (is_none v) && negb (is_empty_str v).

Definition clean_metadata (metadata : dict) : dict :=
  filter (λ kv : string * value, keep_value kv.2 = true) metadata.

(** ** Python lists: [range] with a positive step, and slices *)

Definition py_range (start stop step : nat) : list nat :=
  (λ k, start + k * step) <$> seq 0 ((stop - start + step - 1) / step).

(** [l[i:j]] for [0 <= i <= j]; the end is clamped to [len(l)]. *)
Definition slice {A} (l : list A) (i j : nat) : list A :=
  take (j - i) (drop i l).

(** ** The outside world

    The embedding provider, the vector store and the file system are not
    part of the repository.  They are an interface [services] over an
    abstract external state; every call is recorded, with its answer, in
    the world's trace. *)

Definition embedding : Type := list float.

(** The keyword arguments of one [collection.add(...)]. *)
Record add_request : Type := AddRequest {
  add_ids : list value;
  add_embeddings : list embedding;
  add_metadatas : list dict;
  add_documents : list string
}.

(** The dictionary [collection.query(...)] returns: one row per query
    embedding; a stored item may lack a document or a metadata map. *)
Record query_result : Type := QueryResult {
  qr_documents : option (list (list (option string)));
  qr_metadatas : option (list (list (option dict)));
  qr_distances : option (list (list float))
}.

Inductive event : Type :=
| EvPathExists (path : string) (r : bool)
| EvMakedirs (path : string) (r : result unit)
| EvReadJson (path : string) (r : result (list dict))
| EvEmbed (model input : string) (r : result (list embedding))
| EvClient (path : string) (r : result unit)
| EvGetCollection (name : string) (r : result unit)
| EvCreateCollection (name : string) (metadata : dict) (r : result unit)
| EvDeleteCollection (name : string) (r : result unit)
| EvCount (name : string) (r : result nat)
| EvAdd (name : string) (req : add_request) (r : result unit)
| EvQuery (name : string) (query_embeddings : list embedding)
          (n_results : Z) (include : list string) (r : result query_result)
| EvAbspath (path : string) (r : result string).

Record services (Ext : Type) : Type := Services {
  (* os.path.exists, os.makedirs(exist_ok=True), open + json.load *)
  path_exists : string → Ext → bool;
  makedirs : string → Ext → result unit * Ext;
  read_json : string → Ext → result (list dict) * Ext;
  (* os.path.abspath: the path made absolute against the working
     directory; it reads the environment and may raise *)
  abspath : string → Ext → result string;
  (* client.embeddings.create(model=, input=): the [embedding] of each
     element of [resp.data] *)
  embeddings_create : string → string → Ext → result (list embedding) * Ext;
  (* chromadb.PersistentClient and its collections, addressed by name *)
  persistent_client : string → Ext → result unit * Ext;
  get_collection : string → Ext → result unit * Ext;
  create_collection : string → dict → Ext → result unit * Ext;
  delete_collection_by_name : string → Ext → result unit * Ext;
  collection_count : string → Ext → result nat * Ext;
  collection_add : string → add_request → Ext → result unit * Ext;
  collection_query : string → list embedding → Z → list string → Ext →
                     result query_result * Ext
}.

Arguments path_exists {Ext}.
Arguments makedirs {Ext}.
Arguments read_json {Ext}.
Arguments abspath {Ext}.
Arguments embeddings_create {Ext}.
Arguments persistent_client {Ext}.
Arguments get_collection {Ext}.
Arguments create_collection {Ext}.
Arguments delete_collection_by_name {Ext}.
Arguments collection_count {Ext}.
Arguments collection_add {Ext}.
Arguments collection_query {Ext}.

(** A retrieval result, [{"text": ..., "similarity": ...}]. *)
Record chunk : Type := Chunk { text : value; similarity : float }.

(** The four lists [store_embeddings] fills before it writes. *)
Record prepared : Type := Prepared {
  ids : list value;
  embeddings : list embedding;
  metadatas : list dict;
  documents : list string
}.

(** The module-level configuration read from the environment. *)
Record config : Type := Config {
  EMBEDDING_MODEL : string;
  CHROMA_DB_PATH : string;
  CHROMA_COLLECTION_NAME : string;
  INPUT_JSON : string
}.

Definition default_config : config :=
  {| EMBEDDING_MODEL := "text-embedding-3-small";
     CHROMA_DB_PATH := "./chroma_db";
     CHROMA_COLLECTION_NAME := "medical-vectors";
     INPUT_JSON := "new_data.json" |}.

(** Lines written by [print]; the wording of a line is not modelled,
    only which line it is and the values it shows. *)
Inductive message : Type :=
| MsgGettingDimension (model : string)
| MsgDimension (n : nat)
| MsgCollectionExists (name : string)
| MsgCurrentCount (n : nat)
| MsgCreating (name : string)
| MsgCreated (name : string)
| MsgProcessing (n : nat)
| MsgProgress (done total : nat)
| MsgAdding (total_batches : nat)
| MsgAddedBatch (batch_num total_batches size : nat)
| MsgAllStored
| MsgTotal (n : nat)
| MsgPath (path : string)
| MsgConfirmRequired (name : string)
| MsgConfirmExample (name : string)
| MsgDeleted (name : string)
| MsgDeleteError (e : string).

Record world (Ext : Type) : Type := World {
  ext : Ext;
  trace : list event;
  stdout : list message
}.

Arguments World {Ext}.
Arguments ext {Ext}.
Arguments trace {Ext}.
Arguments stdout {Ext}.

(** ** The monad of the effectful code: state plus exceptions *)

Definition M (Ext A : Type) : Type := world Ext → result A * world Ext.

Section Monad.
Context {Ext : Type}.

Definition ret {A} (a : A) : M Ext A := λ w, (Ok a, w).

Definition raise {A} (e : exn) : M Ext A := λ w, (Raise e, w).

Definition bind {A B} (m : M Ext A) (f : A → M Ext B) : M Ext B :=
  λ w, match m w with
       | (Ok a, w') => f a w'
       | (Raise e, w') => (Raise e, w')
       end.

(** [try: m  except Exception as e: h e]; what [m] did before raising
    stays done. *)
Definition catch {A} (m : M Ext A) (h : exn → M Ext A) : M Ext A :=
  λ w, match m w with
       | (Ok a, w') => (Ok a, w')
       | (Raise e, w') => h e w'
       end.

Definition lift {A} (r : result A) : M Ext A := λ w, (r, w).

Definition print (m : message) : M Ext unit :=
  λ w, (Ok tt, World (ext w) (trace w) (stdout w ++ [m])).

(** A call into a library that may raise. *)
Definition external {A} (op : Ext → result A * Ext)
    (ev : result A → event) : M Ext A :=
  λ w, let '(r, x) := op (ext w) in
       (r, World x (trace w ++ [ev r]) (stdout w)).

(** A read of the environment that cannot raise. *)
Definition observe {A} (op : Ext → A) (ev : A → event) : M Ext A :=
  λ w, let a := op (ext w) in
       (Ok a, World (ext w) (trace w ++ [ev a]) (stdout w)).

(** [for x in l: body x] *)
Fixpoint for_each {A} (l : list A) (body : A → M Ext unit) : M Ext unit :=
  match l with
  | [] => ret tt
  | x :: rest => bind (body x) (λ _, for_each rest body)
  end.

(** [for i, x in enumerate(l): acc = body i x acc], counting from [i]. *)
Fixpoint fold_enumerate {A B} (body : nat → A → B → M Ext B)
    (i : nat) (l : list A) (acc : B) : M Ext B :=
  match l with
  | [] => ret acc
  | x :: rest => bind (body i x acc) (fold_enumerate body (S i) rest)
  end.

End Monad.

#[export] Instance M_ret {Ext} : MRet (M Ext) := @ret Ext.
#[export] Instance M_bind {Ext} : MBind (M Ext) := λ A B f m, bind m f.

(** ** The embedding clients and the retrieval service *)

Section Program.
Context {Ext : Type} (svc : services Ext) (cfg : config).
Variable repr_opaque : value → string.

Local Abbreviation M' := (M Ext).

(** [os.path.abspath(path)] *)
Definition abspath_of (path : string) : M' string :=
  external (λ x, (abspath svc path x, x)) (EvAbspath path).

(** [resp.data[0].embedding] *)
Definition first_embedding (data : list embedding) : M' embedding :=
  match data with
  | e :: _ => ret e
  | [] => raise (Exn IndexError "list index out of range")
  end.

(** vector_store.py, [create_embedding] *)
Definition create_embedding (text : string) : M' embedding :=
  let text := if negb (truthy (VStr text)) then " " else text in
  data ← external (embeddings_create svc (EMBEDDING_MODEL cfg) text)
                  (EvEmbed (EMBEDDING_MODEL cfg) text);
  first_embedding data.

(** retriever.py, [get_embedding] *)
Definition get_embedding (text : string) (model : option string)
    : M' embedding :=
  let model := default (EMBEDDING_MODEL cfg) model in
  let text := PyStr.replace_char PyStr.LF " " text in
  data ← external (embeddings_create svc model text) (EvEmbed model text);
  first_embedding data.

(** *** retriever.py, [retrieve_similar_chunks] *)

Definition path_not_found_msg : string :=
  "ChromaDB path not found: " +:+ CHROMA_DB_PATH cfg
  +:+ ". Please run vector_store.py first to create the database.".

Definition collection_not_found_msg (e : exn) : string :=
  "Collection '" +:+ CHROMA_COLLECTION_NAME cfg
  +:+ "' not found. Please run vector_store.py first to create the collection. Error: "
  +:+ exn_str e.

Definition query_include : list string :=
  ["documents"; "metadatas"; "distances"].

(** One turn of the loop over [enumerate(documents)].  The guard
    [metadatas and i < len(metadatas)] holds exactly when
    [metadatas !! i] is defined. *)
Definition make_chunk (metadatas : list (option dict))
    (distances : list float) (i : nat) (doc : option string) : result chunk :=
  let distance := match distances !! i with Some d => d | None => 1%float end in
  let similarity := (1 - distance)%float in
  let text := match doc with Some s => VStr s | None => VNone end in
  if negb (truthy text) then
    match metadatas !! i with
    | Some (Some md) =>
        Ok (Chunk (dict_get_default md "text" (VStr "")) similarity)
    | Some None =>
        Raise (Exn AttributeError "'NoneType' object has no attribute 'get'")
    | None => Ok (Chunk text similarity)
    end
  else Ok (Chunk text similarity).

Fixpoint chunks_from (metadatas : list (option dict)) (distances : list float)
    (i : nat) (documents : list (option string)) : result (list chunk) :=
  match documents with
  | [] => Ok []
  | doc :: rest =>
      match make_chunk metadatas distances i doc with
      | Raise e => Raise e
      | Ok c =>
          match chunks_from metadatas distances (S i) rest with
          | Raise e => Raise e
          | Ok cs => Ok (c :: cs)
          end
      end
  end.

(** The first row of a column of the query result, or the fallback when
    the column is [None] or empty. *)
Definition first_row {A} (col : option (list (list A))) (fallback : list A)
    : list A :=
  match col with
  | Some (row :: _) => row
  | _ => fallback
  end.

(** The block after [collection.query] that fills [chunks]. *)
Definition format_results (results : query_result) : result (list chunk) :=
  match qr_documents results with
  | Some (documents :: _) =>
      let metadatas :=
        first_row (qr_metadatas results)
                  (replicate (length documents) (Some (∅ : dict))) in
      let distances :=
        first_row (qr_distances results)
                  (replicate (length documents) 0%float) in
      chunks_from metadatas distances 0 documents
  | _ => Ok []
  end.

Definition retrieve_similar_chunks (query : string) (top_k : Z)
    : M' (list chunk) :=
  found ← observe (path_exists svc (CHROMA_DB_PATH cfg))
                  (EvPathExists (CHROMA_DB_PATH cfg));
  if negb found then raise (Exn ValueError path_not_found_msg) else
  query_embedding ← get_embedding query None;
  external (persistent_client svc (CHROMA_DB_PATH cfg))
           (EvClient (CHROMA_DB_PATH cfg));;
  catch (external (get_collection svc (CHROMA_COLLECTION_NAME cfg))
                  (EvGetCollection (CHROMA_COLLECTION_NAME cfg)))
        (λ e, raise (Exn ValueError (collection_not_found_msg e)));;
  results ← external
    (collection_query svc (CHROMA_COLLECTION_NAME cfg) [query_embedding]
                      top_k query_include)
    (EvQuery (CHROMA_COLLECTION_NAME cfg) [query_embedding] top_k
             query_include);
  lift (format_results results).

(** *** manage_indexes.py, [delete_collection] *)

Definition delete_collection (collection_name : string) (confirm : bool)
    : M' unit :=
  if negb confirm then
    print (MsgConfirmRequired collection_name);;
    print (MsgConfirmExample collection_name)
  else
    catch
      (external (delete_collection_by_name svc collection_name)
                (EvDeleteCollection collection_name);;
       print (MsgDeleted collection_name))
      (λ e, print (MsgDeleteError (exn_str e))).

(** *** vector_store.py, [store_embeddings] *)

Definition doc_uid (i : nat) (doc : dict) : value :=
  dict_get_default doc "id" (VStr ("vec_" +:+ pretty i)).

(** [if doc.get(k): metadata[k] = doc.get(k)] *)
Definition copy_if_present (doc : dict) (k : string) (metadata : dict) : dict :=
  if truthy (dict_get doc k) then <[k := dict_get doc k]> metadata
  else metadata.

Definition doc_metadata (doc : dict) (uid : value) : dict :=
  let title :=
    py_or (py_or (dict_get doc "product_name") (dict_get doc "brand_name"))
          uid in
  let source_id := py_or (dict_get doc "source_url") (VStr "") in
  let metadata : dict :=
    {[ "title" := py_or title uid; "chunk_index" := VStr "0" ]} in
  let metadata :=
    if truthy source_id then <["source_id" := source_id]> metadata
    else metadata in
  let metadata := copy_if_present doc "product_name" metadata in
  let metadata := copy_if_present doc "therapeutic_class" metadata in
  let metadata := copy_if_present doc "strength" metadata in
  let metadata := copy_if_present doc "dosage_form" metadata in
  clean_metadata metadata.

(** The body of the loop over [enumerate(docs)]. *)
Definition process_doc (total : nat) (i : nat) (doc : dict) (acc : prepared)
    : M' prepared :=
  let uid := doc_uid i doc in
  text ← lift (build_text_for_embedding repr_opaque doc);
  embedding ← create_embedding text;
  let metadata := doc_metadata doc uid in
  let acc' := Prepared (ids acc ++ [uid]) (embeddings acc ++ [embedding])
                       (metadatas acc ++ [metadata])
                       (documents acc ++ [text]) in
  (if (i + 1) mod 100 =? 0 then print (MsgProgress (i + 1) total)
   else ret tt);;
  ret acc'.

Definition batch_at (acc : prepared) (batch_size i : nat) : add_request :=
  AddRequest (slice (ids acc) i (i + batch_size))
             (slice (embeddings acc) i (i + batch_size))
             (slice (metadatas acc) i (i + batch_size))
             (slice (documents acc) i (i + batch_size)).

(** The body of the loop over [range(0, len(ids), batch_size)]. *)
Definition add_batch (acc : prepared) (batch_size total_batches i : nat)
    : M' unit :=
  let req := batch_at acc batch_size i in
  external (collection_add svc (CHROMA_COLLECTION_NAME cfg) req)
           (EvAdd (CHROMA_COLLECTION_NAME cfg) req);;
  print (MsgAddedBatch (i / batch_size + 1) total_batches
                       (length (add_ids req))).

Definition cosine_space : dict := {[ "hnsw:space" := VStr "cosine" ]}.

Definition open_collection : M' unit :=
  catch
    (external (get_collection svc (CHROMA_COLLECTION_NAME cfg))
              (EvGetCollection (CHROMA_COLLECTION_NAME cfg));;
     print (MsgCollectionExists (CHROMA_COLLECTION_NAME cfg));;
     count ← external (collection_count svc (CHROMA_COLLECTION_NAME cfg))
                      (EvCount (CHROMA_COLLECTION_NAME cfg));
     print (MsgCurrentCount count))
    (λ _,
     print (MsgCreating (CHROMA_COLLECTION_NAME cfg));;
     external (create_collection svc (CHROMA_COLLECTION_NAME cfg) cosine_space)
              (EvCreateCollection (CHROMA_COLLECTION_NAME cfg) cosine_space);;
     print (MsgCreated (CHROMA_COLLECTION_NAME cfg))).

Definition load_docs : M' (list dict) :=
  found ← observe (path_exists svc (INPUT_JSON cfg))
                  (EvPathExists (INPUT_JSON cfg));
  if negb found then
    raise (Exn FileNotFoundError ("Input JSON not found: " +:+ INPUT_JSON cfg))
  else external (read_json svc (INPUT_JSON cfg)) (EvReadJson (INPUT_JSON cfg)).

(** The block under "Batch add to ChromaDB". *)
Definition add_in_batches (acc : prepared) : M' unit :=
  let batch_size := 100 in
  let total_batches := (length (ids acc) + batch_size - 1) / batch_size in
  print (MsgAdding total_batches);;
  for_each (py_range 0 (length (ids acc)) batch_size)
           (add_batch acc batch_size total_batches).

(** The block under "Verify final count". *)
Definition report_final_count : M' unit :=
  final_count ← external (collection_count svc (CHROMA_COLLECTION_NAME cfg))
                         (EvCount (CHROMA_COLLECTION_NAME cfg));
  print MsgAllStored;;
  print (MsgTotal final_count);;
  path ← abspath_of (CHROMA_DB_PATH cfg);
  print (MsgPath path).

Definition store_embeddings : M' unit :=
  print (MsgGettingDimension (EMBEDDING_MODEL cfg));;
  sample_embedding ← create_embedding "sample";
  let embedding_dimension := length sample_embedding in
  print (MsgDimension embedding_dimension);;
  external (makedirs svc (CHROMA_DB_PATH cfg)) (EvMakedirs (CHROMA_DB_PATH cfg));;
  external (persistent_client svc (CHROMA_DB_PATH cfg))
           (EvClient (CHROMA_DB_PATH cfg));;
  open_collection;;
  docs ← load_docs;
  print (MsgProcessing (length docs));;
  acc ← fold_enumerate (process_doc (length docs)) 0 docs
                       (Prepared [] [] [] []);
  add_in_batches acc;;
  report_final_count.

End Program.

(** ** Reading traces *)

(** [emits m Q]: from any world, [m] extends the trace by some events
    [new], and its outcome together with [new] satisfies [Q]. *)
Definition emits {Ext A} (m : M Ext A) (Q : result A → list event → Prop)
    : Prop :=
  ∀ w, ∃ new, trace (m w).2 = trace w ++ new ∧ Q (m w).1 new.

(** The store queries, the add requests and the successful provider
    answers recorded in a trace, in order. *)
Definition is_query (ev : event) : bool :=
  match ev with EvQuery _ _ _ _ _ => true | _ => false end.

Definition add_request_of (ev : event) : option add_request :=
  match ev with EvAdd _ req _ => Some req | _ => None end.

Definition add_requests (evs : list event) : list add_request :=
  omap add_request_of evs.

Definition embed_answer_of (ev : event) : option embedding :=
  match ev with EvEmbed _ _ (Ok (e :: _)) => Some e | _ => None end.

Definition embed_answers (evs : list event) : list embedding :=
  omap embed_answer_of evs.

Definition embed_input_of (ev : event) : option string :=
  match ev with EvEmbed _ input _ => Some input | _ => None end.

Definition embed_inputs (evs : list event) : list string :=
  omap embed_input_of evs.

Definition docs_read_of (ev : event) : option (list dict) :=
  match ev with EvReadJson _ (Ok docs) => Some docs | _ => None end.

Definition docs_read (evs : list event) : list (list dict) :=
  omap docs_read_of evs.

(** ** The embedding contract in the words of the specification

    Section 4.1 of the specification describes one client for both sides:
    empty or whitespace-only input becomes a single space, and every
    newline becomes a space.  This is the text that client would send. *)
Definition spec_embed_input (text : string) : string :=
  if String.eqb (PyStr.strip text) "" then " "
  else PyStr.replace_char PyStr.LF " " text.

(** ** An in-memory stand-in for the services

    Used only to run the code on concrete inputs.  The provider answers
    every request with the same vector, or refuses every request; the
    store keeps the add requests of each collection and answers every
    query with a canned result. *)

Module Sim.

Record state : Type := State {
  paths : list string;
  input : list dict;
  provider_up : bool;
  collections : gmap string (list add_request);
  answer : query_result
}.

Definition missing (name : string) : exn :=
  Exn StoreError ("Collection " +:+ name +:+ " does not exist.").

Definition with_collections (st : state)
    (c : gmap string (list add_request)) : state :=
  State (paths st) (input st) (provider_up st) c (answer st).

Definition stored (reqs : list add_request) : nat :=
  sum_list (length ∘ add_ids <$> reqs).

(** [os.path.abspath] with the working directory [/srv/app], for the
    paths the examples use: absolute ones, and relative ones with at
    most a leading [./]. *)
Definition absolute (p : string) : string :=
  if PyStr.prefix "/" p then p
  else if PyStr.prefix "./" p
       then "/srv/app/" +:+ String.substring 2 (String.length p - 2) p
       else "/srv/app/" +:+ p.

Definition svc : services state :=
  {| path_exists p st := bool_decide (p ∈ paths st);
     makedirs p st :=
       (Ok tt, State (p :: paths st) (input st) (provider_up st)
                     (collections st) (answer st));
     read_json _ st := (Ok (input st), st);
     abspath p _ := Ok (absolute p);
     embeddings_create _ _ st :=
       if provider_up st then (Ok [[1%float; 0%float]], st)
       else (Raise (Exn ProviderError "Connection error."), st);
     persistent_client _ st := (Ok tt, st);
     get_collection name st :=
       match collections st !! name with
       | Some _ => (Ok tt, st)
       | None => (Raise (missing name), st)
       end;
     create_collection name _ st :=
       match collections st !! name with
       | Some _ =>
           (Raise (Exn StoreError ("Collection " +:+ name
                                   +:+ " already exists")), st)
       | None => (Ok tt, with_collections st (<[name := []]> (collections st)))
       end;
     delete_collection_by_name name st :=
       match collections st !! name with
       | Some _ => (Ok tt, with_collections st (delete name (collections st)))
       | None => (Raise (missing name), st)
       end;
     collection_count name st :=
       match collections st !! name with
       | Some reqs => (Ok (stored reqs), st)
       | None => (Raise (missing name), st)
       end;
     collection_add name req st :=
       match collections st !! name with
       | Some reqs =>
           (Ok tt, with_collections st (<[name := reqs ++ [req]]> (collections st)))
       | None => (Raise (missing name), st)
       end;
     collection_query name _ _ _ st :=
       match collections st !! name with
       | Some _ => (Ok (answer st), st)
       | None => (Raise (missing name), st)
       end |}.

Definition no_answer : query_result := QueryResult None None None.

(** [str()] of floats and containers is not exercised by the examples. *)
Definition repr : value → string := λ _, "".

Definition start (st : state) : world state := World st [] [].

End Sim.

(** ** Concrete records and maps used in the checks below *)

Definition doc_padded_id : dict := {[ "id" := VStr " a" ]}.

Definition mixed_metadata : dict :=
  {[ "a" := VInt 0; "b" := VBool false; "c" := VNone; "d" := VStr "";
     "title" := VStr "Amoxil" ]}.

Definition doc_amoxil : dict :=
  {[ "id" := VStr "p1"; "product_name" := VStr "Amoxil";
     "strength" := VStr "500 mg"; "pack_size" := VInt 10;
     "brand_name" := VStr ""; "source_url" := VNone ]}.

Definition two_lines : string := "a" +:+ PyStr.newline +:+ "b".

(** Store directory and input file present, provider reachable, no
    collection yet. *)
Definition sim_fresh : Sim.state :=
  Sim.State ["./chroma_db"; "new_data.json"] [] true ∅ Sim.no_answer.

(** The same with the provider unreachable. *)
Definition sim_offline : Sim.state :=
  Sim.State ["./chroma_db"; "new_data.json"] [] false ∅ Sim.no_answer.

(** No store directory at all. *)
Definition sim_no_store : Sim.state :=
  Sim.State [] [] true ∅ Sim.no_answer.

(** One collection holding two stored items. *)
Definition sim_two_items : Sim.state :=
  Sim.State ["./chroma_db"] [] true
    {[ "medical-vectors" :=
         [AddRequest [VStr "p1"; VStr "p2"] [[1%float]; [0%float]] [∅; ∅]
                     ["Amoxil"; "Brufen"]] ]}
    Sim.no_answer.

(** A collection whose query answer ranks three items. *)
Definition three_hits : query_result :=
  QueryResult (Some [[Some "Amoxil"; Some "Brufen"; Some "Calpol"]])
              (Some [[Some ∅; Some ∅; Some ∅]])
              (Some [[0; 0.1; 0.5]%float]).

Definition sim_answering : Sim.state :=
  Sim.State ["./chroma_db"] [] true {[ "medical-vectors" := [] ]} three_hits.

(** An input file of 250 records and no collection yet. *)
Definition sim_250 : Sim.state :=
  Sim.State ["new_data.json"]
            (replicate 250 {[ "product_name" := VStr "Amoxil" ]})
            true ∅ Sim.no_answer.

(** ** Reading traces, continued *)

Definition is_raise {A} (r : result A) : bool :=
  match r with Raise _ => true | Ok _ => false end.

(** A provider call that did not yield a vector: the call raised, or
    [resp.data] came back empty. *)
Definition embed_failed (ev : event) : bool :=
  match ev with
  | EvEmbed _ _ (Raise _) | EvEmbed _ _ (Ok []) => true
  | _ => false
  end.


(** The calls [store_embeddings] can make under a configuration. *)
Definition ingestion_call (cfg : config) (ev : event) : Prop :=
  match ev with
  | EvPathExists path _ => path = INPUT_JSON cfg
  | EvMakedirs path _ => path = CHROMA_DB_PATH cfg
  | EvReadJson path _ => path = INPUT_JSON cfg
  | EvEmbed model _ _ => model = EMBEDDING_MODEL cfg
  | EvClient path _ => path = CHROMA_DB_PATH cfg
  | EvGetCollection name _ => name = CHROMA_COLLECTION_NAME cfg
  | EvCreateCollection name metadata _ =>
      name = CHROMA_COLLECTION_NAME cfg
      ∧ metadata = {[ "hnsw:space" := VStr "cosine" ]}
  | EvCount name _ => name = CHROMA_COLLECTION_NAME cfg
  | EvAdd name _ _ => name = CHROMA_COLLECTION_NAME cfg
  | EvAbspath path _ => path = CHROMA_DB_PATH cfg
  | EvDeleteCollection _ _ => False
  | EvQuery _ _ _ _ _ => False
  end.

(** [if not text: text = " "], the text [create_embedding] sends. *)
Definition sent_text (t : string) : string :=
  if String.eqb t "" then " " else t.

(** The stand-in with the input file reported missing. *)
Definition sim_svc_no_input : services Sim.state :=
  {| path_exists p st :=
       if String.eqb p "new_data.json" then false
       else path_exists Sim.svc p st;
     makedirs := makedirs Sim.svc;
     read_json := read_json Sim.svc;
     abspath := abspath Sim.svc;
     embeddings_create := embeddings_create Sim.svc;
     persistent_client := persistent_client Sim.svc;
     get_collection := get_collection Sim.svc;
     create_collection := create_collection Sim.svc;
     delete_collection_by_name := delete_collection_by_name Sim.svc;
     collection_count := collection_count Sim.svc;
     collection_add := collection_add Sim.svc;
     collection_query := collection_query Sim.svc |}.

(** Three records: a full one, one with only an id, one empty. *)
Definition sim_three_docs : Sim.state :=
  Sim.State ["new_data.json"]
            [doc_amoxil; {[ "id" := VStr "p2" ]}; ∅]
            true ∅ Sim.no_answer.

(** ** manage_indexes.py: the command line tool

    [list_collections] and [describe_collection] use two store
    operations the other files do not, and print lines of their own.
    The tool therefore runs over its own state: the external state, the
    calls made so far (those of the shared interface included, in
    order) and the lines printed so far. *)

(** [str.lower] on one code point below 256: A..Z, and the Latin-1
    capitals U+00C0..U+00DE except the multiplication sign. *)
Definition lower_char (c : ascii) : ascii :=
  let n := nat_of_ascii c in
  if ((65 <=? n) && (n <=? 90))
     || ((192 <=? n) && (n <=? 222) && negb (n =? 215))
  then ascii_of_nat (n + 32) else c.

Fixpoint py_lower (s : string) : string :=
  match s with
  | "" => ""
  | String c s' => String (lower_char c) (py_lower s')
  end.

(** [collection.peek(limit=...)]: the metadata column of the sampled
    items; each metadata map lists its entries in insertion order. *)
Record peek_result : Type := PeekResult {
  pk_metadatas : option (list (option (list (string * value))))
}.

Record admin_services (Ext : Type) : Type := AdminServices {
  (* chroma_client.list_collections(): the [name] of each collection *)
  list_collection_names : Ext → result (list string) * Ext;
  (* collection.peek(limit=n) on the collection of that name *)
  collection_peek : string → nat → Ext → result peek_result * Ext
}.

Arguments list_collection_names {Ext}.
Arguments collection_peek {Ext}.

Inductive admin_call : Type :=
| Store (ev : event)
| ListCollections (r : result (list string))
| Peek (name : string) (limit : nat) (r : result peek_result).

(** The lines the tool prints; as for [message], which line it is and
    the values it shows. *)
Inductive admin_line : Type :=
| Said (m : message)
| LPathMissing (path : string)
| LPathHintCreate
| LPathHintManual
| LListHeader
| LNoCollections
| LName (name : string)
| LDocumentCount (n : nat)
| LBlank
| LDetailError (e : string)
| LListError (e : string)
| LDescribeHeader (name : string)
| LMetadataKeys (keys : list string)
| LMetadataError (e : string)
| LDatabasePath (path : string)
| LError (e : string)
| LUsage (blank_before : bool)
| LUsageList
| LUsageDescribe
| LUsageDelete.

Record admin_state (Ext : Type) : Type := AdminState {
  aext : Ext;
  acalls : list admin_call;
  aout : list admin_line
}.

Arguments AdminState {Ext}.
Arguments aext {Ext}.
Arguments acalls {Ext}.
Arguments aout {Ext}.

Definition AM (Ext A : Type) : Type :=
  admin_state Ext → result A * admin_state Ext.

Section AdminMonad.
Context {Ext : Type}.

Definition aret {A} (a : A) : AM Ext A := λ s, (Ok a, s).

Definition abind {A B} (m : AM Ext A) (f : A → AM Ext B) : AM Ext B :=
  λ s, match m s with
       | (Ok a, s') => f a s'
       | (Raise e, s') => (Raise e, s')
       end.

Definition acatch {A} (m : AM Ext A) (h : exn → AM Ext A) : AM Ext A :=
  λ s, match m s with
       | (Ok a, s') => (Ok a, s')
       | (Raise e, s') => h e s'
       end.

Definition say (l : admin_line) : AM Ext unit :=
  λ s, (Ok tt, AdminState (aext s) (acalls s) (aout s ++ [l])).

Definition acall {A} (op : Ext → result A * Ext)
    (c : result A → admin_call) : AM Ext A :=
  λ s, let '(r, x) := op (aext s) in
       (r, AdminState x (acalls s ++ [c r]) (aout s)).

(** Running code of the other files inside the tool: its calls and its
    lines are appended to the tool's, in order. *)
Definition lift_base {A} (m : M Ext A) : AM Ext A :=
  λ s, let '(r, w) := m (World (aext s) [] []) in
       (r, AdminState (ext w) (acalls s ++ (Store <$> trace w))
                      (aout s ++ (Said <$> stdout w))).

Fixpoint afor_each {A} (l : list A) (body : A → AM Ext unit) : AM Ext unit :=
  match l with
  | [] => aret tt
  | x :: rest => abind (body x) (λ _, afor_each rest body)
  end.

End AdminMonad.

#[export] Instance AM_ret {Ext} : MRet (AM Ext) := @aret Ext.
#[export] Instance AM_bind {Ext} : MBind (AM Ext) := λ A B f m, abind m f.

Section AdminTool.
Context {Ext : Type} (svc : services Ext) (asvc : admin_services Ext).
Context (cfg : config).

Local Abbreviation AM' := (AM Ext).

(** The body of the loop of [list_collections]. *)
Definition list_one (name : string) : AM' unit :=
  acatch
    (count ← lift_base (external (collection_count svc name) (EvCount name));
     say (LName name);;
     say (LDocumentCount count);;
     say LBlank)
    (λ e,
     say (LName name);;
     say (LDetailError (exn_str e));;
     say LBlank).

Definition list_collections : AM' unit :=
  say LListHeader;;
  acatch
    (collections ← acall (list_collection_names asvc) ListCollections;
     match collections with
     | [] => say LNoCollections
     | _ => afor_each collections list_one
     end)
    (λ e, say (LListError (exn_str e))).

(** The inner [try] of [describe_collection]. *)
Definition sample_metadata (collection_name : string) : AM' unit :=
  acatch
    (sample_results ← acall (collection_peek asvc collection_name 1)
                            (Peek collection_name 1);
     match pk_metadatas sample_results with
     | Some (Some md :: _) => say (LMetadataKeys (md.*1))
     | Some (None :: _) =>
         λ s, (Raise (Exn AttributeError
                        "'NoneType' object has no attribute 'keys'"), s)
     | _ => aret tt
     end)
    (λ e, say (LMetadataError (exn_str e))).

Definition describe_collection (collection_name : string) : AM' unit :=
  acatch
    (lift_base (external (get_collection svc collection_name)
                         (EvGetCollection collection_name));;
     say (LDescribeHeader collection_name);;
     count ← lift_base (external (collection_count svc collection_name)
                                 (EvCount collection_name));
     say (LDocumentCount count);;
     sample_metadata collection_name;;
     path ← lift_base (abspath_of svc (CHROMA_DB_PATH cfg));
     say (LDatabasePath path))
    (λ e, say (LError (exn_str e))).

Definition print_usage (blank_before : bool) : AM' unit :=
  say (LUsage blank_before);;
  say LUsageList;;
  say LUsageDescribe;;
  say LUsageDelete.

(** The block under [if __name__ == "__main__":], on [sys.argv]. *)
Definition main (argv : list string) : AM' unit :=
  match argv with
  | _ :: command :: rest =>
      if String.eqb command "list" then list_collections
      else
        match rest with
        | collection_name :: rest' =>
            if String.eqb command "describe"
            then describe_collection collection_name
            else if String.eqb command "delete" then
              let confirm :=
                match rest' with
                | word :: _ => String.eqb (py_lower word) "confirm"
                | [] => false
                end in
              lift_base (delete_collection svc collection_name confirm)
            else print_usage false
        | [] => print_usage false
        end
  | _ => list_collections;; print_usage true
  end.

(** The whole script: the module-level check of the store directory,
    the client, then [main].  The result is the exit status. *)
Definition manage_indexes (argv : list string) : AM' nat :=
  found ← lift_base (observe (path_exists svc (CHROMA_DB_PATH cfg))
                             (EvPathExists (CHROMA_DB_PATH cfg)));
  if negb found then
    say (LPathMissing (CHROMA_DB_PATH cfg));;
    say LPathHintCreate;;
    say LPathHintManual;;
    aret 1
  else
    lift_base (external (persistent_client svc (CHROMA_DB_PATH cfg))
                        (EvClient (CHROMA_DB_PATH cfg)));;
    main argv;;
    aret 0.

End AdminTool.

(** The three lines [list_collections] prints for one collection, given
    the outcome of counting it. *)
Definition listing_block (name : string) (count : result nat)
    : list admin_line :=
  [ LName name;
    match count with
    | Ok n => LDocumentCount n
    | Raise e => LDetailError (exn_str e)
    end;
    LBlank ].


(** The stand-in's two extra operations: collections are listed in the
    order of the map, and a sample carries one metadata map with a
    title. *)
Definition sim_admin : admin_services Sim.state :=
  {| list_collection_names st :=
       (Ok ((map_to_list (Sim.collections st)).*1), st);
     collection_peek name _ st :=
       match Sim.collections st !! name with
       | Some _ =>
           (Ok (PeekResult (Some [Some [("title", VStr "Amoxil")]])), st)
       | None => (Raise (Sim.missing name), st)
       end |}.

Definition admin_start (st : Sim.state) : admin_state Sim.state :=
  AdminState st [] [].

(** An answer whose first item has no document but a text attribute,
    whose second has an empty document and empty metadata, whose third
    has a document and no metadata, and with one distance for three
    items. *)
Definition fallback_hits : query_result :=
  QueryResult (Some [[None; Some ""; Some "Calpol"]])
              (Some [[Some {[ "text" := VStr "from metadata" ]}; Some ∅; None]])
              (Some [[0.25%float]]).

Definition argv_delete_confirmed : list string :=
  ["manage_indexes.py"; "delete"; "medical-vectors"; "CONFIRM"].

(** ** Reading the output

    [produces m Q]: from any world, [m] extends the trace by some events
    [new] and the printed output by some lines [out], and its outcome
    together with both satisfies [Q]. *)
Definition produces {Ext A} (m : M Ext A)
    (Q : result A → list event → list message → Prop) : Prop :=
  ∀ w, ∃ new out,
    trace (m w).2 = trace w ++ new
    ∧ stdout (m w).2 = stdout w ++ out
    ∧ Q (m w).1 new out.

(** The add requests the store accepted. *)
Definition accepted_of (ev : event) : option add_request :=
  match ev with EvAdd _ req (Ok _) => Some req | _ => None end.

Definition accepted (evs : list event) : list add_request :=
  omap accepted_of evs.

(** The lines that report a write or the end of a run. *)
Definition result_line_of (m : message) : option message :=
  match m with
  | MsgAddedBatch _ _ _ | MsgAllStored => Some m
  | _ => None
  end.

Definition result_lines (out : list message) : list message :=
  omap result_line_of out.

(** The line printed after the accepted batch at position [k], counting
    from 0. *)
Definition batch_line (total_batches k : nat) (req : add_request) : message :=
  MsgAddedBatch (S k) total_batches (length (add_ids req)).

(** The progress line the loop prints after the record at position [j],
    if any: [if (i + 1) % 100 == 0]. *)
Definition progress_line_of (total j : nat) : option message :=
  if (j + 1) mod 100 =? 0 then Some (MsgProgress (j + 1) total) else None.

(** The three ways in which [store_embeddings] ends up with an open
    collection, each with the calls it makes and the lines it prints:
    found and counted; not found, then created; found but not counted,
    then created. *)
Inductive opening (name : string) : list event → list message → Prop :=
| opening_found (n : nat) :
    opening name
      [EvGetCollection name (Ok tt); EvCount name (Ok n)]
      [MsgCollectionExists name; MsgCurrentCount n]
| opening_created (e : exn) :
    opening name
      [EvGetCollection name (Raise e);
       EvCreateCollection name cosine_space (Ok tt)]
      [MsgCreating name; MsgCreated name]
| opening_recreated (e : exn) :
    opening name
      [EvGetCollection name (Ok tt); EvCount name (Raise e);
       EvCreateCollection name cosine_space (Ok tt)]
      [MsgCollectionExists name; MsgCreating name; MsgCreated name].


Definition is_abspath (ev : event) : bool :=
  match ev with EvAbspath _ _ => true | _ => false end.

(** The stand-in with the working directory gone: [os.path.abspath]
    raises. *)
Definition sim_svc_no_cwd : services Sim.state :=
  {| path_exists := path_exists Sim.svc;
     makedirs := makedirs Sim.svc;
     read_json := read_json Sim.svc;
     abspath _ _ :=
       Raise (Exn FileNotFoundError "[Errno 2] No such file or directory");
     embeddings_create := embeddings_create Sim.svc;
     persistent_client := persistent_client Sim.svc;
     get_collection := get_collection Sim.svc;
     create_collection := create_collection Sim.svc;
     delete_collection_by_name := delete_collection_by_name Sim.svc;
     collection_count := collection_count Sim.svc;
     collection_add := collection_add Sim.svc;
     collection_query := collection_query Sim.svc |}.

(** The map [store_embeddings] fills for a record before it cleans it. *)
Definition doc_metadata_raw (doc : dict) (uid : value) : dict :=
  let title :=
    py_or (py_or (dict_get doc "product_name") (dict_get doc "brand_name"))
          uid in
  let source_id := py_or (dict_get doc "source_url") (VStr "") in
  let metadata : dict :=
    {[ "title" := py_or title uid; "chunk_index" := VStr "0" ]} in
  let metadata :=
    if truthy source_id then <["source_id" := source_id]> metadata
    else metadata in
  let metadata := copy_if_present doc "product_name" metadata in
  let metadata := copy_if_present doc "therapeutic_class" metadata in
  let metadata := copy_if_present doc "strength" metadata in
  copy_if_present doc "dosage_form" metadata.

(** ** Binary64 rounding, for the order of similarities

    The kernel's floats are specified by [SpecFloat]: a subtraction is
    computed exactly and then rounded to nearest, ties to even.  Both
    operands of [1 - d] are multiples of [2^-1074], so the exact result
    is an integer number of such units.  [rnd] is that rounding as a
    function of the number of units; the facts below show that the
    library's algorithm computes it and that it keeps the order. *)

Section RoundingSpec.
Local Open Scope Z_scope.

(** A finite value with mantissa [m] and exponent [e], or an infinity
    when the exponent is beyond the format. *)
Definition sf_pack (s : bool) (m e : Z) : spec_float :=
  if e <=? 971 then S754_finite s (Z.to_pos m) e else S754_infinity s.

(** Rounding to nearest, ties to even, of a positive multiple [N] of
    [2^-1074]: the number of low bits dropped, and the mantissa kept. *)
Definition rnd_shift (N : Z) : Z := Z.max (Z.log2 N + 1 - 53) 0.

Definition rnd_mantissa (N : Z) : Z :=
  let n := rnd_shift N in
  let q := N / 2 ^ n in
  if Z.testbit N (n - 1) && (negb (N mod 2 ^ (n - 1) =? 0) || Z.odd q)
  then q + 1 else q.

Definition rnd_pos (s : bool) (N : Z) : spec_float :=
  if rnd_mantissa N =? 2 ^ 53
  then sf_pack s (2 ^ 52) (rnd_shift N + 1 - 1074)
  else sf_pack s (rnd_mantissa N) (rnd_shift N - 1074).

Definition rnd (N : Z) : spec_float :=
  match N with
  | 0 => S754_zero false
  | Z.pos _ => rnd_pos false N
  | Z.neg p => rnd_pos true (Z.pos p)
  end.

(** The value of a zero or a finite number, in units of [2^-1074]. *)
Definition sf_units (x : spec_float) : Z :=
  match x with
  | S754_finite s m e =>
      (if s then Z.neg m else Z.pos m) * 2 ^ (e + 1074)
  | _ => 0
  end.

Definition sf_one : spec_float := S754_finite false 4503599627370496 (-52).

End RoundingSpec.

(** * Properties *)

(** ** Checks on concrete inputs *)

Example field_label_product_name : field_label "product_name" = "Product Name".
Proof. reflexivity. Qed.

Example field_label_indication :
  field_label "indication_summary" = "Indication Summary".
Proof. reflexivity. Qed.

Example strip_both_sides : PyStr.strip "  a b  " = "a b".
Proof. reflexivity. Qed.

Example text_of_amoxil :
  build_text_for_embedding Sim.repr doc_amoxil
  = Ok ("Product Name: Amoxil" +:+ PyStr.newline +:+ "Strength: 500 mg"
        +:+ PyStr.newline +:+ "Pack Size: 10").
Proof. vm_compute. reflexivity. Qed.

Example metadata_of_amoxil :
  doc_metadata doc_amoxil (doc_uid 0 doc_amoxil)
  = {[ "title" := VStr "Amoxil"; "chunk_index" := VStr "0";
       "product_name" := VStr "Amoxil"; "strength" := VStr "500 mg" ]}.
Proof. vm_compute. reflexivity. Qed.

Example uid_defaults_to_position : doc_uid 7 ∅ = VStr "vec_7".
Proof. vm_compute. reflexivity. Qed.

Example non_string_id_raises :
  build_text_for_embedding Sim.repr {[ "id" := VInt 5 ]}
  = Raise (Exn TypeError "sequence item 0: expected str instance, int found").
Proof. vm_compute. reflexivity. Qed.

Example range_250 : py_range 0 250 100 = [0; 100; 200].
Proof. reflexivity. Qed.

Example clean_mixed :
  clean_metadata mixed_metadata
  = {[ "a" := VInt 0; "b" := VBool false; "title" := VStr "Amoxil" ]}.
Proof. vm_compute. reflexivity. Qed.

(** ** Strings *)

Lemma take_length n s : String.length (PyStr.take n s) ≤ n.
Proof.
  revert s. induction n as [|n IH]; intros [|c s]; simpl; try lia.
  specialize (IH s). lia.
Qed.

Lemma take_all n s : String.length s ≤ n → PyStr.take n s = s.
Proof.
  revert s. induction n as [|n IH]; intros [|c s]; simpl; intros H;
    try reflexivity; try lia.
  rewrite IH; [reflexivity | lia].
Qed.

(** ** The metadata sanitizer *)

Lemma keep_value_spec v : keep_value v = true ↔ v ≠ VNone ∧ v ≠ VStr "".
Proof.
  unfold keep_value. destruct v as [| | | |s| |]; simpl;
    try (split; [intros _; split; discriminate | reflexivity]).
  - split; [discriminate | intros [H _]; contradiction].
  - destruct s; simpl.
    + split; [discriminate | intros [_ H]; contradiction].
    + split; [intros _; split; discriminate | reflexivity].
Qed.

Lemma clean_metadata_lookup (m : dict) k v :
  clean_metadata m !! k = Some v ↔ m !! k = Some v ∧ keep_value v = true.
Proof. unfold clean_metadata. apply map_lookup_filter_Some. Qed.

(** C7: whatever map goes in, no entry of the sanitized map holds [None]
    and none holds the empty string. *)
Theorem clean_metadata_no_null_or_empty (m : dict) (k : string) (v : value) :
  clean_metadata m !! k = Some v → v ≠ VNone ∧ v ≠ VStr "".
Proof.
  intros H. apply clean_metadata_lookup in H as [_ Hk].
  by apply keep_value_spec.
Qed.

Lemma clean_metadata_no_null_or_empty_witness :
  clean_metadata mixed_metadata !! "a" = Some (VInt 0)
  ∧ (VInt 0 ≠ VNone ∧ VInt 0 ≠ VStr "").
Proof.
  assert (H : clean_metadata mixed_metadata !! "a" = Some (VInt 0))
    by (vm_compute; reflexivity).
  split; [exact H|].
  exact (clean_metadata_no_null_or_empty mixed_metadata "a" (VInt 0) H).
Defined.

(** C9: sanitizing is idempotent, [clean_metadata (clean_metadata m)] is
    [clean_metadata m]. *)
Theorem clean_metadata_idempotent (m : dict) :
  clean_metadata (clean_metadata m) = clean_metadata m.
Proof.
  apply map_eq; intros k. apply option_eq; intros v.
  rewrite !clean_metadata_lookup. tauto.
Qed.

(** C10: an entry is in the sanitized map exactly when it is in the input
    with a value other than [None] and other than the empty string; it
    keeps its key and value.  Falsy values such as [0] and [False] are
    therefore kept. *)
Theorem clean_metadata_keeps_exactly (m : dict) (k : string) (v : value) :
  (clean_metadata m !! k = Some v ↔ m !! k = Some v ∧ v ≠ VNone ∧ v ≠ VStr "")
  ∧ (m !! k = Some (VInt 0) → clean_metadata m !! k = Some (VInt 0))
  ∧ (m !! k = Some (VBool false) → clean_metadata m !! k = Some (VBool false))
  ∧ (clean_metadata m !! k = None ↔
     m !! k = None ∨ m !! k = Some VNone ∨ m !! k = Some (VStr "")).
Proof.
  assert (Hiff : ∀ v', clean_metadata m !! k = Some v'
                       ↔ m !! k = Some v' ∧ v' ≠ VNone ∧ v' ≠ VStr "").
  { intros v'. rewrite clean_metadata_lookup, keep_value_spec. reflexivity. }
  split; [apply Hiff|]. split; [|split].
  - intros H. apply Hiff. by repeat split.
  - intros H. apply Hiff. by repeat split.
  - split.
    + intros Hnone. destruct (m !! k) as [v'|] eqn:Hm; [|by left]. right.
      destruct (keep_value v') eqn:Hk.
      * assert (clean_metadata m !! k = Some v') as Hc
          by (apply clean_metadata_lookup; by split).
        congruence.
      * destruct v' as [| | | |s| |]; try discriminate; [by left|].
        destruct s; [by right | discriminate].
    + intros Hm. destruct (clean_metadata m !! k) as [v'|] eqn:Hc; [|done].
      destruct (proj1 (Hiff v') eq_refl) as (Hin & Hn & He).
      destruct Hm as [Hm|[Hm|Hm]]; congruence.
Qed.

(** ** The document text builder *)

Section TextBuilderFacts.
Variable repr_opaque : value → string.

Lemma field_parts_nil (doc : dict) :
  (∀ k, k ∈ fields_in_order → truthy (dict_get doc k) = false) →
  field_parts repr_opaque doc = [].
Proof.
  unfold field_parts. generalize fields_in_order as ks.
  induction ks as [|k ks IH]; intros H; [reflexivity|].
  cbn [omap list_omap]. unfold field_line at 1.
  rewrite (H k) by left. apply IH. intros k' Hk'. apply H. by right.
Qed.

(** C8: the text blob never has more than 6000 characters.  The builder
    returns a string for every record but one kind: a record with no
    listed field set whose [id] is present and is not a string, where
    joining the parts raises [TypeError]. *)
Theorem build_text_at_most_6000 (doc : dict) :
  match build_text_for_embedding repr_opaque doc with
  | Ok s => String.length s ≤ 6000
  | Raise e =>
      field_parts repr_opaque doc = []
      ∧ ∃ v, doc !! "id" = Some v ∧ (∀ s, v ≠ VStr s) ∧ e = join_error 0 v
  end.
Proof.
  unfold build_text_for_embedding.
  destruct (field_parts repr_opaque doc) as [|p ps] eqn:Hparts.
  - unfold dict_get_default.
    destruct (doc !! "id") as [v|] eqn:Hid.
    + destruct v; try apply (take_length MAX_TEXT);
        (split; [done|]; eexists; split; [done|]; split;
         [intros ?; discriminate | done]).
    + apply (take_length MAX_TEXT).
  - apply (take_length MAX_TEXT).
Qed.

(** C4, as the code has it: with none of the nine listed fields set, the
    builder returns the [id] string stripped of surrounding whitespace
    and cut to 6000 characters, hence the [id] itself when it has no
    surrounding whitespace and at most 6000 characters, and the empty
    string when the record has no [id]. *)
Theorem build_text_falls_back_to_id (doc : dict) :
  (∀ k, k ∈ fields_in_order → truthy (dict_get doc k) = false) →
  (doc !! "id" = None → build_text_for_embedding repr_opaque doc = Ok "")
  ∧ (∀ s, doc !! "id" = Some (VStr s) →
       build_text_for_embedding repr_opaque doc
       = Ok (PyStr.take 6000 (PyStr.strip s)))
  ∧ (∀ s, doc !! "id" = Some (VStr s) → PyStr.strip s = s →
       String.length s ≤ 6000 →
       build_text_for_embedding repr_opaque doc = Ok s).
Proof.
  intros H. apply field_parts_nil in H.
  unfold build_text_for_embedding, dict_get_default. rewrite H.
  split; [|split].
  - intros ->. reflexivity.
  - intros s ->. reflexivity.
  - intros s -> Hs Hlen. simpl. rewrite Hs.
    f_equal. by apply (take_all MAX_TEXT).
Qed.

End TextBuilderFacts.

Lemma doc_padded_id_no_fields k :
  k ∈ fields_in_order → truthy (dict_get doc_padded_id k) = false.
Proof.
  unfold fields_in_order. rewrite !elem_of_cons, elem_of_nil.
  intros H. repeat (destruct H as [->|H]; [vm_compute; reflexivity|]).
  contradiction.
Qed.

Lemma build_text_falls_back_to_id_witness :
  build_text_for_embedding Sim.repr doc_padded_id = Ok "a".
Proof.
  exact (proj1 (proj2 (build_text_falls_back_to_id Sim.repr doc_padded_id
                         doc_padded_id_no_fields))
               " a" ltac:(vm_compute; reflexivity)).
Defined.

(** C4 as stated fails: a record with only [id = " a"] has none of the
    listed fields, and its text blob is ["a"], not the [id] value. *)
Lemma build_text_id_not_returned_verbatim :
  (∀ k, k ∈ fields_in_order → truthy (dict_get doc_padded_id k) = false)
  ∧ doc_padded_id !! "id" = Some (VStr " a")
  ∧ build_text_for_embedding Sim.repr doc_padded_id = Ok "a"
  ∧ build_text_for_embedding Sim.repr doc_padded_id ≠ Ok " a".
Proof.
  split; [exact doc_padded_id_no_fields|].
  split; [vm_compute; reflexivity|].
  split; [vm_compute; reflexivity|].
  vm_compute. discriminate.
Qed.

(** ** What a computation adds to the trace

    The rules below follow the program text backwards from the
    postcondition of [emits]. *)

Section Emits.
Context {Ext : Type}.

Lemma emits_ret {A} (a : A) Q : Q (Ok a) [] → emits (ret a : M Ext A) Q.
Proof. intros H w. exists []. by rewrite app_nil_r. Qed.

Lemma emits_raise {A} (e : exn) (Q : result A → list event → Prop) :
  Q (Raise e) [] → emits (raise e : M Ext A) Q.
Proof. intros H w. exists []. by rewrite app_nil_r. Qed.

Lemma emits_lift {A} (r : result A) Q :
  Q r [] → emits (lift r : M Ext A) Q.
Proof. intros H w. exists []. by rewrite app_nil_r. Qed.

Lemma emits_print msg Q : Q (Ok tt) [] → emits (print msg : M Ext unit) Q.
Proof. intros H w. exists []. by rewrite app_nil_r. Qed.

Lemma emits_external {A} (op : Ext → result A * Ext) ev Q :
  (∀ r, Q r [ev r]) → emits (external op ev) Q.
Proof.
  intros H w. unfold external. destruct (op (ext w)) as [r x].
  exists [ev r]. split; [done | apply H].
Qed.

Lemma emits_observe {A} (op : Ext → A) ev Q :
  (∀ a, Q (Ok a) [ev a]) → emits (observe op ev) Q.
Proof. intros H w. exists [ev (op (ext w))]. split; [done | apply H]. Qed.

Lemma emits_bind {A B} (m : M Ext A) (f : A → M Ext B) Q :
  emits m (λ r new1,
    match r with
    | Raise e => Q (Raise e) new1
    | Ok a => emits (f a) (λ r2 new2, Q r2 (new1 ++ new2))
    end) →
  emits (bind m f) Q.
Proof.
  intros H w. destruct (H w) as (new1 & Ht & HQ). unfold bind.
  destruct (m w) as [[e|a] w1]; simpl in *.
  - by exists new1.
  - destruct (HQ w1) as (new2 & Ht2 & HQ2).
    exists (new1 ++ new2). split; [|done].
    by rewrite Ht2, Ht, app_assoc.
Qed.

Lemma emits_mbind {A B} (m : M Ext A) (f : A → M Ext B) Q :
  emits m (λ r new1,
    match r with
    | Raise e => Q (Raise e) new1
    | Ok a => emits (f a) (λ r2 new2, Q r2 (new1 ++ new2))
    end) →
  emits (m ≫= f) Q.
Proof. apply emits_bind. Qed.

Lemma emits_catch {A} (m : M Ext A) (h : exn → M Ext A) Q :
  emits m (λ r new1,
    match r with
    | Ok a => Q (Ok a) new1
    | Raise e => emits (h e) (λ r2 new2, Q r2 (new1 ++ new2))
    end) →
  emits (catch m h) Q.
Proof.
  intros H w. destruct (H w) as (new1 & Ht & HQ). unfold catch.
  destruct (m w) as [[e|a] w1]; simpl in *.
  - destruct (HQ w1) as (new2 & Ht2 & HQ2).
    exists (new1 ++ new2). split; [|done].
    by rewrite Ht2, Ht, app_assoc.
  - by exists new1.
Qed.

Lemma emits_conseq {A} (m : M Ext A) (Q' Q : result A → list event → Prop) :
  emits m Q' → (∀ r new, Q' r new → Q r new) → emits m Q.
Proof.
  intros H HQ w. destruct (H w) as (new & Ht & Hn). exists new. auto.
Qed.

Lemma emits_run {A} (m : M Ext A) Q w r w' :
  emits m Q → m w = (r, w') → ∃ new, trace w' = trace w ++ new ∧ Q r new.
Proof. intros H Hrun. specialize (H w). by rewrite Hrun in H. Qed.

End Emits.

Ltac emits_step :=
  lazymatch goal with
  | |- emits (_ ≫= _) _ => apply emits_mbind
  | |- emits (bind _ _) _ => apply emits_bind
  | |- emits (catch _ _) _ => apply emits_catch
  | |- emits (print _) _ => apply emits_print
  | |- emits (ret _) _ => apply emits_ret
  | |- emits (raise _) _ => apply emits_raise
  | |- emits (lift _) _ => apply emits_lift
  | |- emits (external _ _) _ => apply emits_external; intros [?|?]
  | |- emits (observe _ _) _ => apply emits_observe; intros ?
  end.

Tactic Notation "emits_call" "as" simple_intropattern(pat) :=
  apply emits_external; intros pat.
Tactic Notation "emits_read" "as" simple_intropattern(pat) :=
  apply emits_observe; intros pat.

(** ** The embedding clients *)

Lemma replace_char_get old new s i :
  String.get i (PyStr.replace_char old new s)
  = (λ c, if Ascii.eqb c old then new else c) <$> String.get i s.
Proof.
  revert i. induction s as [|c s IH]; intros i; simpl; [done|].
  destruct i; simpl; [done | apply IH].
Qed.

Lemma replace_char_gone old new s :
  new ≠ old → PyStr.has_char old (PyStr.replace_char old new s) = false.
Proof.
  intros Hne. induction s as [|c s IH]; simpl; [done|].
  rewrite IH, orb_false_r.
  destruct (Ascii.eqb c old) eqn:Hc; [|done].
  by apply Ascii.eqb_neq.
Qed.

Section ClientFacts.
Context {Ext : Type} (svc : services Ext) (cfg : config).

(** C1, as the code has it: the ingestion-side client sends a single
    space in place of the empty string and any other text unchanged; the
    retrieval-side client sends the text with every newline replaced by a
    space, character for character, and nothing else changed.  Each
    issues exactly one provider call. *)
Theorem embedding_clients_normalise
    (text : string) (model : option string) (w : world Ext) :
  (∃ r, trace (create_embedding svc cfg text w).2
        = trace w ++ [EvEmbed (EMBEDDING_MODEL cfg)
                              (if String.eqb text "" then " " else text) r])
  ∧ (∃ r, trace (get_embedding svc cfg text model w).2
          = trace w ++ [EvEmbed (default (EMBEDDING_MODEL cfg) model)
                                (PyStr.replace_char PyStr.LF " " text) r])
  ∧ (if String.eqb text "" then " " else text) ≠ ""
  ∧ PyStr.has_char PyStr.LF (PyStr.replace_char PyStr.LF " " text) = false
  ∧ ∀ i, String.get i (PyStr.replace_char PyStr.LF " " text)
         = (λ c, if Ascii.eqb c PyStr.LF then " "%char else c)
             <$> String.get i text.
Proof.
  split; [|split; [|split; [|split]]].
  - unfold create_embedding, mbind, M_bind, bind, external. simpl.
    rewrite negb_involutive.
    destruct (embeddings_create svc _ _ (ext w)) as [[e|data] x] eqn:Hc.
    + by eexists.
    + destruct data; by eexists.
  - unfold get_embedding, mbind, M_bind, bind, external. simpl.
    destruct (embeddings_create svc _ _ (ext w)) as [[e|data] x] eqn:Hc.
    + by eexists.
    + destruct data; by eexists.
  - destruct text; simpl; discriminate.
  - apply replace_char_gone. discriminate.
  - intros i. apply replace_char_get.
Qed.

End ClientFacts.

(** C1 as stated fails on both sides: the ingestion-side client sends a
    text with a newline as it is (and two spaces as two spaces), and the
    retrieval-side client sends the empty string as it is; none of the
    three is what the specification's client would send. *)
Lemma embedding_clients_differ :
  trace (create_embedding Sim.svc default_config two_lines
           (Sim.start sim_fresh)).2
  = [EvEmbed "text-embedding-3-small" two_lines (Ok [[1%float; 0%float]])]
  ∧ PyStr.has_char PyStr.LF two_lines = true
  ∧ two_lines ≠ spec_embed_input two_lines
  ∧ trace (create_embedding Sim.svc default_config "  "
             (Sim.start sim_fresh)).2
    = [EvEmbed "text-embedding-3-small" "  " (Ok [[1%float; 0%float]])]
  ∧ "  " ≠ spec_embed_input "  "
  ∧ trace (get_embedding Sim.svc default_config "" None
             (Sim.start sim_fresh)).2
    = [EvEmbed "text-embedding-3-small" "" (Ok [[1%float; 0%float]])]
  ∧ "" ≠ spec_embed_input "".
Proof. repeat split; vm_compute; (reflexivity || discriminate). Qed.

(** ** Collection admin *)

Section AdminFacts.
Context {Ext : Type} (svc : services Ext).

(** C6: without confirmation, [delete_collection] leaves the external
    state and the trace as they were (no store call at all, so every
    count is what it was) and prints the two lines that ask for
    confirmation; with confirmation it calls the store's
    [delete_collection] once, for that name, and reports the outcome. *)
Theorem delete_collection_gate (collection_name : string) (w : world Ext) :
  delete_collection svc collection_name false w
  = (Ok tt, World (ext w) (trace w)
                  (stdout w ++ [MsgConfirmRequired collection_name;
                                MsgConfirmExample collection_name]))
  ∧ (∀ name,
       collection_count svc name
         (ext (delete_collection svc collection_name false w).2)
       = collection_count svc name (ext w))
  ∧ (let r := delete_collection_by_name svc collection_name (ext w) in
     delete_collection svc collection_name true w
     = (Ok tt,
        World r.2
              (trace w ++ [EvDeleteCollection collection_name r.1])
              (stdout w ++ [match r.1 with
                            | Ok _ => MsgDeleted collection_name
                            | Raise e => MsgDeleteError (exn_str e)
                            end]))).
Proof.
  split; [|split].
  - unfold delete_collection, mbind, M_bind, bind, print. simpl.
    by rewrite <- app_assoc.
  - intros name. reflexivity.
  - unfold delete_collection, catch, mbind, M_bind, bind, external, print.
    simpl.
    by destruct (delete_collection_by_name svc collection_name (ext w))
      as [[e|[]] x].
Qed.

End AdminFacts.

Example delete_unconfirmed_keeps_items :
  collection_count Sim.svc "medical-vectors"
    (ext (delete_collection Sim.svc "medical-vectors" false
            (Sim.start sim_two_items)).2)
  = (Ok 2, sim_two_items).
Proof. vm_compute. reflexivity. Qed.

Example delete_confirmed_removes :
  get_collection Sim.svc "medical-vectors"
    (ext (delete_collection Sim.svc "medical-vectors" true
            (Sim.start sim_two_items)).2)
  = (Raise (Sim.missing "medical-vectors"),
     Sim.with_collections sim_two_items ∅).
Proof. vm_compute. reflexivity. Qed.

(** ** Retrieval *)

Lemma append_cons c s t : String c s +:+ t = String c (s +:+ t).
Proof. reflexivity. Qed.

Lemma prefix_app n s : PyStr.prefix n (n +:+ s) = true.
Proof.
  induction n as [|c n IH]; [by destruct s|].
  rewrite append_cons. simpl. by rewrite Ascii.eqb_refl.
Qed.

Lemma prefix_app_l n s t :
  PyStr.prefix n s = true → PyStr.prefix n (s +:+ t) = true.
Proof.
  revert s. induction n as [|c n IH]; intros s H; [by destruct (s +:+ t)|].
  destruct s as [|a s]; [discriminate|]. rewrite append_cons. simpl in *.
  apply andb_true_iff in H as [-> H]. by apply IH.
Qed.

Lemma contains_prefix n s : PyStr.prefix n s = true → PyStr.contains n s = true.
Proof. intros H. destruct s; simpl; by rewrite H. Qed.

Lemma contains_app_r n a s :
  PyStr.contains n s = true → PyStr.contains n (a +:+ s) = true.
Proof.
  intros H. induction a as [|c a IH]; [done|].
  rewrite append_cons. simpl. rewrite IH. apply orb_true_r.
Qed.

Lemma contains_app_l n s t :
  PyStr.contains n s = true → PyStr.contains n (s +:+ t) = true.
Proof.
  induction s as [|c s IH]; intros H.
  - simpl in H. rewrite orb_false_r in H.
    apply contains_prefix. by apply (prefix_app_l n "" t).
  - rewrite append_cons. simpl in *.
    apply orb_true_iff in H as [H|H]; apply orb_true_iff.
    + left. by apply (prefix_app_l n (String c s) t).
    + right. by apply IH.
Qed.

Lemma contains_middle n a b : PyStr.contains n (a +:+ n +:+ b) = true.
Proof. apply contains_app_r, contains_prefix, prefix_app. Qed.

Section RetrievalFacts.
Context {Ext : Type} (svc : services Ext) (cfg : config).

Lemma not_found_names_collection e :
  PyStr.contains (CHROMA_COLLECTION_NAME cfg) (collection_not_found_msg cfg e)
  = true.
Proof. apply contains_middle. Qed.

Lemma not_found_advises_ingestion e :
  PyStr.contains "Please run vector_store.py first"
                 (collection_not_found_msg cfg e) = true.
Proof.
  unfold collection_not_found_msg.
  apply contains_app_r, contains_app_r, contains_app_l.
  vm_compute. reflexivity.
Qed.

(** C3, as the code has it: once the store directory is found, the query
    is embedded and the store client is open, a failing collection lookup
    makes retrieval raise [ValueError] with a message that names the
    collection and says to run vector_store.py first; the store is left
    as the lookup left it and no query is recorded. *)
Theorem retrieve_missing_collection
    (query : string) (top_k : Z) (w : world Ext)
    (emb : embedding) (data : list embedding) (x1 x2 x3 : Ext) (e : exn) :
  path_exists svc (CHROMA_DB_PATH cfg) (ext w) = true →
  embeddings_create svc (EMBEDDING_MODEL cfg)
    (PyStr.replace_char PyStr.LF " " query) (ext w) = (Ok (emb :: data), x1) →
  persistent_client svc (CHROMA_DB_PATH cfg) x1 = (Ok tt, x2) →
  get_collection svc (CHROMA_COLLECTION_NAME cfg) x2 = (Raise e, x3) →
  ∃ w',
    retrieve_similar_chunks svc cfg query top_k w
    = (Raise (Exn ValueError (collection_not_found_msg cfg e)), w')
    ∧ PyStr.contains (CHROMA_COLLECTION_NAME cfg)
                     (collection_not_found_msg cfg e) = true
    ∧ PyStr.contains "Please run vector_store.py first"
                     (collection_not_found_msg cfg e) = true
    ∧ ext w' = x3
    ∧ filter is_query (trace w') = filter is_query (trace w).
Proof.
  intros Hpath Hemb Hclient Hget.
  unfold retrieve_similar_chunks, get_embedding, first_embedding.
  unfold mbind, M_bind, bind, catch, observe, external, raise, ret. simpl.
  rewrite Hpath. simpl. rewrite Hemb. simpl. rewrite Hclient. simpl.
  rewrite Hget. simpl.
  eexists. split; [reflexivity|].
  split; [apply not_found_names_collection|].
  split; [apply not_found_advises_ingestion|].
  split; [reflexivity|]. simpl.
  rewrite !filter_app. simpl. by rewrite !app_nil_r.
Qed.

End RetrievalFacts.

Lemma retrieve_missing_collection_witness :
  ∃ w',
    retrieve_similar_chunks Sim.svc default_config "fever" 3
      (Sim.start sim_fresh)
    = (Raise (Exn ValueError
         (collection_not_found_msg default_config
            (Sim.missing "medical-vectors"))), w')
    ∧ PyStr.contains "medical-vectors"
        (collection_not_found_msg default_config
           (Sim.missing "medical-vectors")) = true
    ∧ PyStr.contains "Please run vector_store.py first"
        (collection_not_found_msg default_config
           (Sim.missing "medical-vectors")) = true
    ∧ ext w' = sim_fresh
    ∧ filter is_query (trace w') = filter is_query [].
Proof.
  apply (retrieve_missing_collection Sim.svc default_config "fever" 3
           (Sim.start sim_fresh) [1%float; 0%float] [] sim_fresh sim_fresh
           sim_fresh (Sim.missing "medical-vectors"));
    vm_compute; reflexivity.
Defined.

(** C3 as stated fails: with the collection missing and the provider
    unreachable, retrieval raises the provider's error, whose message
    does not name the collection; with the store directory missing, the
    [ValueError] names the directory, not the collection. *)
Lemma retrieve_missing_collection_other_errors :
  (get_collection Sim.svc "medical-vectors" sim_offline).1
  = Raise (Sim.missing "medical-vectors")
  ∧ (retrieve_similar_chunks Sim.svc default_config "fever" 3
       (Sim.start sim_offline)).1
    = Raise (Exn ProviderError "Connection error.")
  ∧ PyStr.contains "medical-vectors" "Connection error." = false
  ∧ (get_collection Sim.svc "medical-vectors" sim_no_store).1
    = Raise (Sim.missing "medical-vectors")
  ∧ (retrieve_similar_chunks Sim.svc default_config "fever" 3
       (Sim.start sim_no_store)).1
    = Raise (Exn ValueError (path_not_found_msg default_config))
  ∧ PyStr.contains "medical-vectors" (path_not_found_msg default_config)
    = false.
Proof. repeat split; vm_compute; reflexivity. Qed.

(** ** Subtraction from one reverses the order of binary64 numbers *)

Section FloatOrder.
Local Open Scope Z_scope.

Lemma fexp_eq e : SpecFloat.fexp prec emax e = Z.max (e - 53) (-1074).
Proof. reflexivity. Qed.

Lemma digits2_pos_bounds p :
  2 ^ (Z.pos (digits2_pos p) - 1) ≤ Z.pos p < 2 ^ Z.pos (digits2_pos p).
Proof.
  induction p as [p IH|p IH|]; cbn [digits2_pos]; [| |done].
  - rewrite Pos2Z.inj_succ. change (Z.pos p~1) with (2 * Z.pos p + 1).
    replace (Z.succ (Z.pos (digits2_pos p)) - 1)
      with (Z.succ (Z.pos (digits2_pos p) - 1)) by lia.
    rewrite !Z.pow_succ_r by lia.
    revert IH. generalize (2 ^ (Z.pos (digits2_pos p) - 1)).
    generalize (2 ^ Z.pos (digits2_pos p)). lia.
  - rewrite Pos2Z.inj_succ. change (Z.pos p~0) with (2 * Z.pos p).
    replace (Z.succ (Z.pos (digits2_pos p)) - 1)
      with (Z.succ (Z.pos (digits2_pos p) - 1)) by lia.
    rewrite !Z.pow_succ_r by lia.
    revert IH. generalize (2 ^ (Z.pos (digits2_pos p) - 1)).
    generalize (2 ^ Z.pos (digits2_pos p)). lia.
Qed.

Lemma digits2_pos_log2 p : Z.pos (digits2_pos p) = Z.log2 (Z.pos p) + 1.
Proof.
  pose proof (digits2_pos_bounds p) as H.
  symmetry. apply Z.add_move_r. apply Z.log2_unique; [lia|].
  by replace (Z.succ (Z.pos (digits2_pos p) - 1))
    with (Z.pos (digits2_pos p)) by lia.
Qed.

Lemma iter_pos_nat {A} (f : A → A) p x :
  @SpecFloat.iter_pos A f p x = Nat.iter (Pos.to_nat p) f x.
Proof.
  revert x. induction p as [p IH|p IH|]; intros x; cbn [SpecFloat.iter_pos]; [| |done].
  - rewrite !IH, Pos2Nat.inj_xI.
    replace (S (2 * Pos.to_nat p))
      with (Pos.to_nat p + (Pos.to_nat p + 1))%nat by lia.
    by rewrite !Nat.iter_add.
  - rewrite !IH, Pos2Nat.inj_xO.
    replace (2 * Pos.to_nat p)%nat
      with (Pos.to_nat p + Pos.to_nat p)%nat by lia.
    by rewrite Nat.iter_add.
Qed.

Lemma pos_iter_xO p d : Z.pos (Pos.iter xO p d) = Z.pos p * 2 ^ Z.pos d.
Proof.
  induction d as [|d IH] using Pos.peano_ind.
  - cbn [Pos.iter]. rewrite Z.pow_1_r. lia.
  - rewrite Pos.iter_succ, Pos2Z.inj_succ, Z.pow_succ_r by lia.
    change (Z.pos (Pos.iter xO p d)~0) with (2 * Z.pos (Pos.iter xO p d)).
    rewrite IH. lia.
Qed.

Lemma shr_1_nonneg m r s :
  0 ≤ m →
  shr_1 (Build_shr_record m r s) = Build_shr_record (m / 2) (Z.odd m) (r || s).
Proof.
  intros Hm. rewrite <- Z.div2_div.
  destruct m as [|[p|p|]|]; try done; lia.
Qed.

Lemma mod_pow2_succ m k :
  0 ≤ k →
  m mod 2 ^ (k + 1) = m mod 2 ^ k + 2 ^ k * Z.b2z (Z.testbit m k).
Proof.
  intros Hk. rewrite Z.testbit_spec' by done.
  rewrite Z.pow_add_r, Z.pow_1_r by lia.
  apply Z.rem_mul_r; [|lia]. apply Z.pow_nonzero; lia.
Qed.

Lemma iter_shr_1 (k : nat) m :
  0 ≤ m →
  Nat.iter (S k) shr_1 (Build_shr_record m false false)
  = Build_shr_record (m / 2 ^ (Z.of_nat k + 1)) (Z.testbit m (Z.of_nat k))
                     (negb (m mod 2 ^ Z.of_nat k =? 0)).
Proof.
  intros Hm. induction k as [|k IH].
  - cbn [Nat.iter]. rewrite shr_1_nonneg by done.
    change (Z.of_nat 0) with 0.
    by rewrite Z.add_0_l, Z.pow_1_r, Z.pow_0_r, Z.bit0_odd, Z.mod_1_r.
  - rewrite Nat.iter_succ, IH. clear IH.
    rewrite shr_1_nonneg by (apply Z.div_pos; lia).
    rewrite Nat2Z.inj_succ. f_equal.
    + rewrite Z.div_div by lia. f_equal.
      replace (Z.succ (Z.of_nat k) + 1) with (Z.succ (Z.of_nat k + 1)) by lia.
      rewrite Z.pow_succ_r by lia. lia.
    + rewrite Z.testbit_odd, Z.shiftr_div_pow2 by lia.
      by replace (Z.succ (Z.of_nat k)) with (Z.of_nat k + 1) by lia.
    + replace (Z.succ (Z.of_nat k)) with (Z.of_nat k + 1) by lia.
      rewrite mod_pow2_succ by lia.
      pose proof (Z.mod_pos_bound m (2 ^ Z.of_nat k) ltac:(lia)).
      assert (0 < 2 ^ Z.of_nat k) by lia.
      destruct (Z.testbit m (Z.of_nat k)); simpl.
      * symmetry. apply negb_true_iff, Z.eqb_neq. lia.
      * by rewrite Z.mul_0_r, Z.add_0_r.
Qed.

Lemma shr_exact m e j :
  0 ≤ m →
  shr (Build_shr_record m false false) e j
  = if 0 <? j
    then (Build_shr_record (m / 2 ^ j) (Z.testbit m (j - 1))
                           (negb (m mod 2 ^ (j - 1) =? 0)), e + j)
    else (Build_shr_record m false false, e).
Proof.
  intros Hm. destruct j as [|j|j]; [done| |done].
  cbn [shr Z.ltb Z.compare]. f_equal.
  rewrite iter_pos_nat.
  destruct (Pos.to_nat j) as [|k] eqn:Hk; [lia|].
  rewrite iter_shr_1 by done.
  replace (Z.of_nat k + 1) with (Z.pos j) by lia.
  by replace (Z.of_nat k) with (Z.pos j - 1) by lia.
Qed.

Lemma shr_fexp_exact p e :
  shr_fexp prec emax (Z.pos p) e loc_Exact
  = shr (Build_shr_record (Z.pos p) false false) e
        (Z.max (Z.log2 (Z.pos p) + 1 + e - 53) (-1074) - e).
Proof.
  unfold shr_fexp. cbn [shr_record_of_loc Zdigits2].
  by rewrite fexp_eq, digits2_pos_log2.
Qed.

Lemma round_nearest_even_spec q r s :
  round_nearest_even q (loc_of_shr_record (Build_shr_record q r s))
  = if r && (s || Z.odd q) then q + 1 else q.
Proof.
  rewrite <- Z.negb_even.
  destruct r, s; cbn [loc_of_shr_record round_nearest_even andb orb];
    try done.
  by destruct (Z.even q).
Qed.

Lemma scaled_quotient p j k :
  0 ≤ j → 0 ≤ k → (p * 2 ^ k) / 2 ^ (j + k) = p / 2 ^ j.
Proof.
  intros Hj Hk. rewrite Z.pow_add_r by done.
  apply Z.div_mul_cancel_r; apply Z.pow_nonzero; lia.
Qed.

Lemma scaled_round_bit p j k :
  0 ≤ k → Z.testbit (p * 2 ^ k) (j + k - 1) = Z.testbit p (j - 1).
Proof.
  intros Hk. rewrite Z.mul_pow2_bits by done. f_equal. lia.
Qed.

Lemma scaled_sticky p j k :
  0 < j → 0 ≤ k →
  ((p * 2 ^ k) mod 2 ^ (j + k - 1) =? 0) = (p mod 2 ^ (j - 1) =? 0).
Proof.
  intros Hj Hk.
  replace (j + k - 1) with ((j - 1) + k) by lia.
  rewrite Z.pow_add_r by lia.
  assert (0 < 2 ^ k) by (apply Z.pow_pos_nonneg; lia).
  assert (0 < 2 ^ (j - 1)) by (apply Z.pow_pos_nonneg; lia).
  rewrite Z.mul_mod_distr_r by lia.
  destruct (Z.eqb_spec (p mod 2 ^ (j - 1)) 0) as [->|Hne]; [done|].
  apply Z.eqb_neq. nia.
Qed.

Lemma kept_bits_bounds p j :
  0 < p → 0 ≤ j → Z.log2 p = 52 + j →
  2 ^ 52 ≤ p / 2 ^ j < 2 ^ 53.
Proof.
  intros Hp Hj HL.
  pose proof (Z.log2_spec p Hp) as Hb. rewrite HL in Hb.
  replace (Z.succ (52 + j)) with (53 + j) in Hb by lia.
  rewrite !Z.pow_add_r in Hb by lia.
  assert (0 < 2 ^ j) by (apply Z.pow_pos_nonneg; lia).
  split.
  - apply Z.div_le_lower_bound; lia.
  - apply Z.div_lt_upper_bound; lia.
Qed.

Lemma round_aux_spec s p e :
  -1074 ≤ e →
  e ≤ Z.max (Z.log2 (Z.pos p) + 1 + e - 53) (-1074) →
  binary_round_aux prec emax s (Z.pos p) e loc_Exact
  = rnd_pos s (Z.pos p * 2 ^ (e + 1074)).
Proof.
  intros He Hc.
  pose proof (Z.log2_nonneg (Z.pos p)) as HL0.
  pose proof (Z.log2_spec (Z.pos p) ltac:(lia)) as HL.
  assert (Z.log2 (Z.pos p * 2 ^ (e + 1074))
          = Z.log2 (Z.pos p) + (e + 1074)) as HlogN.
  { rewrite Z.log2_mul_pow2 by lia. lia. }
  assert (rnd_shift (Z.pos p * 2 ^ (e + 1074))
          = Z.max (Z.log2 (Z.pos p) + 1 + e - 53) (-1074) - e + (e + 1074))
    as Hshift.
  { unfold rnd_shift. rewrite HlogN. lia. }
  unfold binary_round_aux. rewrite shr_fexp_exact, shr_exact by lia.
  remember (Z.max (Z.log2 (Z.pos p) + 1 + e - 53) (-1074) - e) as j eqn:Hj.
  destruct (Z.ltb_spec 0 j) as [Hpos|Hzero].
  - assert (Z.log2 (Z.pos p) = 52 + j) as HLj by lia.
    pose proof (kept_bits_bounds (Z.pos p) j ltac:(lia) ltac:(lia) HLj) as Hq.
    cbn [shr_m]. rewrite round_nearest_even_spec.
    assert (rnd_mantissa (Z.pos p * 2 ^ (e + 1074))
            = if Z.testbit (Z.pos p) (j - 1)
                 && (negb (Z.pos p mod 2 ^ (j - 1) =? 0)
                     || Z.odd (Z.pos p / 2 ^ j))
              then Z.pos p / 2 ^ j + 1 else Z.pos p / 2 ^ j) as Hm.
    { unfold rnd_mantissa. rewrite Hshift.
      rewrite scaled_quotient, scaled_round_bit, scaled_sticky by lia.
      done. }
    unfold rnd_pos. rewrite Hm, Hshift. clear Hm.
    remember (if Z.testbit (Z.pos p) (j - 1)
                 && (negb (Z.pos p mod 2 ^ (j - 1) =? 0)
                     || Z.odd (Z.pos p / 2 ^ j))
              then Z.pos p / 2 ^ j + 1 else Z.pos p / 2 ^ j) as m1 eqn:Hm1.
    assert (2 ^ 52 ≤ m1 ≤ 2 ^ 53) as Hm1b.
    { rewrite Hm1. destruct (_ && _); lia. }
    clear Hm1.
    destruct m1 as [|pm|pm]; [lia| |lia].
    rewrite shr_fexp_exact, shr_exact by lia.
    destruct (Z.eqb_spec (Z.pos pm) (2 ^ 53)) as [Heq|Hne].
    + rewrite Heq.
      replace (Z.max (Z.log2 (2 ^ 53) + 1 + (e + j) - 53) (-1074) - (e + j))
        with 1 by (rewrite Z.log2_pow2 by lia; lia).
      cbn [Z.ltb Z.compare shr_m].
      change (2 ^ 53 / 2 ^ 1) with (2 ^ 52).
      unfold sf_pack. change (emax - prec) with 971.
      replace (j + (e + 1074) + 1 - 1074) with (e + j + 1) by lia.
      done.
    + assert (Z.log2 (Z.pos pm) = 52) as Hl52.
      { apply Z.log2_unique; [lia|]. change (Z.succ 52) with 53. lia. }
      rewrite Hl52.
      replace (Z.max (52 + 1 + (e + j) - 53) (-1074) - (e + j))
        with 0 by lia.
      cbn [Z.ltb Z.compare shr_m].
      unfold sf_pack. change (emax - prec) with 971.
      replace (j + (e + 1074) - 1074) with (e + j) by lia.
      done.
  - assert (j = 0) as -> by lia.
    assert (Z.log2 (Z.pos p) + 1 ≤ 53) as HD by lia.
    cbn [shr_m loc_of_shr_record round_nearest_even].
    rewrite shr_fexp_exact, shr_exact by lia.
    rewrite <- Hj. cbn [Z.ltb Z.compare shr_m].
    assert (rnd_mantissa (Z.pos p * 2 ^ (e + 1074)) = Z.pos p) as Hm.
    { unfold rnd_mantissa. rewrite Hshift, Z.add_0_l.
      rewrite Z.div_mul by (apply Z.pow_nonzero; lia).
      rewrite Z.mul_pow2_bits_low by lia. done. }
    unfold rnd_pos. rewrite Hm, Hshift.
    assert (Z.pos p < 2 ^ 53) as Hlt.
    { eapply Z.lt_le_trans; [apply HL|].
      apply Z.pow_le_mono_r; lia. }
    destruct (Z.eqb_spec (Z.pos p) (2 ^ 53)) as [Heq|_]; [lia|].
    unfold sf_pack. change (emax - prec) with 971.
    replace (0 + (e + 1074) - 1074) with e by lia.
    done.
Qed.

Lemma pow2_add a b : 0 ≤ a → 0 ≤ b → 2 ^ a * 2 ^ b = 2 ^ (a + b).
Proof. intros. by rewrite Z.pow_add_r. Qed.

Lemma binary_round_spec s p e :
  -1074 ≤ e →
  binary_round prec emax s p e = rnd_pos s (Z.pos p * 2 ^ (e + 1074)).
Proof.
  intros He. unfold binary_round, shl_align.
  rewrite fexp_eq, digits2_pos_log2.
  pose proof (Z.log2_nonneg (Z.pos p)) as HL0.
  destruct (Z.max (Z.log2 (Z.pos p) + 1 + e - 53) (-1074) - e)
    as [|d|d] eqn:Hd.
  - apply round_aux_spec; lia.
  - apply round_aux_spec; lia.
  - pose proof (Pos2Z.opp_pos d) as Hneg.
    rewrite round_aux_spec.
    + rewrite pos_iter_xO, <- Z.mul_assoc, pow2_add by lia.
      do 3 f_equal. lia.
    + lia.
    + rewrite pos_iter_xO, Z.log2_mul_pow2 by lia. lia.
Qed.

Lemma binary_normalize_spec M e :
  -1074 ≤ e →
  binary_normalize prec emax M e false = rnd (M * 2 ^ (e + 1074)).
Proof.
  intros He.
  assert (0 < 2 ^ (e + 1074)) as Hpow by (apply Z.pow_pos_nonneg; lia).
  destruct M as [|p|p]; cbn [binary_normalize].
  - done.
  - rewrite binary_round_spec by done.
    destruct (Z.pos p * 2 ^ (e + 1074)) as [|q|q] eqn:Hq; [lia|done|lia].
  - rewrite binary_round_spec by done.
    destruct (Z.neg p * 2 ^ (e + 1074)) as [|q|q] eqn:Hq; [lia|lia|].
    cbn [rnd]. f_equal. lia.
Qed.

(** *** Rounding keeps the order *)

Lemma rnd_shift_mono N1 N2 : 0 < N1 ≤ N2 → rnd_shift N1 ≤ rnd_shift N2.
Proof.
  intros H. unfold rnd_shift.
  pose proof (Z.log2_le_mono N1 N2 ltac:(lia)). lia.
Qed.

Lemma rnd_mantissa_small N :
  0 < N → rnd_shift N = 0 → rnd_mantissa N = N ∧ N < 2 ^ 53.
Proof.
  intros HN Hn. unfold rnd_mantissa. rewrite Hn.
  rewrite Z.testbit_neg_r by lia. cbn [andb].
  rewrite Z.pow_0_r, Z.div_1_r. split; [done|].
  unfold rnd_shift in Hn.
  pose proof (Z.log2_spec N HN) as [_ Hlt].
  eapply Z.lt_le_trans; [exact Hlt|]. apply Z.pow_le_mono_r; lia.
Qed.

Lemma rnd_quotient_bounds N :
  0 < N → 0 < rnd_shift N → 2 ^ 52 ≤ N / 2 ^ rnd_shift N < 2 ^ 53.
Proof.
  intros HN Hn. apply kept_bits_bounds; [done|lia|].
  unfold rnd_shift in *. lia.
Qed.

Lemma rnd_mantissa_bounds N :
  0 < N →
  1 ≤ rnd_mantissa N ≤ 2 ^ 53
  ∧ (0 < rnd_shift N → 2 ^ 52 ≤ rnd_mantissa N).
Proof.
  intros HN.
  assert (0 ≤ rnd_shift N) as H0 by (unfold rnd_shift; lia).
  destruct (Z.eq_dec (rnd_shift N) 0) as [Hz|Hnz].
  - destruct (rnd_mantissa_small N HN Hz) as [-> Hlt]. lia.
  - pose proof (rnd_quotient_bounds N HN ltac:(lia)) as Hq.
    unfold rnd_mantissa. destruct (_ && _); lia.
Qed.

Lemma rnd_mantissa_mono N1 N2 :
  0 < N1 ≤ N2 → rnd_shift N1 = rnd_shift N2 →
  rnd_mantissa N1 ≤ rnd_mantissa N2.
Proof.
  intros [HN1 Hle] Hn.
  assert (0 ≤ rnd_shift N1) as H0 by (unfold rnd_shift; lia).
  destruct (Z.eq_dec (rnd_shift N1) 0) as [Hz|Hnz].
  { destruct (rnd_mantissa_small N1 HN1 Hz) as [-> _].
    destruct (rnd_mantissa_small N2 ltac:(lia) ltac:(lia)) as [-> _]. done. }
  unfold rnd_mantissa. rewrite <- Hn.
  remember (rnd_shift N1) as n eqn:En. clear En Hn.
  pose proof (mod_pow2_succ N1 (n - 1) ltac:(lia)) as Hr1.
  pose proof (mod_pow2_succ N2 (n - 1) ltac:(lia)) as Hr2.
  replace (n - 1 + 1) with n in Hr1, Hr2 by lia.
  assert (0 < 2 ^ (n - 1)) as HP by (apply Z.pow_pos_nonneg; lia).
  assert (2 ^ n = 2 * 2 ^ (n - 1)) as Hn2.
  { rewrite <- Z.pow_succ_r by lia. f_equal. lia. }
  pose proof (Z.div_mod N1 (2 ^ n) ltac:(lia)) as Hd1.
  pose proof (Z.div_mod N2 (2 ^ n) ltac:(lia)) as Hd2.
  pose proof (Z.mod_pos_bound N1 (2 ^ (n - 1)) HP) as Hl1.
  pose proof (Z.mod_pos_bound N2 (2 ^ (n - 1)) HP) as Hl2.
  pose proof (Z.div_le_mono N1 N2 (2 ^ n) ltac:(lia) Hle) as Hq.
  destruct (Z.eq_dec (N1 / 2 ^ n) (N2 / 2 ^ n)) as [Heq|Hne].
  2: { destruct (_ && _), (_ && _); lia. }
  rewrite <- Heq in *.
  assert (N1 mod 2 ^ n ≤ N2 mod 2 ^ n) as Hrem by lia.
  rewrite Hr1, Hr2 in Hrem.
  destruct (Z.odd (N1 / 2 ^ n));
    destruct (Z.testbit N1 (n - 1)), (Z.testbit N2 (n - 1));
    destruct (Z.eqb_spec (N1 mod 2 ^ (n - 1)) 0),
             (Z.eqb_spec (N2 mod 2 ^ (n - 1)) 0);
    cbn [negb andb orb Z.b2z] in *; lia.
Qed.

Lemma sf_pack_le M1 E1 M2 E2 :
  0 < M1 → 0 < M2 → E1 < E2 ∨ (E1 = E2 ∧ M1 ≤ M2) →
  SFleb (sf_pack false M1 E1) (sf_pack false M2 E2) = true
  ∧ SFleb (sf_pack true M2 E2) (sf_pack true M1 E1) = true.
Proof.
  intros H1 H2 Hlex. unfold sf_pack.
  destruct (Z.leb_spec E1 971), (Z.leb_spec E2 971);
    unfold SFleb; cbn [SFcompare]; try done; try lia.
  destruct Hlex as [Hlt|[-> Hm]].
  - rewrite (proj2 (Z.compare_lt_iff E1 E2) Hlt).
    by rewrite (proj2 (Z.compare_gt_iff E2 E1) Hlt).
  - rewrite Z.compare_refl.
    change (Pos.compare_cont Eq) with Pos.compare.
    assert (Z.to_pos M1 ≤ Z.to_pos M2)%positive as Hp by lia.
    apply Pos.compare_le_iff in Hp as Hc.
    apply Pos.compare_ge_iff in Hp as Hc'.
    destruct (Z.to_pos M1 ?= Z.to_pos M2)%positive,
             (Z.to_pos M2 ?= Z.to_pos M1)%positive; done.
Qed.

Lemma rnd_pos_mono N1 N2 :
  0 < N1 ≤ N2 →
  SFleb (rnd_pos false N1) (rnd_pos false N2) = true
  ∧ SFleb (rnd_pos true N2) (rnd_pos true N1) = true.
Proof.
  intros HN.
  pose proof (rnd_shift_mono N1 N2 HN) as Hn.
  pose proof (rnd_mantissa_bounds N1 ltac:(lia)) as [Hb1 Hn1].
  pose proof (rnd_mantissa_bounds N2 ltac:(lia)) as [Hb2 Hn2].
  assert (rnd_shift N1 = rnd_shift N2 →
          rnd_mantissa N1 ≤ rnd_mantissa N2) as Hm
    by (apply rnd_mantissa_mono; lia).
  assert (0 ≤ rnd_shift N1) as H0 by (unfold rnd_shift; lia).
  unfold rnd_pos.
  change (2 ^ 53) with 9007199254740992 in *.
  change (2 ^ 52) with 4503599627370496 in *.
  destruct (Z.eqb_spec (rnd_mantissa N1) 9007199254740992),
           (Z.eqb_spec (rnd_mantissa N2) 9007199254740992);
    apply sf_pack_le; lia.
Qed.

Lemma rnd_pos_shape s N :
  (∃ m e, rnd_pos s N = S754_finite s m e) ∨ rnd_pos s N = S754_infinity s.
Proof.
  unfold rnd_pos, sf_pack.
  destruct (rnd_mantissa N =? 2 ^ 53);
    [destruct (rnd_shift N + 1 - 1074 <=? 971)
    |destruct (rnd_shift N - 1074 <=? 971)]; eauto.
Qed.

Lemma rnd_shape N :
  rnd N = S754_zero false
  ∨ (∃ s m e, rnd N = S754_finite s m e) ∨ (∃ s, rnd N = S754_infinity s).
Proof.
  destruct N as [|p|p]; cbn [rnd]; [by left| |].
  - destruct (rnd_pos_shape false (Z.pos p)) as [(m & e & ->)| ->];
      [right; left; by eexists _, _, _ | right; right; by eexists].
  - destruct (rnd_pos_shape true (Z.pos p)) as [(m & e & ->)| ->];
      [right; left; by eexists _, _, _ | right; right; by eexists].
Qed.

Lemma rnd_mono N1 N2 : N1 ≤ N2 → SFleb (rnd N1) (rnd N2) = true.
Proof.
  intros Hle.
  destruct N1 as [|p1|p1], N2 as [|p2|p2]; try lia; cbn [rnd]; try done.
  - by destruct (rnd_pos_shape false (Z.pos p2)) as [(m & e & ->)| ->].
  - by apply rnd_pos_mono.
  - by destruct (rnd_pos_shape true (Z.pos p1)) as [(m & e & ->)| ->].
  - by destruct (rnd_pos_shape true (Z.pos p1)) as [(m & e & ->)| ->],
         (rnd_pos_shape false (Z.pos p2)) as [(m' & e' & ->)| ->].
  - apply rnd_pos_mono. lia.
Qed.

(** *** Valid numbers and their values *)

Lemma valid_finite s m e :
  valid_binary (S754_finite s m e) = true →
  -1074 ≤ e ∧ Z.log2 (Z.pos m) ≤ 52 ∧ (-1074 < e → Z.log2 (Z.pos m) = 52).
Proof.
  cbn [valid_binary]. unfold bounded, canonical_mantissa.
  rewrite fexp_eq, digits2_pos_log2.
  intros [Hc _]%andb_true_iff. apply Z.eqb_eq in Hc. lia.
Qed.

Lemma units_le_pos m1 e1 m2 e2 :
  valid_binary (S754_finite false m1 e1) = true →
  valid_binary (S754_finite false m2 e2) = true →
  e1 < e2 ∨ (e1 = e2 ∧ (m1 ≤ m2)%positive) →
  Z.pos m1 * 2 ^ (e1 + 1074) ≤ Z.pos m2 * 2 ^ (e2 + 1074).
Proof.
  intros (He1 & Hl1 & _)%valid_finite (He2 & _ & Hl2)%valid_finite Hlex.
  destruct Hlex as [Hlt|[-> Hm]].
  - pose proof (Z.log2_spec (Z.pos m1) ltac:(lia)) as [_ Hu].
    pose proof (Z.log2_spec (Z.pos m2) ltac:(lia)) as [Hd _].
    rewrite Hl2 in Hd by lia.
    assert (Z.pos m1 < 2 ^ 53) as Hm1.
    { eapply Z.lt_le_trans; [exact Hu|]. apply Z.pow_le_mono_r; lia. }
    assert (2 * 2 ^ (e1 + 1074) ≤ 2 ^ (e2 + 1074)) as Hpow.
    { rewrite <- Z.pow_succ_r by lia. apply Z.pow_le_mono_r; lia. }
    assert (0 < 2 ^ (e1 + 1074)) by (apply Z.pow_pos_nonneg; lia).
    change (2 ^ 53) with 9007199254740992 in *.
    change (2 ^ 52) with 4503599627370496 in *.
    nia.
  - apply Z.mul_le_mono_nonneg_r; [|lia].
    apply Z.pow_nonneg. lia.
Qed.

Lemma units_le x y :
  valid_binary x = true → valid_binary y = true →
  (∀ s, x ≠ S754_infinity s) → (∀ s, y ≠ S754_infinity s) →
  SFleb x y = true → sf_units x ≤ sf_units y.
Proof.
  intros Hx Hy Hxi Hyi. unfold SFleb.
  destruct x as [sx|sx| |sx mx ex], y as [sy|sy| |sy my ey];
    cbn [SFcompare sf_units]; try done;
    try (by destruct (Hxi sx)); try (by destruct (Hyi sy)).
  - assert (0 < 2 ^ (ey + 1074))
      by (apply Z.pow_pos_nonneg; apply valid_finite in Hy; lia).
    destruct sy; [done|]. lia.
  - assert (0 < 2 ^ (ex + 1074))
      by (apply Z.pow_pos_nonneg; apply valid_finite in Hx; lia).
    destruct sx; [|done]. lia.
  - assert (0 < 2 ^ (ex + 1074))
      by (apply Z.pow_pos_nonneg; apply valid_finite in Hx; lia).
    assert (0 < 2 ^ (ey + 1074))
      by (apply Z.pow_pos_nonneg; apply valid_finite in Hy; lia).
    change (Pos.compare_cont Eq) with Pos.compare.
    destruct sx, sy; try done.
    + intros Hc.
      assert (ey < ex ∨ (ey = ex ∧ (my ≤ mx)%positive)) as Hlex.
      { revert Hc. destruct (Z.compare_spec ex ey) as [->|?|?]; intros Hc;
          [|done|lia].
        right. split; [done|].
        apply Pos.compare_ge_iff. intros Hlt. by rewrite Hlt in Hc. }
      pose proof (units_le_pos my ey mx ex Hy Hx Hlex). lia.
    + lia.
    + intros Hc.
      assert (ex < ey ∨ (ex = ey ∧ (mx ≤ my)%positive)) as Hlex.
      { revert Hc. destruct (Z.compare_spec ex ey) as [->|?|?]; intros Hc;
          [|lia|done].
        right. split; [done|].
        apply Pos.compare_le_iff. intros Hgt. by rewrite Hgt in Hc. }
      exact (units_le_pos mx ex my ey Hx Hy Hlex).
Qed.

(** *** Subtraction from one *)

Lemma shl_align_fst m e ez :
  ez ≤ e → Z.pos (fst (shl_align m e ez)) = Z.pos m * 2 ^ (e - ez).
Proof.
  intros Hle. unfold shl_align.
  destruct (ez - e) as [|d|d] eqn:Hd; cbn [fst].
  - replace (e - ez) with 0 by lia. lia.
  - lia.
  - pose proof (Pos2Z.opp_pos d). rewrite pos_iter_xO.
    do 2 f_equal. lia.
Qed.

Lemma sub_from_one_finite s m e :
  valid_binary (S754_finite s m e) = true →
  SFsub prec emax sf_one (S754_finite s m e)
  = rnd (2 ^ 1074 - sf_units (S754_finite s m e)).
Proof.
  intros (He & _)%valid_finite.
  unfold sf_one. cbn [SFsub sf_units].
  rewrite binary_normalize_spec by lia.
  rewrite !shl_align_fst by lia.
  f_equal. unfold cond_Zopp.
  rewrite Z.mul_sub_distr_r.
  f_equal.
  - rewrite <- Z.mul_assoc, pow2_add by lia.
    replace (-52 - Z.min (-52) e + (Z.min (-52) e + 1074)) with 1022 by lia.
    done.
  - destruct s.
    + rewrite Z.mul_opp_l. rewrite <- Z.mul_assoc, pow2_add by lia.
      replace (e - Z.min (-52) e + (Z.min (-52) e + 1074)) with (e + 1074)
        by lia.
      lia.
    + rewrite <- Z.mul_assoc, pow2_add by lia.
      do 2 f_equal. lia.
Qed.

Lemma rnd_one : rnd (2 ^ 1074) = sf_one.
Proof. vm_compute. reflexivity. Qed.

Lemma sub_from_one_spec y :
  valid_binary y = true →
  SFsub prec emax sf_one y
  = match y with
    | S754_nan => S754_nan
    | S754_infinity s => S754_infinity (negb s)
    | _ => rnd (2 ^ 1074 - sf_units y)
    end.
Proof.
  intros Hy. destruct y as [s|s| |s m e]; [|done|done|].
  - cbn [sf_units]. rewrite Z.sub_0_r, rnd_one. done.
  - by apply sub_from_one_finite.
Qed.

Lemma below_infinity N : SFleb (rnd N) (S754_infinity false) = true.
Proof.
  by destruct (rnd_shape N) as [->|[(s & m & e & ->)|([] & ->)]].
Qed.

Lemma above_minus_infinity N : SFleb (S754_infinity true) (rnd N) = true.
Proof.
  by destruct (rnd_shape N) as [->|[(s & m & e & ->)|([] & ->)]].
Qed.

Lemma sub_from_one_antitone_spec x y :
  valid_binary x = true → valid_binary y = true →
  SFleb x y = true →
  SFleb (SFsub prec emax sf_one y) (SFsub prec emax sf_one x) = true.
Proof.
  intros Hx Hy Hle.
  rewrite !sub_from_one_spec by done.
  destruct x as [sx|[]| |sx mx ex] eqn:Ex, y as [sy|[]| |sy my ey] eqn:Ey;
    try done;
    try apply below_infinity; try apply above_minus_infinity;
    (apply rnd_mono; apply Z.sub_le_mono_l;
     rewrite <- Ex, <- Ey; apply units_le; subst; done).
Qed.

End FloatOrder.


Lemma sub_from_one_antitone (x y : float) :
  (x <=? y)%float = true → (1 - y <=? 1 - x)%float = true.
Proof.
  rewrite !leb_spec, !sub_spec.
  change (Prim2SF 1) with sf_one.
  apply sub_from_one_antitone_spec; apply Prim2SF_valid.
Qed.

(** ** Result shaping *)

Lemma make_chunk_spec metadatas distances i doc c :
  make_chunk metadatas distances i doc = Ok c →
  similarity c
  = (1 - match distances !! i with Some d => d | None => 1 end)%float
  ∧ ∀ s, doc = Some s → s ≠ "" → text c = VStr s.
Proof.
  unfold make_chunk. intros H.
  destruct doc as [s|]; simpl in H.
  - destruct s as [|a s]; simpl in H.
    + destruct (metadatas !! i) as [[md|]|]; simplify_eq; simpl;
        (split; [done|]); intros s' [= <-] Hs'; done.
    + simplify_eq. simpl. split; [done|]. by intros s' [= <-] _.
  - destruct (metadatas !! i) as [[md|]|]; simplify_eq; simpl;
      (split; [done|]); intros s' Hs'; discriminate.
Qed.

Lemma chunks_from_spec metadatas distances documents :
  ∀ i chunks,
    chunks_from metadatas distances i documents = Ok chunks →
    length chunks = length documents
    ∧ ∀ j c, chunks !! j = Some c →
        similarity c
        = (1 - match distances !! (i + j)%nat with
               | Some d => d
               | None => 1
               end)%float
        ∧ ∀ s, documents !! j = Some (Some s) → s ≠ "" → text c = VStr s.
Proof.
  induction documents as [|doc rest IH]; intros i chunks H; simpl in H.
  - simplify_eq. split; [done|]. intros j c Hc. by destruct j.
  - destruct (make_chunk metadatas distances i doc) as [e|c0] eqn:Hc0;
      [discriminate|].
    destruct (chunks_from metadatas distances (S i) rest) as [e|cs] eqn:Hcs;
      [discriminate|].
    simplify_eq. destruct (IH _ _ Hcs) as [Hlen Hrest].
    split; [simpl; by rewrite Hlen|].
    intros [|j] c Hc; simpl in Hc.
    + simplify_eq. rewrite Nat.add_0_r.
      destruct (make_chunk_spec _ _ _ _ _ Hc0) as [Hsim Htext].
      split; [done|]. intros s [= ->]. by apply Htext.
    + destruct (Hrest j c Hc) as [Hsim Htext].
      split; [|done]. by rewrite Nat.add_succ_r.
Qed.

Section ShapingFacts.
Context {Ext : Type} (svc : services Ext) (cfg : config).

Lemma retrieve_emits query top_k :
  emits (retrieve_similar_chunks svc cfg query top_k)
    (λ r new, ∀ chunks, r = Ok chunks →
       ∃ emb results,
         last new = Some (EvQuery (CHROMA_COLLECTION_NAME cfg) [emb] top_k
                                  query_include (Ok results))
         ∧ format_results results = Ok chunks).
Proof.
  unfold retrieve_similar_chunks, get_embedding, first_embedding.
  emits_step. emits_read as found. destruct found; simpl.
  2: { emits_step. discriminate. }
  emits_step. emits_step. emits_call as [err|data]; [discriminate|].
  destruct data as [|emb data]; emits_step; [discriminate|].
  emits_step. emits_call as [err|[]]; [discriminate|].
  emits_step. emits_step. emits_call as [err|[]].
  { emits_step. discriminate. }
  emits_step. emits_call as [err|results]; [discriminate|].
  emits_step. intros chunks Hc. exists emb, results. split; [reflexivity|].
  by destruct (format_results results); simplify_eq.
Qed.

(** C5: whenever retrieval returns, its chunks are the documents of the
    store's answer, one per document and in the answer's order, and the
    similarity of the chunk at each rank is [1 - distance] for the
    distance at that rank; distances [0.0, 0.1, 0.5] give similarities
    [1.0, 0.9, 0.5].  The order of the answer carries over: whenever the
    distance at one rank is at most the distance at another, the
    similarity at the second is at most the similarity at the first, so
    an answer in ascending distance gives chunks in descending
    similarity. *)
Theorem retrieve_similarity_from_distance
    (query : string) (top_k : Z) (w w' : world Ext) (chunks : list chunk) :
  retrieve_similar_chunks svc cfg query top_k w = (Ok chunks, w') →
  ∃ emb results,
    last (trace w')
    = Some (EvQuery (CHROMA_COLLECTION_NAME cfg) [emb] top_k query_include
                    (Ok results))
    ∧ ∀ documents distances rest rest',
        qr_documents results = Some (documents :: rest) →
        qr_distances results = Some (distances :: rest') →
        length chunks = length documents
        ∧ (∀ i c d, chunks !! i = Some c → distances !! i = Some d →
             similarity c = (1 - d)%float)
        ∧ (∀ i c s, chunks !! i = Some c → documents !! i = Some (Some s) →
             s ≠ "" → text c = VStr s)
        ∧ (distances = [0; 0.1; 0.5]%float → length documents = 3 →
           similarity <$> chunks = [1; 0.9; 0.5]%float)
        ∧ (∀ i j ci cj di dj,
             chunks !! i = Some ci → chunks !! j = Some cj →
             distances !! i = Some di → distances !! j = Some dj →
             (di <=? dj)%float = true →
             (similarity cj <=? similarity ci)%float = true).
Proof.
  intros Hrun.
  destruct (emits_run _ _ _ _ _ (retrieve_emits query top_k) Hrun)
    as (new & Htrace & Hnew).
  destruct (Hnew chunks eq_refl) as (emb & results & Hlast & Hfmt).
  exists emb, results. split.
  { rewrite Htrace. destruct new as [|ev new]; [discriminate|].
    by rewrite last_app, Hlast. }
  intros documents distances rest rest' Hdocs Hdist.
  unfold format_results in Hfmt. rewrite Hdocs, Hdist in Hfmt. simpl in Hfmt.
  destruct (chunks_from_spec _ _ _ _ _ Hfmt) as [Hlen Hall].
  assert (∀ i c d, chunks !! i = Some c → distances !! i = Some d →
                   similarity c = (1 - d)%float) as Hsims.
  { intros i c d Hc Hd. destruct (Hall i c Hc) as [Hsim _].
    simpl in Hsim. by rewrite Hd in Hsim. }
  split; [done|]. split; [done|]. split; [|split].
  - intros i c s Hc Hs. destruct (Hall i c Hc) as [_ Htext]. by apply Htext.
  - intros -> Hthree. rewrite Hthree in Hlen.
    destruct chunks as [|c0 [|c1 [|c2 [|c3 cs]]]]; try discriminate.
    destruct (Hall 0 c0 eq_refl) as [H0 _].
    destruct (Hall 1 c1 eq_refl) as [H1 _].
    destruct (Hall 2 c2 eq_refl) as [H2 _].
    simpl in *. rewrite H0, H1, H2. reflexivity.
  - intros i j ci cj di dj Hci Hcj Hdi Hdj Hle.
    rewrite (Hsims i ci di Hci Hdi), (Hsims j cj dj Hcj Hdj).
    by apply sub_from_one_antitone.
Qed.

End ShapingFacts.

Lemma retrieve_similarity_from_distance_witness :
  ∃ emb results,
    last (trace (retrieve_similar_chunks Sim.svc default_config "fever" 3
                   (Sim.start sim_answering)).2)
    = Some (EvQuery "medical-vectors" [emb] 3 query_include (Ok results))
    ∧ ∀ documents distances rest rest',
        qr_documents results = Some (documents :: rest) →
        qr_distances results = Some (distances :: rest') →
        length [Chunk (VStr "Amoxil") 1; Chunk (VStr "Brufen") 0.9;
                Chunk (VStr "Calpol") 0.5] = length documents
        ∧ (∀ i c d,
             [Chunk (VStr "Amoxil") 1; Chunk (VStr "Brufen") 0.9;
              Chunk (VStr "Calpol") 0.5] !! i = Some c →
             distances !! i = Some d → similarity c = (1 - d)%float)
        ∧ (∀ i c s,
             [Chunk (VStr "Amoxil") 1; Chunk (VStr "Brufen") 0.9;
              Chunk (VStr "Calpol") 0.5] !! i = Some c →
             documents !! i = Some (Some s) → s ≠ "" → text c = VStr s)
        ∧ (distances = [0; 0.1; 0.5]%float → length documents = 3 →
           similarity
             <$> [Chunk (VStr "Amoxil") 1; Chunk (VStr "Brufen") 0.9;
                  Chunk (VStr "Calpol") 0.5]
           = [1; 0.9; 0.5]%float)
        ∧ (∀ i j ci cj di dj,
             [Chunk (VStr "Amoxil") 1; Chunk (VStr "Brufen") 0.9;
              Chunk (VStr "Calpol") 0.5] !! i = Some ci →
             [Chunk (VStr "Amoxil") 1; Chunk (VStr "Brufen") 0.9;
              Chunk (VStr "Calpol") 0.5] !! j = Some cj →
             distances !! i = Some di → distances !! j = Some dj →
             (di <=? dj)%float = true →
             (similarity cj <=? similarity ci)%float = true).
Proof.
  apply (retrieve_similarity_from_distance Sim.svc default_config "fever" 3
           (Sim.start sim_answering)).
  vm_compute. reflexivity.
Defined.

(** Descending is not strictly descending: two distances that differ
    can round to the same similarity. *)
Example close_distances_share_a_similarity :
  (1e-17 <? 2e-17)%float = true
  ∧ (1 - 1e-17)%float = 1%float ∧ (1 - 2e-17)%float = 1%float.
Proof. repeat split; vm_compute; reflexivity. Qed.

Example three_hits_similarities :
  (retrieve_similar_chunks Sim.svc default_config "fever" 3
     (Sim.start sim_answering)).1
  = Ok [Chunk (VStr "Amoxil") 1; Chunk (VStr "Brufen") 0.9;
        Chunk (VStr "Calpol") 0.5].
Proof. vm_compute. reflexivity. Qed.

(** ** Batching *)





Lemma range_length n b : length (py_range 0 n b) = (n + b - 1) / b.
Proof. unfold py_range. by rewrite length_fmap, length_seq, Nat.sub_0_r. Qed.

Lemma range_lookup n b k i :
  py_range 0 n b !! k = Some i → i = k * b ∧ k < (n + b - 1) / b.
Proof.
  unfold py_range. rewrite list_lookup_fmap, Nat.sub_0_r.
  destruct (seq 0 ((n + b - 1) / b) !! k) as [j|] eqn:Hj; [|discriminate].
  apply lookup_seq in Hj as [-> Hlt]. simpl. by intros [= <-].
Qed.



Section BatchColumns.
Variables (acc : prepared) (b : nat).
Hypothesis b_pos : 0 < b.
Hypothesis same_embeddings : length (embeddings acc) = length (ids acc).
Hypothesis same_metadatas : length (metadatas acc) = length (ids acc).
Hypothesis same_documents : length (documents acc) = length (ids acc).

Let reqs : list add_request :=
  batch_at acc b <$> py_range 0 (length (ids acc)) b.



End BatchColumns.


(** ** Ingestion *)

Lemma add_requests_app a b : add_requests (a ++ b) = add_requests a ++ add_requests b.
Proof. apply omap_app. Qed.
Lemma embed_answers_app a b :
  embed_answers (a ++ b) = embed_answers a ++ embed_answers b.
Proof. apply omap_app. Qed.
Lemma embed_inputs_app a b :
  embed_inputs (a ++ b) = embed_inputs a ++ embed_inputs b.
Proof. apply omap_app. Qed.
Lemma docs_read_app a b : docs_read (a ++ b) = docs_read a ++ docs_read b.
Proof. apply omap_app. Qed.

Create Rewrite HintDb trace_db.
#[export] Hint Rewrite add_requests_app embed_answers_app embed_inputs_app
  docs_read_app @app_nil_r @app_nil_l : trace_db.

Ltac trace_simpl :=
  autorewrite with trace_db;
  cbn [add_requests embed_answers embed_inputs docs_read omap list_omap
       add_request_of embed_answer_of embed_input_of docs_read_of
       app];
  autorewrite with trace_db.

Section IngestionFacts.
Context {Ext : Type} (svc : services Ext) (cfg : config).
Variable repr_opaque : value → string.

Lemma create_embedding_emits text :
  emits (create_embedding svc cfg text)
    (λ r new,
       add_requests new = [] ∧ docs_read new = []
       ∧ ∀ e, r = Ok e →
           ∃ data, new = [EvEmbed (EMBEDDING_MODEL cfg)
                                  (if String.eqb text "" then " " else text)
                                  (Ok (e :: data))]).
Proof.
  unfold create_embedding, first_embedding. cbn [truthy].
  rewrite negb_involutive.
  emits_step. emits_call as [err|data]; [done|].
  destruct data as [|e0 data]; emits_step; (do 2 (split; [done|]));
    [discriminate|].
  intros e [= <-]. by exists data.
Qed.

Lemma process_doc_emits total i doc acc :
  emits (process_doc svc cfg repr_opaque total i doc acc)
    (λ r new,
       add_requests new = [] ∧ docs_read new = []
       ∧ ∀ acc', r = Ok acc' →
           ∃ t e data,
             build_text_for_embedding repr_opaque doc = Ok t
             ∧ new = [EvEmbed (EMBEDDING_MODEL cfg)
                              (if String.eqb t "" then " " else t)
                              (Ok (e :: data))]
             ∧ acc' = Prepared
                        (ids acc ++ [doc_uid i doc])
                        (embeddings acc ++ [e])
                        (metadatas acc ++ [doc_metadata doc (doc_uid i doc)])
                        (documents acc ++ [t])).
Proof.
  unfold process_doc.
  emits_step. emits_step.
  destruct (build_text_for_embedding repr_opaque doc) as [err|t]; [done|].
  emits_step. eapply emits_conseq; [apply create_embedding_emits|].
  intros [err|e] new (Hadd & Hread & Hnew).
  { trace_simpl. by rewrite Hadd, Hread. }
  destruct (Hnew e eq_refl) as [data ->].
  emits_step.
  destruct ((i + 1) `mod` 100 =? 0); emits_step; emits_step;
    (do 2 (split; [done|])); intros acc' [= <-]; by exists t, e, data.
Qed.

Lemma process_docs_emits total docs :
  ∀ i acc,
  emits (fold_enumerate (process_doc svc cfg repr_opaque total) i docs acc)
    (λ r new,
       add_requests new = [] ∧ docs_read new = []
       ∧ ∀ acc', r = Ok acc' →
           ∃ texts embs,
             Forall2 (λ doc t, build_text_for_embedding repr_opaque doc = Ok t)
                     docs texts
             ∧ length embs = length docs
             ∧ acc' = Prepared
                        (ids acc ++ imap (λ j, doc_uid (i + j)) docs)
                        (embeddings acc ++ embs)
                        (metadatas acc
                         ++ imap (λ j d, doc_metadata d (doc_uid (i + j) d))
                                 docs)
                        (documents acc ++ texts)
             ∧ embed_answers new = embs
             ∧ embed_inputs new
               = (λ t, if String.eqb t "" then " " else t) <$> texts).
Proof.
  induction docs as [|doc rest IH]; intros i acc; cbn [fold_enumerate].
  - emits_step. do 2 (split; [done|]).
    intros acc' [= <-]. exists [], []. simpl.
    rewrite !app_nil_r. by destruct acc.
  - emits_step. eapply emits_conseq; [apply process_doc_emits|].
    intros [err|acc1] new1 (Hadd1 & Hread1 & H1); [done|].
    destruct (H1 acc1 eq_refl) as (t & e & data & Ht & -> & ->).
    eapply emits_conseq; [apply IH|].
    intros r new2 (Hadd2 & Hread2 & H2).
    trace_simpl. do 2 (split; [done|]). intros acc' ->.
    destruct (H2 acc' eq_refl) as (texts & embs & Hall & Hlen & -> & Hans & Hin).
    exists (t :: texts), (e :: embs).
    split; [by constructor|]. split; [simpl; by rewrite Hlen|].
    split; [|by rewrite Hans, Hin].
    cbn [ids embeddings metadatas documents]. rewrite !imap_cons.
    rewrite <- !app_assoc. cbn [app]. rewrite Nat.add_0_r.
    f_equal; f_equal; f_equal; apply imap_ext; intros j d _; simpl;
      by rewrite Nat.add_succ_r.
Qed.

Lemma add_batches_emits acc batch_size total_batches starts :
  emits (for_each starts (add_batch svc cfg acc batch_size total_batches))
    (λ r new,
       add_requests new `prefix_of` (batch_at acc batch_size <$> starts)
       ∧ docs_read new = [] ∧ embed_answers new = []
       ∧ (r = Ok tt → add_requests new = batch_at acc batch_size <$> starts)).
Proof.
  induction starts as [|i rest IH]; cbn [for_each].
  - emits_step. done.
  - emits_step. unfold add_batch at 1. emits_step.
    emits_call as [err|[]].
    { trace_simpl. split; [apply prefix_cons, prefix_nil|]. done. }
    emits_step.
    eapply emits_conseq; [apply IH|].
    intros r new (Hpre & Hread & Hans & Hall).
    trace_simpl. rewrite Hread, Hans.
    split; [by apply prefix_cons|]. do 2 (split; [done|]).
    intros Hr. by rewrite (Hall Hr).
Qed.

Lemma open_collection_emits :
  emits (open_collection svc cfg)
    (λ r new, add_requests new = [] ∧ docs_read new = []
              ∧ embed_answers new = []).
Proof. unfold open_collection. repeat emits_step; done. Qed.

Lemma load_docs_emits :
  emits (load_docs svc cfg)
    (λ r new,
       add_requests new = [] ∧ embed_answers new = []
       ∧ ∀ docs, r = Ok docs → docs_read new = [docs]).
Proof.
  unfold load_docs. emits_step. emits_read as found.
  destruct found; simpl.
  - emits_call as [err|docs']; [done|].
    do 2 (split; [done|]). by intros docs [= <-].
  - emits_step. done.
Qed.

Lemma add_in_batches_emits acc :
  emits (add_in_batches svc cfg acc)
    (λ r new,
       add_requests new
         `prefix_of` (batch_at acc 100 <$> py_range 0 (length (ids acc)) 100)
       ∧ docs_read new = [] ∧ embed_answers new = []
       ∧ (r = Ok tt →
          add_requests new
          = batch_at acc 100 <$> py_range 0 (length (ids acc)) 100)).
Proof.
  unfold add_in_batches. cbv zeta. emits_step. emits_step.
  eapply emits_conseq; [apply add_batches_emits|].
  intros r new H. by trace_simpl.
Qed.

Lemma report_final_count_emits :
  emits (report_final_count svc cfg)
    (λ r new, add_requests new = [] ∧ docs_read new = []
              ∧ embed_answers new = []).
Proof. unfold report_final_count, abspath_of. repeat emits_step; done. Qed.



End IngestionFacts.


Example ingest_250_batches :
  length ∘ add_ids
    <$> add_requests
          (trace (store_embeddings Sim.svc default_config Sim.repr
                    (Sim.start sim_250)).2)
  = [100; 100; 50].
Proof. vm_compute. reflexivity. Qed.

Example ingest_250_final_count :
  take 2 (reverse (trace (store_embeddings Sim.svc default_config Sim.repr
                            (Sim.start sim_250)).2))
  = [EvAbspath "./chroma_db" (Ok "/srv/app/chroma_db");
     EvCount "medical-vectors" (Ok 250)].
Proof. vm_compute. reflexivity. Qed.

(** * Further properties of the code *)

(** ** More on the document text builder *)

Lemma id_not_listed : "id" ∉ fields_in_order.
Proof.
  unfold fields_in_order. intros H.
  repeat (apply elem_of_cons in H as [H|H]; [discriminate|]).
  by apply elem_of_nil in H.
Qed.

Lemma lstrip_head s :
  PyStr.lstrip s = ""
  ∨ ∃ c r, PyStr.lstrip s = String c r ∧ PyStr.is_space c = false.
Proof.
  induction s as [|c s IH]; [by left|]. simpl.
  destruct (PyStr.is_space c) eqn:Hc; [done|]. right. by exists c, s.
Qed.

Lemma lstrip_fixed c r :
  PyStr.is_space c = false → PyStr.lstrip (String c r) = String c r.
Proof. intros H. simpl. by rewrite H. Qed.

Lemma rstrip_head c r :
  PyStr.is_space c = false → ∃ r', PyStr.rstrip (String c r) = String c r'.
Proof.
  intros H. simpl. destruct (PyStr.rstrip r); [|by eexists].
  rewrite H. by eexists.
Qed.

Lemma rstrip_idempotent s : PyStr.rstrip (PyStr.rstrip s) = PyStr.rstrip s.
Proof.
  induction s as [|c s IH]; [done|]. simpl.
  destruct (PyStr.rstrip s) as [|a b] eqn:Hr.
  - destruct (PyStr.is_space c) eqn:Hc; [done|]. simpl. by rewrite Hc.
  - change (PyStr.rstrip (String c (String a b))) with
      (match PyStr.rstrip (String a b) with
       | "" => if PyStr.is_space c then "" else String c ""
       | r => String c r
       end).
    by rewrite IH.
Qed.

Lemma strip_head s :
  PyStr.strip s = ""
  ∨ ∃ c r, PyStr.strip s = String c r ∧ PyStr.is_space c = false.
Proof.
  unfold PyStr.strip. destruct (lstrip_head s) as [->|(c & r & -> & Hc)];
    [by left|].
  right. destruct (rstrip_head c r Hc) as [r' ->]. by exists c, r'.
Qed.

Lemma strip_idempotent s : PyStr.strip (PyStr.strip s) = PyStr.strip s.
Proof.
  destruct (strip_head s) as [Hs|(c & r & Hs & Hc)].
  - by rewrite Hs.
  - unfold PyStr.strip at 1. rewrite Hs, (lstrip_fixed c r Hc), <- Hs.
    unfold PyStr.strip. apply rstrip_idempotent.
Qed.

Lemma take_short n s : String.length (PyStr.take n s) < n → PyStr.take n s = s.
Proof.
  revert s. induction n as [|n IH]; intros [|c s]; simpl; intros H;
    try reflexivity; try lia.
  rewrite IH; [reflexivity | lia].
Qed.

Lemma lstrip_take n s : PyStr.lstrip s = s → PyStr.lstrip (PyStr.take n s) = PyStr.take n s.
Proof.
  destruct n as [|n]; [done|]. destruct s as [|c s]; [done|]. simpl.
  destruct (PyStr.is_space c) eqn:Hc; [|done].
  intros H. exfalso.
  assert (Hlen : ∀ t, String.length (PyStr.lstrip t) ≤ String.length t).
  { induction t as [|a t IHt]; simpl; [lia|].
    destruct (PyStr.is_space a); simpl; lia. }
  specialize (Hlen s). rewrite H in Hlen. simpl in Hlen. lia.
Qed.

Section TextBuilderMore.
Variable repr_opaque : value → string.

Lemma field_parts_ext (doc doc' : dict) :
  (∀ k, k ∈ fields_in_order →
     field_line repr_opaque doc k = field_line repr_opaque doc' k) →
  field_parts repr_opaque doc = field_parts repr_opaque doc'.
Proof.
  unfold field_parts. generalize fields_in_order as ks.
  induction ks as [|k ks IH]; intros H; [done|].
  cbn [omap list_omap]. rewrite (H k) by left.
  rewrite IH; [done|]. intros k' Hk'. apply H. by right.
Qed.

Lemma build_text_ext (doc doc' : dict) :
  (∀ k, k ∈ fields_in_order →
     field_line repr_opaque doc k = field_line repr_opaque doc' k) →
  doc !! "id" = doc' !! "id" →
  build_text_for_embedding repr_opaque doc
  = build_text_for_embedding repr_opaque doc'.
Proof.
  intros Hf Hid. unfold build_text_for_embedding, dict_get_default.
  by rewrite (field_parts_ext _ _ Hf), Hid.
Qed.

Lemma field_parts_nonempty (doc : dict) k :
  k ∈ fields_in_order → truthy (dict_get doc k) = true →
  field_parts repr_opaque doc ≠ [].
Proof.
  intros Hk Ht Hnil.
  assert (Hin : (field_label k +:+ ": " +:+ py_str repr_opaque (dict_get doc k))
                ∈ field_parts repr_opaque doc).
  { apply list_elem_of_omap. exists k. split; [done|].
    unfold field_line. by rewrite Ht. }
  rewrite Hnil in Hin. by apply elem_of_nil in Hin.
Qed.

(** X1: the builder reads the nine listed fields and [id] and nothing
    else: setting any other key of the record leaves the text blob (or
    the error) unchanged. *)
Theorem build_text_ignores_other_keys (doc : dict) (k : string) (v : value) :
  k ∉ fields_in_order → k ≠ "id" →
  build_text_for_embedding repr_opaque (<[k := v]> doc)
  = build_text_for_embedding repr_opaque doc.
Proof.
  intros Hk Hid. apply build_text_ext.
  - intros k' Hk'. unfold field_line, dict_get.
    rewrite lookup_insert_ne; [done|]. by intros ->.
  - by rewrite lookup_insert_ne.
Qed.

(** X2: as soon as one listed field is truthy the builder returns a
    string, never an error, and the record's [id] plays no part: any
    [id], of any type, or none, gives the same text. *)
Theorem build_text_with_field_ignores_id (doc : dict) (k : string) :
  k ∈ fields_in_order → truthy (dict_get doc k) = true →
  (∃ s, build_text_for_embedding repr_opaque doc = Ok s)
  ∧ (∀ v, build_text_for_embedding repr_opaque (<["id" := v]> doc)
          = build_text_for_embedding repr_opaque doc)
  ∧ build_text_for_embedding repr_opaque (delete "id" doc)
    = build_text_for_embedding repr_opaque doc.
Proof.
  intros Hk Ht.
  assert (Hsame : ∀ doc' : dict,
    (∀ k', k' ≠ "id" → doc' !! k' = doc !! k') →
    build_text_for_embedding repr_opaque doc'
    = build_text_for_embedding repr_opaque doc).
  { intros doc' Hother.
    assert (Hparts : field_parts repr_opaque doc'
                     = field_parts repr_opaque doc).
    { apply field_parts_ext. intros k' Hk'. unfold field_line, dict_get.
      rewrite Hother; [done|]. intros ->. by apply id_not_listed. }
    unfold build_text_for_embedding. rewrite Hparts.
    pose proof (field_parts_nonempty doc k Hk Ht) as Hne.
    by destruct (field_parts repr_opaque doc). }
  split; [|split].
  - unfold build_text_for_embedding.
    pose proof (field_parts_nonempty doc k Hk Ht) as Hne.
    destruct (field_parts repr_opaque doc); [done|]. by eexists.
  - intros v. apply Hsame. intros k' Hk'. by rewrite lookup_insert_ne.
  - apply Hsame. intros k' Hk'. by rewrite lookup_delete_ne.
Qed.

(** X3: a listed field that holds a falsy value (empty string, [0],
    [False], [None], an empty list or dict) counts as absent: the text
    is the one of the record without that key. *)
Theorem build_text_falsy_field_is_absent (doc : dict) (k : string) (v : value) :
  k ∈ fields_in_order → truthy v = false →
  build_text_for_embedding repr_opaque (<[k := v]> doc)
  = build_text_for_embedding repr_opaque (delete k doc).
Proof.
  intros Hk Hv. apply build_text_ext.
  - intros k' Hk'. unfold field_line, dict_get.
    destruct (decide (k = k')) as [<-|Hne].
    + rewrite lookup_insert_eq, lookup_delete_eq. simpl. by rewrite Hv.
    + by rewrite lookup_insert_ne, lookup_delete_ne.
  - assert (k ≠ "id") by (intros ->; by apply id_not_listed).
    by rewrite lookup_insert_ne, lookup_delete_ne.
Qed.

(** X4: a text blob never starts with whitespace, and one shorter than
    6000 characters does not end with whitespace either: stripping it
    again changes nothing.  (A blob cut at 6000 characters may end in
    whitespace.) *)
Theorem build_text_is_stripped (doc : dict) (s : string) :
  build_text_for_embedding repr_opaque doc = Ok s →
  PyStr.lstrip s = s
  ∧ (String.length s < 6000 → PyStr.strip s = s).
Proof.
  assert (Hgen : ∀ t, PyStr.lstrip (PyStr.take MAX_TEXT (PyStr.strip t))
                      = PyStr.take MAX_TEXT (PyStr.strip t)
                      ∧ (String.length (PyStr.take MAX_TEXT (PyStr.strip t))
                         < MAX_TEXT →
                         PyStr.strip (PyStr.take MAX_TEXT (PyStr.strip t))
                         = PyStr.take MAX_TEXT (PyStr.strip t))).
  { intros t. split.
    - apply lstrip_take.
      destruct (strip_head t) as [->|(c & r & -> & Hc)]; [done|].
      by apply lstrip_fixed.
    - intros Hlen. rewrite (take_short _ _ Hlen). apply strip_idempotent. }
  unfold build_text_for_embedding, dict_get_default.
  destruct (field_parts repr_opaque doc).
  - destruct (doc !! "id") as [[]|]; intros H; try discriminate H;
      apply (inj inr) in H; subst s; apply Hgen.
  - intros H. apply (inj inr) in H. subst s. apply Hgen.
Qed.

End TextBuilderMore.

(** ** The metadata of a record *)

Lemma copy_if_present_lookup (doc : dict) k (m : dict) k' :
  copy_if_present doc k m !! k'
  = if decide (k = k')
    then (if truthy (dict_get doc k) then Some (dict_get doc k) else m !! k')
    else m !! k'.
Proof.
  unfold copy_if_present.
  case_decide; subst; destruct (truthy (dict_get doc _)); by simplify_map_eq.
Qed.

Lemma truthy_keep v : truthy v = true → keep_value v = true.
Proof. by destruct v. Qed.

Lemma truthy_dict_get (doc : dict) k :
  truthy (dict_get doc k) = true → doc !! k = Some (dict_get doc k).
Proof. unfold dict_get. by destruct (doc !! k). Qed.

Lemma py_or_chain a b c :
  py_or (py_or (py_or a b) c) c = py_or (py_or a b) c.
Proof.
  unfold py_or.
  destruct (truthy a) eqn:Ha; simpl; rewrite ?Ha; simpl; rewrite ?Ha; [done|].
  destruct (truthy b) eqn:Hb; simpl; rewrite ?Hb; simpl; rewrite ?Hb; [done|].
  destruct (truthy c) eqn:Hc; simpl; by rewrite ?Hc.
Qed.

Lemma py_or_truthy_r a c : truthy c = true → truthy (py_or a c) = true.
Proof. intros Hc. unfold py_or. by destruct (truthy a) eqn:Ha; rewrite ?Ha. Qed.

Lemma copy_if_present_other (doc : dict) k (m : dict) k' :
  k ≠ k' → copy_if_present doc k m !! k' = m !! k'.
Proof. intros H. rewrite copy_if_present_lookup. by case_decide. Qed.

Lemma copy_if_present_same (doc : dict) k (m : dict) :
  copy_if_present doc k m !! k
  = if truthy (dict_get doc k) then Some (dict_get doc k) else m !! k.
Proof. rewrite copy_if_present_lookup. by case_decide. Qed.

Lemma doc_metadata_unfold (doc : dict) (uid : value) :
  doc_metadata doc uid = clean_metadata (doc_metadata_raw doc uid).
Proof. reflexivity. Qed.

Lemma py_or_empty_truthy a : truthy (py_or a (VStr "")) = truthy a.
Proof. unfold py_or. by destruct (truthy a) eqn:Ha. Qed.

Lemma py_or_empty_value a : truthy a = true → py_or a (VStr "") = a.
Proof. unfold py_or. by intros ->. Qed.

Lemma raw_base_lookup (doc : dict) (uid : value) k :
  k ∉ ["product_name"; "therapeutic_class"; "strength"; "dosage_form"] →
  doc_metadata_raw doc uid !! k
  = if decide (k = "source_id")
    then (if truthy (dict_get doc "source_url")
          then Some (dict_get doc "source_url") else None)
    else if decide (k = "chunk_index") then Some (VStr "0")
    else if decide (k = "title")
    then Some (py_or (py_or (dict_get doc "product_name")
                            (dict_get doc "brand_name")) uid)
    else None.
Proof.
  intros Hk. rewrite !elem_of_cons, elem_of_nil in Hk.
  unfold doc_metadata_raw. rewrite py_or_chain.
  rewrite !copy_if_present_other by (intros <-; tauto).
  rewrite py_or_empty_truthy.
  destruct (truthy (dict_get doc "source_url")) eqn:Hs;
    rewrite ?(py_or_empty_value _ Hs);
    repeat case_decide; subst; by simplify_map_eq.
Qed.

Lemma raw_optional_lookup (doc : dict) (uid : value) k :
  k ∈ ["product_name"; "therapeutic_class"; "strength"; "dosage_form"] →
  doc_metadata_raw doc uid !! k
  = if truthy (dict_get doc k) then Some (dict_get doc k) else None.
Proof.
  intros Hk. rewrite !elem_of_cons, elem_of_nil in Hk.
  assert (Hbase : ∀ m0 : dict,
    m0 = {[ "title" := py_or (py_or (py_or (dict_get doc "product_name")
                                           (dict_get doc "brand_name")) uid)
                             uid;
            "chunk_index" := VStr "0" ]} →
    (if truthy (py_or (dict_get doc "source_url") (VStr ""))
     then <["source_id" := py_or (dict_get doc "source_url") (VStr "")]> m0
     else m0) !! k = None).
  { intros m0 ->.
    destruct (truthy (py_or (dict_get doc "source_url") (VStr "")));
      destruct Hk as [->|[->|[->|[->|[]]]]]; by simplify_map_eq. }
  unfold doc_metadata_raw.
  destruct Hk as [->|[->|[->|[->|[]]]]];
    rewrite ?(copy_if_present_other _ "dosage_form") by discriminate;
    rewrite ?(copy_if_present_other _ "strength") by discriminate;
    rewrite ?(copy_if_present_other _ "therapeutic_class") by discriminate;
    rewrite copy_if_present_same;
    (destruct (truthy (dict_get doc _)); [done|]);
    rewrite ?(copy_if_present_other _ "strength") by discriminate;
    rewrite ?(copy_if_present_other _ "therapeutic_class") by discriminate;
    rewrite ?(copy_if_present_other _ "product_name") by discriminate;
    by apply Hbase.
Qed.

Lemma doc_metadata_lookup (doc : dict) (uid : value) k v :
  doc_metadata doc uid !! k = Some v ↔
  keep_value v = true
  ∧ ((k = "title"
      ∧ v = py_or (py_or (dict_get doc "product_name")
                         (dict_get doc "brand_name")) uid)
     ∨ (k = "chunk_index" ∧ v = VStr "0")
     ∨ (k = "source_id" ∧ v = dict_get doc "source_url" ∧ truthy v = true)
     ∨ (k ∈ ["product_name"; "therapeutic_class"; "strength"; "dosage_form"]
        ∧ v = dict_get doc k ∧ truthy v = true)).
Proof.
  rewrite doc_metadata_unfold, clean_metadata_lookup.
  destruct (decide (k ∈ ["product_name"; "therapeutic_class"; "strength";
                         "dosage_form"])) as [Hin|Hout].
  - rewrite (raw_optional_lookup _ _ _ Hin).
    assert (k ≠ "title" ∧ k ≠ "chunk_index" ∧ k ≠ "source_id") as (?&?&?).
    { rewrite !elem_of_cons, elem_of_nil in Hin.
      repeat split; intros ->; intuition discriminate. }
    destruct (truthy (dict_get doc k)) eqn:Ht;
      intuition (subst; try congruence; auto).
  - rewrite (raw_base_lookup _ _ _ Hout).
    destruct (truthy (dict_get doc "source_url")) eqn:Hs;
      repeat case_decide; subst;
      intuition (subst; try congruence; auto).
Qed.

(** X5: whatever the record, its metadata always has [chunk_index] equal
    to ["0"], uses no key other than title, chunk_index, source_id,
    product_name, therapeutic_class, strength and dosage_form, and holds
    no [None] and no empty string. *)
Theorem doc_metadata_shape (doc : dict) (uid : value) :
  doc_metadata doc uid !! "chunk_index" = Some (VStr "0")
  ∧ ∀ k v, doc_metadata doc uid !! k = Some v →
      k ∈ ["title"; "chunk_index"; "source_id"; "product_name";
           "therapeutic_class"; "strength"; "dosage_form"]
      ∧ v ≠ VNone ∧ v ≠ VStr "".
Proof.
  split.
  - apply doc_metadata_lookup. split; [done|]. right. by left.
  - intros k v Hkv. apply doc_metadata_lookup in Hkv as [Hkeep Hk].
    split; [|by apply keep_value_spec].
    rewrite !elem_of_cons, elem_of_nil in Hk. rewrite !elem_of_cons.
    intuition (subst; auto).
Qed.

(** X6: the title stored for a record is the first truthy value among
    product_name, brand_name and the id, and the id itself when none is
    truthy; the entry is missing exactly when that value is [None] or
    the empty string. *)
Theorem doc_metadata_title (doc : dict) (uid : value) (t : value) :
  doc_metadata doc uid !! "title" = Some t ↔
  t = py_or (py_or (dict_get doc "product_name") (dict_get doc "brand_name"))
            uid
  ∧ t ≠ VNone ∧ t ≠ VStr "".
Proof.
  rewrite doc_metadata_lookup, keep_value_spec, !elem_of_cons, elem_of_nil.
  intuition (subst; try discriminate; auto).
Qed.

(** X7: when the id in use is truthy, as the positional default
    [vec_<i>] always is, the metadata has a title and the title is
    truthy. *)
Theorem doc_metadata_has_title (doc : dict) (uid : value) :
  truthy uid = true →
  ∃ t, doc_metadata doc uid !! "title" = Some t ∧ truthy t = true.
Proof.
  intros Hu. eexists. split.
  - apply doc_metadata_lookup. split; [|left; done].
    by apply truthy_keep, py_or_truthy_r.
  - by apply py_or_truthy_r.
Qed.

(** X8: product_name, therapeutic_class, strength and dosage_form are
    copied into the metadata exactly when the record holds a truthy
    value for them, unchanged; source_id is the record's source_url
    under the same condition. *)
Theorem doc_metadata_optional (doc : dict) (uid : value) (k : string) (v : value) :
  k ∈ ["product_name"; "therapeutic_class"; "strength"; "dosage_form"] →
  (doc_metadata doc uid !! k = Some v ↔ doc !! k = Some v ∧ truthy v = true)
  ∧ (doc_metadata doc uid !! "source_id" = Some v ↔
     doc !! "source_url" = Some v ∧ truthy v = true).
Proof.
  intros Hk. rewrite !doc_metadata_lookup. split.
  - split.
    + intros [_ Hcases].
      rewrite !elem_of_cons, elem_of_nil in Hk.
      destruct Hcases as [[-> _]|[[-> _]|[[-> _]|(_ & -> & Ht)]]];
        [intuition discriminate..|].
      split; [by apply truthy_dict_get | done].
    + intros [Hd Ht]. split; [by apply truthy_keep|].
      do 3 right. split; [done|]. unfold dict_get. by rewrite Hd.
  - split.
    + intros [_ Hcases].
      destruct Hcases as [[? _]|[[? _]|[(_ & -> & Ht)|(Hin & _)]]];
        [discriminate..| |].
      * split; [by apply truthy_dict_get | done].
      * rewrite !elem_of_cons, elem_of_nil in Hin. intuition discriminate.
    + intros [Hd Ht]. split; [by apply truthy_keep|].
      right. right. left. split; [done|]. unfold dict_get. by rewrite Hd.
Qed.

(** X9: records that carry no id get pairwise distinct ids, however many
    there are: the defaults [vec_0], [vec_1], ... never repeat. *)
Theorem default_ids_distinct (docs : list dict) :
  Forall (λ doc : dict, doc !! "id" = None) docs →
  NoDup (imap doc_uid docs).
Proof.
  intros Hall. apply NoDup_alt. intros i j x.
  rewrite !list_lookup_imap.
  destruct (docs !! i) as [di|] eqn:Hi; [|discriminate].
  destruct (docs !! j) as [dj|] eqn:Hj; [|discriminate].
  rewrite Forall_lookup in Hall.
  pose proof (Hall _ _ Hi) as Hdi. pose proof (Hall _ _ Hj) as Hdj.
  cbn beta in Hdi, Hdj. cbn [fmap option_fmap option_map].
  intros [= <-] [= Heq]. unfold doc_uid, dict_get_default in Heq.
  rewrite Hdi, Hdj in Heq. cbn [default from_option id] in Heq.
  injection Heq as Heq. change (pretty j = pretty i) in Heq.
  symmetry. by apply (inj pretty) in Heq.
Qed.

(** ** What a run of the ingestion calls *)

(** Rules for [produces], which follows the printed lines next to the
    recorded calls. *)

Section Produces.
Context {Ext : Type}.

Lemma produces_ret {A} (a : A) Q : Q (Ok a) [] [] → produces (ret a : M Ext A) Q.
Proof. intros H w. exists [], []. by rewrite !app_nil_r. Qed.

Lemma produces_raise {A} (e : exn)
    (Q : result A → list event → list message → Prop) :
  Q (Raise e) [] [] → produces (raise e : M Ext A) Q.
Proof. intros H w. exists [], []. by rewrite !app_nil_r. Qed.

Lemma produces_lift {A} (r : result A) Q :
  Q r [] [] → produces (lift r : M Ext A) Q.
Proof. intros H w. exists [], []. by rewrite !app_nil_r. Qed.

Lemma produces_print msg Q :
  Q (Ok tt) [] [msg] → produces (print msg : M Ext unit) Q.
Proof. intros H w. exists [], [msg]. by rewrite !app_nil_r. Qed.

Lemma produces_external {A} (op : Ext → result A * Ext) ev Q :
  (∀ r, Q r [ev r] []) → produces (external op ev) Q.
Proof.
  intros H w. unfold external. destruct (op (ext w)) as [r x].
  exists [ev r], []. simpl. rewrite app_nil_r. auto.
Qed.

Lemma produces_observe {A} (op : Ext → A) ev Q :
  (∀ a, Q (Ok a) [ev a] []) → produces (observe op ev) Q.
Proof.
  intros H w. exists [ev (op (ext w))], []. simpl. rewrite app_nil_r. auto.
Qed.

Lemma produces_bind {A B} (m : M Ext A) (f : A → M Ext B) Q :
  produces m (λ r new1 out1,
    match r with
    | Raise e => Q (Raise e) new1 out1
    | Ok a => produces (f a) (λ r2 new2 out2, Q r2 (new1 ++ new2) (out1 ++ out2))
    end) →
  produces (bind m f) Q.
Proof.
  intros H w. destruct (H w) as (new1 & out1 & Ht & Ho & HQ). unfold bind.
  destruct (m w) as [[e|a] w1]; simpl in *.
  - by exists new1, out1.
  - destruct (HQ w1) as (new2 & out2 & Ht2 & Ho2 & HQ2).
    exists (new1 ++ new2), (out1 ++ out2).
    by rewrite Ht2, Ht, Ho2, Ho, !app_assoc.
Qed.

Lemma produces_mbind {A B} (m : M Ext A) (f : A → M Ext B) Q :
  produces m (λ r new1 out1,
    match r with
    | Raise e => Q (Raise e) new1 out1
    | Ok a => produces (f a) (λ r2 new2 out2, Q r2 (new1 ++ new2) (out1 ++ out2))
    end) →
  produces (m ≫= f) Q.
Proof. apply produces_bind. Qed.

Lemma produces_catch {A} (m : M Ext A) (h : exn → M Ext A) Q :
  produces m (λ r new1 out1,
    match r with
    | Ok a => Q (Ok a) new1 out1
    | Raise e => produces (h e) (λ r2 new2 out2, Q r2 (new1 ++ new2) (out1 ++ out2))
    end) →
  produces (catch m h) Q.
Proof.
  intros H w. destruct (H w) as (new1 & out1 & Ht & Ho & HQ). unfold catch.
  destruct (m w) as [[e|a] w1]; simpl in *.
  - destruct (HQ w1) as (new2 & out2 & Ht2 & Ho2 & HQ2).
    exists (new1 ++ new2), (out1 ++ out2).
    by rewrite Ht2, Ht, Ho2, Ho, !app_assoc.
  - by exists new1, out1.
Qed.

Lemma produces_conseq {A} (m : M Ext A)
    (Q' Q : result A → list event → list message → Prop) :
  produces m Q' → (∀ r new out, Q' r new out → Q r new out) → produces m Q.
Proof.
  intros H HQ w. destruct (H w) as (new & out & Ht & Ho & Hn).
  exists new, out. auto.
Qed.

End Produces.

Ltac produces_step :=
  lazymatch goal with
  | |- produces (_ ≫= _) _ => apply produces_mbind
  | |- produces (bind _ _) _ => apply produces_bind
  | |- produces (catch _ _) _ => apply produces_catch
  | |- produces (print _) _ => apply produces_print
  | |- produces (ret _) _ => apply produces_ret
  | |- produces (raise _) _ => apply produces_raise
  | |- produces (lift _) _ => apply produces_lift
  | |- produces (external _ _) _ => apply produces_external; intros [?|?]
  | |- produces (observe _ _) _ => apply produces_observe; intros ?
  end.

Lemma accepted_app a b : accepted (a ++ b) = accepted a ++ accepted b.
Proof. apply omap_app. Qed.

Lemma result_lines_app a b :
  result_lines (a ++ b) = result_lines a ++ result_lines b.
Proof. apply omap_app. Qed.

Create Rewrite HintDb out_db.
#[export] Hint Rewrite accepted_app result_lines_app add_requests_app
  docs_read_app @app_nil_r @app_nil_l : out_db.

Ltac out_simpl :=
  autorewrite with out_db;
  cbn [accepted result_lines add_requests docs_read omap list_omap
       accepted_of result_line_of add_request_of docs_read_of app];
  autorewrite with out_db.

Lemma emits_conj {Ext A} (m : M Ext A) (P Q : result A → list event → Prop) :
  emits m P → emits m Q → emits m (λ r new, P r new ∧ Q r new).
Proof.
  intros HP HQ w.
  destruct (HP w) as (n1 & H1 & Hp). destruct (HQ w) as (n2 & H2 & Hq).
  assert (n1 = n2) as ->.
  { rewrite H1 in H2. by apply app_inv_head in H2. }
  by exists n2.
Qed.


Ltac footprint_done :=
  cbn [app];
  repeat match goal with
         | |- Forall _ [] => apply Forall_nil_2
         | |- Forall _ (_ :: _) =>
             apply Forall_cons_2; [first [cbn [ingestion_call]; done | done]|]
         | |- Forall _ (_ ++ _) => apply Forall_app; split
         | |- Forall _ _ => assumption
         end.

Section IngestionCalls.
Context {Ext : Type} (svc : services Ext) (cfg : config).
Variable repr_opaque : value → string.

Lemma create_embedding_footprint text :
  emits (create_embedding svc cfg text)
        (λ _ new, Forall (ingestion_call cfg) new).
Proof.
  unfold create_embedding, first_embedding.
  emits_step. emits_call as [err|data]; [footprint_done|].
  destruct data; emits_step; footprint_done.
Qed.

Lemma process_docs_footprint total docs :
  ∀ i acc,
  emits (fold_enumerate (process_doc svc cfg repr_opaque total) i docs acc)
        (λ _ new, Forall (ingestion_call cfg) new).
Proof.
  induction docs as [|doc rest IH]; intros i acc; cbn [fold_enumerate].
  - emits_step. footprint_done.
  - emits_step. unfold process_doc at 1. emits_step. emits_step.
    destruct (build_text_for_embedding repr_opaque doc); [footprint_done|].
    emits_step. eapply emits_conseq; [apply create_embedding_footprint|].
    intros [err|e] new1 H1; [footprint_done|].
    emits_step.
    destruct ((i + 1) `mod` 100 =? 0); emits_step; emits_step;
      (eapply emits_conseq; [apply IH|]); intros r new2 H2; footprint_done.
Qed.

Lemma add_batches_footprint acc batch_size total_batches starts :
  emits (for_each starts (add_batch svc cfg acc batch_size total_batches))
        (λ _ new, Forall (ingestion_call cfg) new).
Proof.
  induction starts as [|i rest IH]; cbn [for_each].
  - emits_step. footprint_done.
  - emits_step. unfold add_batch at 1. emits_step.
    emits_call as [err|[]]; [footprint_done|]. emits_step.
    eapply emits_conseq; [apply IH|]. intros r new H. footprint_done.
Qed.

Lemma store_embeddings_footprint_emits :
  emits (store_embeddings svc cfg repr_opaque)
        (λ _ new, Forall (ingestion_call cfg) new).
Proof.
  unfold store_embeddings.
  emits_step. emits_step. emits_step.
  eapply emits_conseq; [apply create_embedding_footprint|].
  intros [err|sample] new0 H0; [footprint_done|]. cbv zeta.
  emits_step. emits_step. emits_step. emits_step; [footprint_done|].
  emits_step. emits_step; [footprint_done|].
  emits_step.
  assert (Hopen : emits (open_collection svc cfg)
                    (λ _ new, Forall (ingestion_call cfg) new)).
  { unfold open_collection. repeat emits_step; footprint_done. }
  eapply emits_conseq; [apply Hopen|].
  intros [err|[]] new1 H1; [footprint_done|].
  emits_step.
  assert (Hload : emits (load_docs svc cfg)
                    (λ _ new, Forall (ingestion_call cfg) new)).
  { unfold load_docs. emits_step. emits_read as found.
    destruct found; simpl; emits_step; footprint_done. }
  eapply emits_conseq; [apply Hload|].
  intros [err|docs] new2 H2; [footprint_done|].
  emits_step. emits_step. emits_step.
  eapply emits_conseq; [apply process_docs_footprint|].
  intros [err|acc] new3 H3; [footprint_done|].
  emits_step. unfold add_in_batches. cbv zeta. emits_step. emits_step.
  eapply emits_conseq; [apply add_batches_footprint|].
  intros [err|[]] new4 H4; [footprint_done|].
  unfold report_final_count, abspath_of. repeat emits_step; footprint_done.
Qed.

(** X10: a run of [store_embeddings], however it ends, never deletes a
    collection and never queries one; every store call it makes
    addresses the configured collection, a collection it creates is
    created with the cosine space, every provider call uses the
    configured model, and the only files it touches are the store
    directory and the input file. *)
Theorem store_embeddings_footprint (w : world Ext) :
  ∃ new,
    trace (store_embeddings svc cfg repr_opaque w).2 = trace w ++ new
    ∧ Forall (ingestion_call cfg) new.
Proof. apply store_embeddings_footprint_emits. Qed.

End IngestionCalls.

(** ** The provider calls of an ingestion run *)

Section ProviderCalls.
Context {Ext : Type} (svc : services Ext) (cfg : config).
Variable repr_opaque : value → string.

Local Abbreviation no_embed new :=
  (embed_inputs new = [] ∧ Forall (λ ev, embed_failed ev = false) new).

Lemma open_collection_no_embed :
  emits (open_collection svc cfg) (λ _ new, no_embed new).
Proof.
  unfold open_collection. repeat emits_step; (split; [done|footprint_done]).
Qed.

Lemma load_docs_no_embed :
  emits (load_docs svc cfg) (λ _ new, no_embed new).
Proof.
  unfold load_docs. emits_step. emits_read as found.
  destruct found; simpl; emits_step; (split; [done|footprint_done]).
Qed.

Lemma add_in_batches_no_embed acc :
  emits (add_in_batches svc cfg acc) (λ _ new, no_embed new).
Proof.
  unfold add_in_batches. cbv zeta. emits_step. emits_step.
  generalize (py_range 0 (length (ids acc)) 100) as starts.
  induction starts as [|i rest IH]; cbn [for_each].
  - emits_step. split; [done|footprint_done].
  - emits_step. unfold add_batch at 1. emits_step.
    emits_call as [err|[]]; [split; [done|footprint_done]|]. emits_step.
    eapply emits_conseq; [apply IH|]. intros r new [Hin Hok].
    cbn [app] in *. split; [by trace_simpl|footprint_done].
Qed.

Lemma report_final_count_no_embed :
  emits (report_final_count svc cfg) (λ _ new, no_embed new).
Proof.
  unfold report_final_count, abspath_of.
  repeat emits_step; (split; [done|footprint_done]).
Qed.

Lemma process_docs_embeds_ok total docs :
  ∀ i acc,
  emits (fold_enumerate (process_doc svc cfg repr_opaque total) i docs acc)
        (λ r new, is_raise r = false →
                  Forall (λ ev, embed_failed ev = false) new).
Proof.
  induction docs as [|doc rest IH]; intros i acc; cbn [fold_enumerate].
  - emits_step. intros _. footprint_done.
  - emits_step. eapply emits_conseq; [apply process_doc_emits|].
    intros [err|acc1] new1 (_ & _ & H1); [done|].
    destruct (H1 acc1 eq_refl) as (t & e & data & _ & -> & _).
    eapply emits_conseq; [apply IH|]. intros r new2 H2 Hr.
    specialize (H2 Hr). footprint_done.
Qed.

Lemma store_embeddings_provider_emits :
  emits (store_embeddings svc cfg repr_opaque)
    (λ r new,
       (r ≠ Ok tt ∧ add_requests new = [])
       ∨ ∃ docs texts,
           docs_read new = [docs]
           ∧ Forall2 (λ doc t, build_text_for_embedding repr_opaque doc = Ok t)
                     docs texts
           ∧ embed_inputs new = "sample" :: (sent_text <$> texts)
           ∧ Forall (λ ev, embed_failed ev = false) new).
Proof.
  unfold store_embeddings.
  emits_step. emits_step. emits_step.
  eapply emits_conseq; [apply create_embedding_emits|].
  intros [err|sample] new0 (Hadd0 & Hread0 & H0); [by left|].
  destruct (H0 _ eq_refl) as [data0 ->]. clear Hadd0 Hread0 H0. cbv zeta.
  emits_step. emits_step. emits_step. emits_step; [by left|].
  emits_step. emits_step; [by left|].
  emits_step.
  eapply emits_conseq;
    [apply (emits_conj _ _ _ (open_collection_emits _ _) open_collection_no_embed)|].
  intros [err|[]] new1 [(Hadd1 & Hread1 & _) (Hin1 & Hok1)].
  { left. split; [done|]. trace_simpl. by rewrite Hadd1. }
  emits_step.
  eapply emits_conseq;
    [apply (emits_conj _ _ _ (load_docs_emits _ _) load_docs_no_embed)|].
  intros [err|docs] new2 [(Hadd2 & _ & H2) (Hin2 & Hok2)].
  { left. split; [done|]. trace_simpl. by rewrite Hadd1, Hadd2. }
  specialize (H2 _ eq_refl).
  emits_step. emits_step. emits_step.
  eapply emits_conseq;
    [apply (emits_conj _ _ _ (process_docs_emits _ _ _ _ _ _ _)
                             (process_docs_embeds_ok _ _ _ _))|].
  intros [err|acc] new3 [(Hadd3 & Hread3 & H3) Hok3].
  { left. split; [done|]. trace_simpl. by rewrite Hadd1, Hadd2, Hadd3. }
  destruct (H3 _ eq_refl) as (texts & embs & Hall & _ & _ & _ & Hin3).
  specialize (Hok3 eq_refl).
  emits_step.
  eapply emits_conseq;
    [apply (emits_conj _ _ _ (add_in_batches_emits _ _ _)
                             (add_in_batches_no_embed _))|].
  intros [err|[]] new4 [(_ & Hread4 & _ & _) (Hin4 & Hok4)].
  { right. exists docs, texts. trace_simpl.
    rewrite Hread1, Hin1, H2, Hin2, Hread3, Hin3, Hread4, Hin4.
    trace_simpl. do 3 (split; [done|]). footprint_done. }
  eapply emits_conseq;
    [apply (emits_conj _ _ _ (report_final_count_emits _ _)
                             report_final_count_no_embed)|].
  intros r new5 [(_ & Hread5 & _) (Hin5 & Hok5)].
  right. exists docs, texts. trace_simpl.
  rewrite Hread1, Hin1, H2, Hin2, Hread3, Hin3, Hread4, Hin4, Hread5, Hin5.
  trace_simpl. do 3 (split; [done|]). footprint_done.
Qed.

(** X11: a run that completes has called the provider once for the
    sample text ["sample"] and then exactly once per record, in input
    order, each time with that record's text blob, or a single space
    when the blob is empty; it reads the input file once. *)
Theorem store_embeddings_one_call_per_record (w : world Ext) :
  (store_embeddings svc cfg repr_opaque w).1 = Ok tt →
  ∃ new docs texts,
    trace (store_embeddings svc cfg repr_opaque w).2 = trace w ++ new
    ∧ docs_read new = [docs]
    ∧ Forall2 (λ doc t, build_text_for_embedding repr_opaque doc = Ok t)
              docs texts
    ∧ embed_inputs new = "sample" :: (sent_text <$> texts)
    ∧ length (embed_inputs new) = S (length docs).
Proof.
  intros Hok. destruct (store_embeddings_provider_emits w) as (new & Ht & Hnew).
  destruct Hnew as [[Hbad _]|(docs & texts & Hread & Hall & Hin & _)];
    [contradiction|].
  exists new, docs, texts. do 4 (split; [done|]).
  rewrite Hin. simpl. rewrite length_fmap. f_equal. symmetry.
  by eapply Forall2_length.
Qed.

(** X12: if any provider call of a run fails, by raising or by
    answering without a vector, the run raises and has written nothing:
    no [collection.add] request is recorded. *)
Theorem store_embeddings_provider_failure_writes_nothing (w : world Ext) :
  ∃ new,
    trace (store_embeddings svc cfg repr_opaque w).2 = trace w ++ new
    ∧ (Exists (λ ev, embed_failed ev = true) new →
       (store_embeddings svc cfg repr_opaque w).1 ≠ Ok tt
       ∧ add_requests new = []).
Proof.
  destruct (store_embeddings_provider_emits w) as (new & Ht & Hnew).
  exists new. split; [done|]. intros Hex.
  destruct Hnew as [Hstop|(docs & texts & _ & _ & _ & Hall)]; [done|].
  exfalso. apply Exists_exists in Hex as (ev & Hev & Hfail).
  rewrite Forall_forall in Hall. specialize (Hall ev Hev). congruence.
Qed.

End ProviderCalls.

(** ** Opening the collection and loading the input *)

Section SetupFacts.
Context {Ext : Type} (svc : services Ext) (cfg : config).
Variable repr_opaque : value → string.

Lemma open_collection_shapes_emits :
  emits (open_collection svc cfg)
    (λ r new,
       (∃ n, new = [EvGetCollection (CHROMA_COLLECTION_NAME cfg) (Ok tt);
                    EvCount (CHROMA_COLLECTION_NAME cfg) (Ok n)]
             ∧ r = Ok tt)
       ∨ (∃ e, new = [EvGetCollection (CHROMA_COLLECTION_NAME cfg) (Raise e);
                      EvCreateCollection (CHROMA_COLLECTION_NAME cfg)
                        {[ "hnsw:space" := VStr "cosine" ]} r])
       ∨ (∃ e, new = [EvGetCollection (CHROMA_COLLECTION_NAME cfg) (Ok tt);
                      EvCount (CHROMA_COLLECTION_NAME cfg) (Raise e);
                      EvCreateCollection (CHROMA_COLLECTION_NAME cfg)
                        {[ "hnsw:space" := VStr "cosine" ]} r])).
Proof.
  unfold open_collection.
  repeat emits_step;
    repeat match goal with u : () |- _ => destruct u end;
    first [ left; by eexists
          | right; left; by eexists
          | right; right; by eexists ].
Qed.

(** X14: [store_embeddings] opens its collection in one of three ways
    and no other.  A collection that is found and counted is reused as it
    is: nothing is created, cleared or deleted.  When the lookup fails
    the collection is created with the cosine space, and the outcome of
    the creation is the outcome of the step; the same happens when the
    lookup succeeds but counting fails. *)
Theorem open_collection_reuses_or_creates (w : world Ext) :
  ∃ new,
    trace (open_collection svc cfg w).2 = trace w ++ new
    ∧ ((∃ n, new = [EvGetCollection (CHROMA_COLLECTION_NAME cfg) (Ok tt);
                    EvCount (CHROMA_COLLECTION_NAME cfg) (Ok n)]
             ∧ (open_collection svc cfg w).1 = Ok tt)
       ∨ (∃ e, new = [EvGetCollection (CHROMA_COLLECTION_NAME cfg) (Raise e);
                      EvCreateCollection (CHROMA_COLLECTION_NAME cfg)
                        {[ "hnsw:space" := VStr "cosine" ]}
                        (open_collection svc cfg w).1])
       ∨ (∃ e, new = [EvGetCollection (CHROMA_COLLECTION_NAME cfg) (Ok tt);
                      EvCount (CHROMA_COLLECTION_NAME cfg) (Raise e);
                      EvCreateCollection (CHROMA_COLLECTION_NAME cfg)
                        {[ "hnsw:space" := VStr "cosine" ]}
                        (open_collection svc cfg w).1])).
Proof. apply open_collection_shapes_emits. Qed.









End SetupFacts.

(** ** More on retrieval *)

Section RetrievalMore.
Context {Ext : Type} (svc : services Ext) (cfg : config).

(** X15: when the store directory does not exist, retrieval raises
    [ValueError] with a message that names the directory, before any
    provider or store call: the only thing recorded is the check of the
    directory, and nothing is printed. *)
Theorem retrieve_missing_store_path (query : string) (top_k : Z) (w : world Ext) :
  path_exists svc (CHROMA_DB_PATH cfg) (ext w) = false →
  retrieve_similar_chunks svc cfg query top_k w
  = (Raise (Exn ValueError (path_not_found_msg cfg)),
     World (ext w) (trace w ++ [EvPathExists (CHROMA_DB_PATH cfg) false])
           (stdout w))
  ∧ PyStr.contains (CHROMA_DB_PATH cfg) (path_not_found_msg cfg) = true.
Proof.
  intros Hpath. split.
  - unfold retrieve_similar_chunks, mbind, M_bind, bind, observe, raise.
    simpl. by rewrite Hpath.
  - apply contains_middle.
Qed.

Lemma retrieve_calls_emits query top_k :
  emits (retrieve_similar_chunks svc cfg query top_k)
    (λ r new,
       ∃ found r1 r2 r3 emb r4,
         new `prefix_of`
           [EvPathExists (CHROMA_DB_PATH cfg) found;
            EvEmbed (EMBEDDING_MODEL cfg)
                    (PyStr.replace_char PyStr.LF " " query) r1;
            EvClient (CHROMA_DB_PATH cfg) r2;
            EvGetCollection (CHROMA_COLLECTION_NAME cfg) r3;
            EvQuery (CHROMA_COLLECTION_NAME cfg) [emb] top_k query_include r4]
         ∧ ∀ chunks, r = Ok chunks →
             ∃ data results,
               found = true ∧ r1 = Ok (emb :: data) ∧ r2 = Ok tt ∧ r3 = Ok tt
               ∧ r4 = Ok results
               ∧ new = [EvPathExists (CHROMA_DB_PATH cfg) found;
                        EvEmbed (EMBEDDING_MODEL cfg)
                                (PyStr.replace_char PyStr.LF " " query) r1;
                        EvClient (CHROMA_DB_PATH cfg) r2;
                        EvGetCollection (CHROMA_COLLECTION_NAME cfg) r3;
                        EvQuery (CHROMA_COLLECTION_NAME cfg) [emb] top_k
                                query_include r4]
               ∧ format_results results = Ok chunks).
Proof.
  unfold retrieve_similar_chunks, get_embedding, first_embedding.
  emits_step. emits_read as found. destruct found; simpl.
  2: { emits_step.
       exists false, (Ok []), (Ok tt), (Ok tt), [], (Raise (Exn ValueError "")).
       split; [by eexists | discriminate]. }
  emits_step. emits_step. emits_call as [err|data].
  { exists true, (Raise err), (Ok tt), (Ok tt), [],
      (Raise (Exn ValueError "")).
    split; [by eexists | discriminate]. }
  destruct data as [|emb data]; emits_step.
  { exists true, (Ok []), (Ok tt), (Ok tt), [], (Raise (Exn ValueError "")).
    split; [by eexists | discriminate]. }
  emits_step. emits_call as [err|[]].
  { exists true, (Ok (emb :: data)), (Raise err), (Ok tt), emb,
      (Raise (Exn ValueError "")).
    split; [by eexists | discriminate]. }
  emits_step. emits_step. emits_call as [err|[]].
  { emits_step.
    exists true, (Ok (emb :: data)), (Ok tt), (Raise err), emb,
      (Raise (Exn ValueError "")).
    split; [by eexists | discriminate]. }
  emits_step. emits_call as [err|results].
  { exists true, (Ok (emb :: data)), (Ok tt), (Ok tt), emb, (Raise err).
    split; [by eexists | discriminate]. }
  emits_step.
  exists true, (Ok (emb :: data)), (Ok tt), (Ok tt), emb, (Ok results).
  split; [by exists [] |]. intros chunks Hc. exists data, results.
  do 6 (split; [done|]). by destruct (format_results results); simplify_eq.
Qed.

(** X16: whatever happens, retrieval makes at most five calls, in this
    order: the check of the store directory, one provider call with the
    query's newlines replaced by spaces, opening the store client,
    looking up the configured collection, and one query of that
    collection with [top_k] and the documents, metadatas and distances
    columns.  It never adds, creates or deletes anything. *)
Theorem retrieve_calls (query : string) (top_k : Z) (w : world Ext) :
  ∃ new found r1 r2 r3 emb r4,
    trace (retrieve_similar_chunks svc cfg query top_k w).2 = trace w ++ new
    ∧ new `prefix_of`
        [EvPathExists (CHROMA_DB_PATH cfg) found;
         EvEmbed (EMBEDDING_MODEL cfg)
                 (PyStr.replace_char PyStr.LF " " query) r1;
         EvClient (CHROMA_DB_PATH cfg) r2;
         EvGetCollection (CHROMA_COLLECTION_NAME cfg) r3;
         EvQuery (CHROMA_COLLECTION_NAME cfg) [emb] top_k query_include r4].
Proof.
  destruct (retrieve_calls_emits query top_k w)
    as (new & Ht & found & r1 & r2 & r3 & emb & r4 & Hpre & _).
  by exists new, found, r1, r2, r3, emb, r4.
Qed.

(** X17: a retrieval that returns has made all five calls with success:
    the vector it sends to the store is the first vector of the
    provider's answer for the query, and the chunks it returns are built
    from the store's answer to that one query. *)
Theorem retrieve_success_trace
    (query : string) (top_k : Z) (w : world Ext) (chunks : list chunk) :
  (retrieve_similar_chunks svc cfg query top_k w).1 = Ok chunks →
  ∃ emb data results,
    trace (retrieve_similar_chunks svc cfg query top_k w).2
    = trace w
      ++ [EvPathExists (CHROMA_DB_PATH cfg) true;
          EvEmbed (EMBEDDING_MODEL cfg)
                  (PyStr.replace_char PyStr.LF " " query)
                  (Ok (emb :: data));
          EvClient (CHROMA_DB_PATH cfg) (Ok tt);
          EvGetCollection (CHROMA_COLLECTION_NAME cfg) (Ok tt);
          EvQuery (CHROMA_COLLECTION_NAME cfg) [emb] top_k query_include
                  (Ok results)]
    ∧ format_results results = Ok chunks.
Proof.
  intros Hok.
  destruct (retrieve_calls_emits query top_k w)
    as (new & Ht & found & r1 & r2 & r3 & emb & r4 & _ & Hnew).
  destruct (Hnew chunks Hok)
    as (data & results & -> & -> & -> & -> & -> & -> & Hfmt).
  by exists emb, data, results.
Qed.

End RetrievalMore.

(** ** More on result shaping *)



(** X19: when the store's answer has no distances column every chunk
    gets similarity 1.0, and a result ranked beyond the end of a short
    distances row gets similarity 0.0; the number of chunks is always
    the number of documents of the first row. *)
Theorem format_results_missing_distances
    (results : query_result) (chunks : list chunk)
    (documents : list (option string)) (rest : list (list (option string))) :
  format_results results = Ok chunks →
  qr_documents results = Some (documents :: rest) →
  length chunks = length documents
  ∧ (qr_distances results = None ∨ qr_distances results = Some [] →
     ∀ i c, chunks !! i = Some c → similarity c = 1%float)
  ∧ (∀ drow drest i c,
       qr_distances results = Some (drow :: drest) →
       chunks !! i = Some c → length drow ≤ i →
       similarity c = 0%float).
Proof.
  intros Hfmt Hdocs. unfold format_results in Hfmt. rewrite Hdocs in Hfmt.
  destruct (chunks_from_spec _ _ _ _ _ Hfmt) as [Hlen Hall].
  split; [done|]. split.
  - intros Hd i c Hc. destruct (Hall i c Hc) as [-> _].
    assert (Hrow : first_row (qr_distances results)
                     (replicate (length documents) 0%float)
                   = replicate (length documents) 0%float).
    { by destruct Hd as [->| ->]. }
    rewrite Hrow. simpl.
    assert (Hlt : i < length documents).
    { rewrite <- Hlen. by eapply lookup_lt_Some. }
    by rewrite (lookup_replicate_2 _ _ _ Hlt).
  - intros drow drest i c Hd Hc Hi. destruct (Hall i c Hc) as [-> _].
    rewrite Hd. simpl. by rewrite (lookup_ge_None_2 _ _ Hi).
Qed.

(** ** The command line tool *)

Section AdminFactsMore.
Context {Ext : Type} (svc : services Ext) (asvc : admin_services Ext).
Context (cfg : config).

Lemma list_one_run name (s : admin_state Ext) :
  list_one svc name s
  = (Ok tt,
     AdminState (collection_count svc name (aext s)).2
       (acalls s ++ [Store (EvCount name (collection_count svc name (aext s)).1)])
       (aout s ++ listing_block name (collection_count svc name (aext s)).1)).
Proof.
  unfold list_one, acatch, mbind, AM_bind, abind, lift_base, external, say.
  simpl. destruct (collection_count svc name (aext s)) as [[e|n] x]; simpl;
    by rewrite <- !app_assoc.
Qed.

Lemma list_loop_run names :
  ∀ s : admin_state Ext,
  ∃ counts,
    length counts = length names
    ∧ (afor_each names (list_one svc) s).1 = Ok tt
    ∧ acalls (afor_each names (list_one svc) s).2
      = acalls s ++ zip_with (λ n c, Store (EvCount n c)) names counts
    ∧ aout (afor_each names (list_one svc) s).2
      = aout s ++ concat (zip_with listing_block names counts).
Proof.
  induction names as [|name rest IH]; intros s.
  - exists []. simpl. by rewrite !app_nil_r.
  - cbn [afor_each]. unfold abind. rewrite list_one_run.
    set (s1 := AdminState _ _ _).
    destruct (IH s1) as (counts & Hlen & Hok & Hcalls & Hout).
    exists ((collection_count svc name (aext s)).1 :: counts).
    split; [simpl; by rewrite Hlen|]. split; [done|].
    rewrite Hcalls, Hout. subst s1. cbn [acalls aout zip_with concat].
    by rewrite <- !app_assoc.
Qed.

Lemma list_collections_run (s : admin_state Ext) :
  (list_collections svc asvc s).1 = Ok tt
  ∧ ∃ r,
      match r with
      | Raise e =>
          acalls (list_collections svc asvc s).2
          = acalls s ++ [ListCollections (Raise e)]
          ∧ aout (list_collections svc asvc s).2
            = aout s ++ [LListHeader; LListError (exn_str e)]
      | Ok names =>
          ∃ counts,
            length counts = length names
            ∧ acalls (list_collections svc asvc s).2
              = acalls s
                ++ ListCollections (Ok names)
                   :: zip_with (λ n c, Store (EvCount n c)) names counts
            ∧ aout (list_collections svc asvc s).2
              = aout s
                ++ LListHeader
                   :: match names with
                      | [] => [LNoCollections]
                      | _ => concat (zip_with listing_block names counts)
                      end
      end.
Proof.
  unfold list_collections, acatch, mbind, AM_bind, abind, acall, say.
  cbn [aext acalls aout].
  destruct (list_collection_names asvc (aext s)) as [[e|names] x].
  - split; [done|]. exists (Raise e). cbn [acalls aout fst snd].
    by rewrite <- !app_assoc.
  - destruct names as [|name rest].
    + split; [done|]. exists (Ok []). exists []. cbn [acalls aout fst snd].
      by rewrite <- !app_assoc.
    + set (s1 := AdminState x _ _).
      destruct (list_loop_run (name :: rest) s1)
        as (counts & Hlen & Hok & Hcalls & Hout).
      destruct (afor_each (name :: rest) (list_one svc) s1) as [r s2].
      cbn [fst snd] in Hok, Hcalls, Hout. subst r. cbn [fst snd].
      split; [done|].
      exists (Ok (name :: rest)), counts. split; [done|].
      rewrite Hcalls, Hout. subst s1. cbn [acalls aout].
      by rewrite <- !app_assoc.
Qed.


(** X20: [list_collections] never raises.  When the store lists its
    collections, each one is counted exactly once, in the listed order,
    and gets its own three lines whether or not its count succeeds: a
    failing count is reported on that collection's lines and the
    listing goes on.  An empty store and a failing listing are each
    reported on one line.  Nothing but the listing and the counts is
    asked of the store. *)
Theorem list_collections_reports_every_collection (s : admin_state Ext) :
  (list_collections svc asvc s).1 = Ok tt
  ∧ ∃ r,
      match r with
      | Raise e =>
          acalls (list_collections svc asvc s).2
          = acalls s ++ [ListCollections (Raise e)]
          ∧ aout (list_collections svc asvc s).2
            = aout s ++ [LListHeader; LListError (exn_str e)]
      | Ok names =>
          ∃ counts,
            length counts = length names
            ∧ acalls (list_collections svc asvc s).2
              = acalls s
                ++ ListCollections (Ok names)
                   :: zip_with (λ n c, Store (EvCount n c)) names counts
            ∧ aout (list_collections svc asvc s).2
              = aout s
                ++ LListHeader
                   :: match names with
                      | [] => [LNoCollections]
                      | _ => concat (zip_with listing_block names counts)
                      end
      end.
Proof. apply list_collections_run. Qed.

Lemma sample_metadata_run name (s : admin_state Ext) :
  ∃ r3 lines,
    sample_metadata asvc name s
    = (Ok tt,
       AdminState (collection_peek asvc name 1 (aext s)).2
                  (acalls s ++ [Peek name 1 r3]) (aout s ++ lines)).
Proof.
  unfold sample_metadata, acatch, mbind, AM_bind, abind, acall, say, aret.
  destruct (collection_peek asvc name 1 (aext s)) as [[e3|[pk]] x3];
    cbn [aext acalls aout fst snd pk_metadatas].
  { by exists (Raise e3), [LMetadataError (exn_str e3)]. }
  destruct pk as [[|[md|] rows]|]; cbn [aext acalls aout fst snd].
  - eexists _, []. by rewrite app_nil_r.
  - by eexists _, [_].
  - by eexists _, [_].
  - eexists _, []. by rewrite app_nil_r.
Qed.

Lemma describe_collection_run name (s : admin_state Ext) :
  (describe_collection svc asvc cfg name s).1 = Ok tt
  ∧ ∃ new r1 r2 r3 r4,
      acalls (describe_collection svc asvc cfg name s).2 = acalls s ++ new
      ∧ new `prefix_of` [Store (EvGetCollection name r1);
                         Store (EvCount name r2); Peek name 1 r3;
                         Store (EvAbspath (CHROMA_DB_PATH cfg) r4)]
      ∧ ((∃ e, r1 = Raise e
               ∧ new = [Store (EvGetCollection name r1)]
               ∧ last (aout (describe_collection svc asvc cfg name s).2)
                 = Some (LError (exn_str e)))
         ∨ (∃ e, r1 = Ok tt ∧ r2 = Raise e
                 ∧ new = [Store (EvGetCollection name r1);
                          Store (EvCount name r2)]
                 ∧ last (aout (describe_collection svc asvc cfg name s).2)
                   = Some (LError (exn_str e)))
         ∨ (∃ n, r1 = Ok tt ∧ r2 = Ok n
                 ∧ new = [Store (EvGetCollection name r1);
                          Store (EvCount name r2); Peek name 1 r3;
                          Store (EvAbspath (CHROMA_DB_PATH cfg) r4)]
                 ∧ last (aout (describe_collection svc asvc cfg name s).2)
                   = Some match r4 with
                          | Ok path => LDatabasePath path
                          | Raise e => LError (exn_str e)
                          end)).
Proof.
  unfold describe_collection, acatch, mbind, AM_bind, abind,
    lift_base, abspath_of, external, say.
  cbn [aext acalls aout ext trace stdout].
  destruct (get_collection svc name (aext s)) as [[e1|[]] x1];
    cbn [aext acalls aout ext trace stdout fst snd fmap list_fmap app].
  { split; [done|].
    exists [Store (EvGetCollection name (Raise e1))], (Raise e1), (Ok 0),
      (Raise e1), (Raise e1).
    split; [done|]. split; [by eexists|]. left. exists e1.
    do 2 (split; [done|]). by rewrite last_snoc. }
  destruct (collection_count svc name x1) as [[e2|n] x2];
    cbn [aext acalls aout ext trace stdout fst snd fmap list_fmap app].
  { split; [done|].
    exists [Store (EvGetCollection name (Ok tt));
            Store (EvCount name (Raise e2))], (Ok tt), (Raise e2), (Raise e2),
      (Raise e2).
    split; [by rewrite <- !app_assoc|]. split; [by eexists|].
    right. left. exists e2.
    do 3 (split; [done|]). by rewrite last_snoc. }
  match goal with
  | |- context [sample_metadata asvc name ?s2] =>
      destruct (sample_metadata_run name s2) as (r3 & lines & ->)
  end.
  cbn [aext acalls aout fst snd].
  match goal with
  | |- context [abspath svc (CHROMA_DB_PATH cfg) ?x3] =>
      destruct (abspath svc (CHROMA_DB_PATH cfg) x3) as [e4|path] eqn:Hpath
  end;
    cbn [aext acalls aout ext trace stdout fst snd fmap list_fmap app];
    (split; [done|]).
  - exists [Store (EvGetCollection name (Ok tt)); Store (EvCount name (Ok n));
            Peek name 1 r3; Store (EvAbspath (CHROMA_DB_PATH cfg) (Raise e4))],
      (Ok tt), (Ok n), r3, (Raise e4).
    split; [by rewrite <- !app_assoc|].
    split; [done|]. right. right. exists n. do 3 (split; [done|]).
    by rewrite last_snoc.
  - exists [Store (EvGetCollection name (Ok tt)); Store (EvCount name (Ok n));
            Peek name 1 r3; Store (EvAbspath (CHROMA_DB_PATH cfg) (Ok path))],
      (Ok tt), (Ok n), r3, (Ok path).
    split; [by rewrite <- !app_assoc|].
    split; [done|]. right. right. exists n. do 3 (split; [done|]).
    by rewrite last_snoc.
Qed.





Lemma print_usage_run b (s : admin_state Ext) :
  print_usage b s
  = (Ok tt, AdminState (aext s) (acalls s)
                       (aout s ++ [LUsage b; LUsageList; LUsageDescribe;
                                   LUsageDelete])).
Proof.
  unfold print_usage, mbind, AM_bind, abind, say. simpl.
  by rewrite <- !app_assoc.
Qed.




(** X23: when the store directory does not exist the script stops with
    exit status 1 whatever its arguments: it prints the three lines
    about the missing directory and asks nothing of the store, so even a
    confirmed [delete] deletes nothing. *)
Theorem manage_indexes_missing_store_path
    (argv : list string) (s : admin_state Ext) :
  path_exists svc (CHROMA_DB_PATH cfg) (aext s) = false →
  manage_indexes svc asvc cfg argv s
  = (Ok 1,
     AdminState (aext s)
       (acalls s ++ [Store (EvPathExists (CHROMA_DB_PATH cfg) false)])
       (aout s ++ [LPathMissing (CHROMA_DB_PATH cfg); LPathHintCreate;
                   LPathHintManual])).
Proof.
  intros Hpath.
  unfold manage_indexes, mbind, AM_bind, abind, lift_base, observe, say, aret.
  simpl. rewrite Hpath. simpl. by rewrite !app_nil_r, <- !app_assoc.
Qed.

Lemma delete_collection_returns name confirm (w : world Ext) :
  (delete_collection svc name confirm w).1 = Ok tt.
Proof.
  unfold delete_collection. destruct confirm; simpl; [|done].
  unfold catch, mbind, M_bind, bind, external, print.
  by destruct (delete_collection_by_name svc name (ext w)) as [[e|[]] x].
Qed.

Lemma lift_base_result {A} (m : M Ext A) (s : admin_state Ext) :
  (lift_base m s).1 = (m (World (aext s) [] [])).1.
Proof. unfold lift_base. by destruct (m _). Qed.

Lemma main_returns argv (s : admin_state Ext) :
  (main svc asvc cfg argv s).1 = Ok tt.
Proof.
  assert (((list_collections svc asvc ≫= λ _, print_usage true) s).1 = Ok tt)
    as Hlist.
  { unfold mbind, AM_bind, abind.
    destruct (list_collections_run s) as [H _].
    destruct (list_collections svc asvc s) as [[e|[]] s']; [done|].
    by rewrite print_usage_run. }
  unfold main.
  destruct argv as [|prog [|command rest]]; [done..|].
  destruct (String.eqb command "list"); [apply list_collections_run|].
  destruct rest as [|name rest]; [by rewrite print_usage_run|].
  destruct (String.eqb command "describe"); [apply describe_collection_run|].
  destruct (String.eqb command "delete"); [|by rewrite print_usage_run].
  rewrite lift_base_result. apply delete_collection_returns.
Qed.

(** X27: the exit status of the script depends only on the store
    directory and the client: 1 when the directory does not exist, 0
    when it exists and the client opens, whatever the command and
    whatever the store answers to it; a failing command is reported on
    the output, not by the status.  Only a client that fails to open
    makes the script raise. *)
Theorem manage_indexes_exit_status (argv : list string) (s : admin_state Ext) :
  (manage_indexes svc asvc cfg argv s).1
  = if path_exists svc (CHROMA_DB_PATH cfg) (aext s)
    then match (persistent_client svc (CHROMA_DB_PATH cfg) (aext s)).1 with
         | Ok _ => Ok 0
         | Raise e => Raise e
         end
    else Ok 1.
Proof.
  unfold manage_indexes, mbind, AM_bind, abind, lift_base, observe, external,
    say, aret.
  simpl. destruct (path_exists svc (CHROMA_DB_PATH cfg) (aext s)); simpl;
    [|done].
  destruct (persistent_client svc (CHROMA_DB_PATH cfg) (aext s))
    as [[e|[]] x]; simpl; [done|].
  match goal with
  | |- context [main svc asvc cfg argv ?s1] =>
      pose proof (main_returns argv s1) as Hmain;
      destruct (main svc asvc cfg argv s1) as [[e|[]] s2]
  end; [done | done].
Qed.

End AdminFactsMore.

(** ** The further properties on concrete inputs *)

Lemma listed (k : string) :
  bool_decide (k ∈ fields_in_order) → k ∈ fields_in_order.
Proof. apply bool_decide_unpack. Qed.

Lemma note_not_listed : "note" ∉ fields_in_order.
Proof.
  unfold fields_in_order. intros H.
  repeat (apply elem_of_cons in H as [H|H]; [discriminate|]).
  by apply elem_of_nil in H.
Qed.

Lemma build_text_ignores_other_keys_witness :
  build_text_for_embedding Sim.repr (<["note" := VInt 1]> doc_amoxil)
  = build_text_for_embedding Sim.repr doc_amoxil.
Proof.
  apply (build_text_ignores_other_keys Sim.repr doc_amoxil "note" (VInt 1));
    [exact note_not_listed | discriminate].
Defined.

Lemma build_text_with_field_ignores_id_witness :
  (∃ s, build_text_for_embedding Sim.repr doc_amoxil = Ok s)
  ∧ (∀ v, build_text_for_embedding Sim.repr (<["id" := v]> doc_amoxil)
          = build_text_for_embedding Sim.repr doc_amoxil)
  ∧ build_text_for_embedding Sim.repr (delete "id" doc_amoxil)
    = build_text_for_embedding Sim.repr doc_amoxil.
Proof.
  apply (build_text_with_field_ignores_id Sim.repr doc_amoxil "product_name");
    [apply listed; vm_compute; exact I | vm_compute; reflexivity].
Defined.

Lemma build_text_falsy_field_is_absent_witness :
  build_text_for_embedding Sim.repr (<["brand_name" := VStr ""]> doc_amoxil)
  = build_text_for_embedding Sim.repr (delete "brand_name" doc_amoxil).
Proof.
  apply (build_text_falsy_field_is_absent Sim.repr doc_amoxil "brand_name"
           (VStr ""));
    [apply listed; vm_compute; exact I | reflexivity].
Defined.

Lemma build_text_is_stripped_witness :
  PyStr.lstrip ("Product Name: Amoxil" +:+ PyStr.newline
                +:+ "Strength: 500 mg" +:+ PyStr.newline +:+ "Pack Size: 10")
  = "Product Name: Amoxil" +:+ PyStr.newline +:+ "Strength: 500 mg"
    +:+ PyStr.newline +:+ "Pack Size: 10"
  ∧ (String.length ("Product Name: Amoxil" +:+ PyStr.newline
                    +:+ "Strength: 500 mg" +:+ PyStr.newline
                    +:+ "Pack Size: 10") < 6000 →
     PyStr.strip ("Product Name: Amoxil" +:+ PyStr.newline
                  +:+ "Strength: 500 mg" +:+ PyStr.newline
                  +:+ "Pack Size: 10")
     = "Product Name: Amoxil" +:+ PyStr.newline +:+ "Strength: 500 mg"
       +:+ PyStr.newline +:+ "Pack Size: 10").
Proof.
  apply (build_text_is_stripped Sim.repr doc_amoxil).
  vm_compute. reflexivity.
Defined.

Lemma doc_metadata_has_title_witness :
  ∃ t, doc_metadata ∅ (doc_uid 7 ∅) !! "title" = Some t ∧ truthy t = true.
Proof. apply (doc_metadata_has_title ∅ (doc_uid 7 ∅)). reflexivity. Defined.

Lemma doc_metadata_optional_witness :
  (doc_metadata doc_amoxil (VStr "p1") !! "strength" = Some (VStr "500 mg")
   ↔ doc_amoxil !! "strength" = Some (VStr "500 mg")
     ∧ truthy (VStr "500 mg") = true)
  ∧ (doc_metadata doc_amoxil (VStr "p1") !! "source_id" = Some (VStr "500 mg")
     ↔ doc_amoxil !! "source_url" = Some (VStr "500 mg")
       ∧ truthy (VStr "500 mg") = true).
Proof.
  apply (doc_metadata_optional doc_amoxil (VStr "p1") "strength"
           (VStr "500 mg")).
  apply (bool_decide_unpack _). vm_compute. exact I.
Defined.

Lemma default_ids_distinct_witness :
  NoDup (imap doc_uid [(∅ : dict); ∅; ∅]).
Proof. apply default_ids_distinct. by repeat constructor. Defined.

Lemma store_embeddings_one_call_per_record_witness :
  ∃ new docs texts,
    trace (store_embeddings Sim.svc default_config Sim.repr
             (Sim.start sim_three_docs)).2
    = trace (Sim.start sim_three_docs) ++ new
    ∧ docs_read new = [docs]
    ∧ Forall2 (λ doc t, build_text_for_embedding Sim.repr doc = Ok t)
              docs texts
    ∧ embed_inputs new = "sample" :: (sent_text <$> texts)
    ∧ length (embed_inputs new) = S (length docs).
Proof.
  apply (store_embeddings_one_call_per_record Sim.svc default_config Sim.repr
           (Sim.start sim_three_docs)).
  vm_compute. reflexivity.
Defined.


Example missing_input_is_checked_last :
  trace (store_embeddings sim_svc_no_input default_config Sim.repr
           (Sim.start sim_fresh)).2
  = [EvEmbed "text-embedding-3-small" "sample" (Ok [[1%float; 0%float]]);
     EvMakedirs "./chroma_db" (Ok tt);
     EvClient "./chroma_db" (Ok tt);
     EvGetCollection "medical-vectors" (Raise (Sim.missing "medical-vectors"));
     EvCreateCollection "medical-vectors" cosine_space (Ok tt);
     EvPathExists "new_data.json" false].
Proof. vm_compute. reflexivity. Qed.

Lemma retrieve_missing_store_path_witness :
  retrieve_similar_chunks Sim.svc default_config "fever" 3
    (Sim.start sim_no_store)
  = (Raise (Exn ValueError (path_not_found_msg default_config)),
     World (ext (Sim.start sim_no_store))
           (trace (Sim.start sim_no_store)
            ++ [EvPathExists (CHROMA_DB_PATH default_config) false])
           (stdout (Sim.start sim_no_store)))
  ∧ PyStr.contains (CHROMA_DB_PATH default_config)
                   (path_not_found_msg default_config) = true.
Proof.
  apply (retrieve_missing_store_path Sim.svc default_config "fever" 3
           (Sim.start sim_no_store)).
  vm_compute. reflexivity.
Defined.

Lemma retrieve_success_trace_witness :
  ∃ emb data results,
    trace (retrieve_similar_chunks Sim.svc default_config "fever" 3
             (Sim.start sim_answering)).2
    = trace (Sim.start sim_answering)
      ++ [EvPathExists (CHROMA_DB_PATH default_config) true;
          EvEmbed (EMBEDDING_MODEL default_config)
                  (PyStr.replace_char PyStr.LF " " "fever")
                  (Ok (emb :: data));
          EvClient (CHROMA_DB_PATH default_config) (Ok tt);
          EvGetCollection (CHROMA_COLLECTION_NAME default_config) (Ok tt);
          EvQuery (CHROMA_COLLECTION_NAME default_config) [emb] 3
                  query_include (Ok results)]
    ∧ format_results results
      = Ok [Chunk (VStr "Amoxil") 1; Chunk (VStr "Brufen") 0.9;
            Chunk (VStr "Calpol") 0.5].
Proof.
  apply (retrieve_success_trace Sim.svc default_config "fever" 3
           (Sim.start sim_answering)).
  vm_compute. reflexivity.
Defined.


Lemma format_results_missing_distances_witness :
  length [Chunk (VStr "from metadata") 0.75; Chunk (VStr "") 0;
          Chunk (VStr "Calpol") 0]
  = length [(None : option string); Some ""; Some "Calpol"]
  ∧ (qr_distances fallback_hits = None ∨ qr_distances fallback_hits = Some [] →
     ∀ i c,
       [Chunk (VStr "from metadata") 0.75; Chunk (VStr "") 0;
        Chunk (VStr "Calpol") 0] !! i = Some c →
       similarity c = 1%float)
  ∧ (∀ drow drest i c,
       qr_distances fallback_hits = Some (drow :: drest) →
       [Chunk (VStr "from metadata") 0.75; Chunk (VStr "") 0;
        Chunk (VStr "Calpol") 0] !! i = Some c →
       length drow ≤ i → similarity c = 0%float).
Proof.
  apply (format_results_missing_distances fallback_hits _ _ []);
    [vm_compute; reflexivity | reflexivity].
Defined.


Lemma manage_indexes_missing_store_path_witness :
  manage_indexes Sim.svc sim_admin default_config argv_delete_confirmed
    (admin_start sim_no_store)
  = (Ok 1,
     AdminState (aext (admin_start sim_no_store))
       (acalls (admin_start sim_no_store)
        ++ [Store (EvPathExists (CHROMA_DB_PATH default_config) false)])
       (aout (admin_start sim_no_store)
        ++ [LPathMissing (CHROMA_DB_PATH default_config); LPathHintCreate;
            LPathHintManual])).
Proof.
  apply (manage_indexes_missing_store_path Sim.svc sim_admin default_config
           argv_delete_confirmed (admin_start sim_no_store)).
  vm_compute. reflexivity.
Defined.

Example shaping_with_fallbacks :
  format_results fallback_hits
  = Ok [Chunk (VStr "from metadata") 0.75; Chunk (VStr "") 0;
        Chunk (VStr "Calpol") 0].
Proof. vm_compute. reflexivity. Qed.

Example listing_two_items :
  aout (list_collections Sim.svc sim_admin (admin_start sim_two_items)).2
  = [LListHeader; LName "medical-vectors"; LDocumentCount 2; LBlank].
Proof. vm_compute. reflexivity. Qed.

Example describing_two_items :
  aout (describe_collection Sim.svc sim_admin default_config "medical-vectors"
          (admin_start sim_two_items)).2
  = [LDescribeHeader "medical-vectors"; LDocumentCount 2;
     LMetadataKeys ["title"]; LDatabasePath "/srv/app/chroma_db"].
Proof. vm_compute. reflexivity. Qed.

Example describing_a_missing_collection :
  aout (describe_collection Sim.svc sim_admin default_config "other"
          (admin_start sim_two_items)).2
  = [LError "Collection other does not exist."].
Proof. vm_compute. reflexivity. Qed.

Example delete_without_confirm_on_the_command_line :
  acalls (manage_indexes Sim.svc sim_admin default_config
            ["manage_indexes.py"; "delete"; "medical-vectors"]
            (admin_start sim_two_items)).2
  = [Store (EvPathExists "./chroma_db" true);
     Store (EvClient "./chroma_db" (Ok tt))].
Proof. vm_compute. reflexivity. Qed.

Example describe_without_a_name_prints_usage :
  aout (main Sim.svc sim_admin default_config ["manage_indexes.py"; "describe"]
          (admin_start sim_two_items)).2
  = [LUsage false; LUsageList; LUsageDescribe; LUsageDelete].
Proof. vm_compute. reflexivity. Qed.

(** ** What the programs print *)

(** The multiples of 100 up to [n], as the loop meets them. *)
Lemma progress_lines_hundreds total n :
  omap (progress_line_of total) (seq 0 n)
  = (λ j, MsgProgress (100 * j) total) <$> seq 1 (n / 100).
Proof.
  induction n as [|n IH]; [done|].
  rewrite seq_S, omap_app, IH. cbn [omap list_omap plus].
  unfold progress_line_of.
  pose proof (Nat.div_mod_eq n 100) as Hn.
  pose proof (Nat.mod_upper_bound n 100 ltac:(lia)) as Hn'.
  pose proof (Nat.div_mod_eq (S n) 100) as HS.
  pose proof (Nat.mod_upper_bound (S n) 100 ltac:(lia)) as HS'.
  replace (n + 1) with (S n) by lia.
  destruct (Nat.eqb_spec (S n mod 100) 0) as [H0|H0].
  - assert (S n / 100 = S (n / 100)) as -> by lia.
    rewrite seq_S, fmap_app. cbn [fmap list_fmap plus].
    do 3 f_equal. lia.
  - assert (S n / 100 = n / 100) as -> by lia.
    by rewrite app_nil_r.
Qed.

(** The batch lines are numbered from 1 in the order of the requests. *)
Lemma batch_lines_numbered (acc : prepared) (T n k : nat) :
  (λ i, MsgAddedBatch (i / 100 + 1) T (length (add_ids (batch_at acc 100 i))))
    <$> take k (py_range 0 n 100)
  = imap (batch_line T) (batch_at acc 100 <$> take k (py_range 0 n 100)).
Proof.
  apply list_eq. intros j.
  rewrite list_lookup_fmap, list_lookup_imap, list_lookup_fmap.
  destruct (take k (py_range 0 n 100) !! j) as [i|] eqn:E; [|done].
  apply lookup_take_Some in E as [E _].
  apply range_lookup in E as [-> _].
  cbn [fmap option_fmap option_map]. unfold batch_line.
  rewrite Nat.div_mul by lia. do 2 f_equal. lia.
Qed.

Lemma result_lines_all (l : list message) :
  Forall (λ m, result_line_of m = Some m) l → result_lines l = l.
Proof.
  induction 1 as [|m l Hm _ IH]; [done|].
  unfold result_lines in *. cbn [omap list_omap]. by rewrite Hm, IH.
Qed.

Section OutputFacts.
Context {Ext : Type} (svc : services Ext) (cfg : config).
Variable repr_opaque : value → string.

Ltac no_abspath := footprint_done.

Lemma create_embedding_produces text :
  produces (create_embedding svc cfg text)
    (λ r new out,
       out = [] ∧ accepted new = [] ∧ add_requests new = []
       ∧ docs_read new = []
       ∧ Forall (λ ev, is_abspath ev = false) new).
Proof.
  unfold create_embedding. produces_step.
  apply produces_external; intros [err|data];
    [do 4 (split; [done|]); no_abspath|].
  unfold first_embedding.
  destruct data; produces_step; do 4 (split; [done|]); no_abspath.
Qed.

Lemma open_collection_produces :
  produces (open_collection svc cfg)
    (λ r new out,
       result_lines out = [] ∧ accepted new = [] ∧ add_requests new = []
       ∧ docs_read new = []
       ∧ Forall (λ ev, is_abspath ev = false) new
       ∧ (r = Ok tt → opening (CHROMA_COLLECTION_NAME cfg) new out)).
Proof.
  unfold open_collection.
  produces_step. produces_step.
  apply produces_external; intros [err|[]].
  - produces_step. produces_step. produces_step.
    apply produces_external; intros [err'|[]].
    + do 4 (split; [done|]). split; [no_abspath | done].
    + produces_step. do 4 (split; [done|]). split; [no_abspath|].
      intros _. constructor.
  - produces_step. produces_step. produces_step.
    apply produces_external; intros [err|n].
    + produces_step. produces_step. produces_step.
      apply produces_external; intros [err'|[]].
      * do 4 (split; [done|]). split; [no_abspath | done].
      * produces_step. do 4 (split; [done|]). split; [no_abspath|].
        intros _. constructor.
    + produces_step. do 4 (split; [done|]). split; [no_abspath|].
      intros _. constructor.
Qed.

Lemma load_docs_produces :
  produces (load_docs svc cfg)
    (λ r new out,
       out = [] ∧ accepted new = [] ∧ add_requests new = []
       ∧ Forall (λ ev, is_abspath ev = false) new
       ∧ match r with
         | Ok docs => new = [EvPathExists (INPUT_JSON cfg) true;
                             EvReadJson (INPUT_JSON cfg) (Ok docs)]
         | Raise _ => docs_read new = []
         end).
Proof.
  unfold load_docs. produces_step. apply produces_observe; intros found.
  destruct found; simpl.
  - apply produces_external; intros [err|docs'];
      (do 3 (split; [done|])); (split; [no_abspath | done]).
  - produces_step. do 3 (split; [done|]). split; [no_abspath | done].
Qed.

Lemma process_docs_produces total docs :
  ∀ i acc,
  produces (fold_enumerate (process_doc svc cfg repr_opaque total) i docs acc)
    (λ r new out,
       result_lines out = [] ∧ accepted new = [] ∧ add_requests new = []
       ∧ docs_read new = []
       ∧ Forall (λ ev, is_abspath ev = false) new
       ∧ ∀ acc', r = Ok acc' →
           length (ids acc') = length (ids acc) + length docs
           ∧ out = omap (progress_line_of total) (seq i (length docs))).
Proof.
  induction docs as [|doc rest IH]; intros i acc; cbn [fold_enumerate].
  - produces_step. do 4 (split; [done|]). split; [no_abspath|].
    intros acc' [= <-]. split; [simpl; lia | done].
  - produces_step. unfold process_doc at 1.
    produces_step. produces_step.
    destruct (build_text_for_embedding repr_opaque doc) as [err|t];
      [do 4 (split; [done|]); split; [no_abspath | done]|].
    produces_step.
    eapply produces_conseq; [apply create_embedding_produces|].
    intros [err|e] new0 out0 (-> & Hacc0 & Hadd0 & Hread0 & Hno0).
    { out_simpl. rewrite Hacc0, Hadd0, Hread0.
      do 4 (split; [done|]). split; [no_abspath | done]. }
    produces_step.
    destruct ((i + 1) mod 100 =? 0) eqn:Hi; produces_step; produces_step;
      (eapply produces_conseq; [apply IH|]);
      intros r new2 out2 (Hres & Hacc & Hadd & Hread & Hno & Hok);
      out_simpl; rewrite ?Hres, Hacc0, Hacc, Hadd0, Hadd, Hread0, Hread;
      (do 4 (split; [done|]));
      (split; [no_abspath|]);
      intros acc' Hr;
      destruct (Hok acc' Hr) as [Hlen ->];
      (split; [rewrite Hlen; cbn [ids]; rewrite length_app; simpl; lia|]);
      cbn [length seq omap list_omap]; unfold progress_line_of at 2;
      by rewrite Hi.
Qed.

Lemma add_batches_produces acc total_batches starts :
  produces (for_each starts (add_batch svc cfg acc 100 total_batches))
    (λ r new out,
       docs_read new = []
       ∧ Forall (λ ev, is_abspath ev = false) new
       ∧ ∃ k,
           accepted new = batch_at acc 100 <$> take k starts
           ∧ out = (λ i, MsgAddedBatch (i / 100 + 1) total_batches
                           (length (add_ids (batch_at acc 100 i))))
                   <$> take k starts
           ∧ (r = Ok tt → k = length starts ∧ add_requests new = accepted new)).
Proof.
  induction starts as [|i rest IH]; cbn [for_each].
  - produces_step. split; [done|]. split; [no_abspath|]. by exists 0.
  - produces_step. unfold add_batch at 1. produces_step.
    apply produces_external; intros [err|[]].
    { split; [done|]. split; [no_abspath|]. by exists 0. }
    produces_step.
    eapply produces_conseq; [apply IH|].
    intros r new out (Hread & Hno & k & Hacc & -> & Hok).
    out_simpl. split; [done|].
    split; [no_abspath|]. exists (S k).
    rewrite Hacc. do 2 (split; [done|]). intros Hr.
    destruct (Hok Hr) as [-> Hall]. split; [done|].
    by rewrite Hall, Hacc.
Qed.

Lemma add_in_batches_produces acc :
  produces (add_in_batches svc cfg acc)
    (λ r new out,
       docs_read new = []
       ∧ Forall (λ ev, is_abspath ev = false) new
       ∧ result_lines out
         = imap (batch_line ((length (ids acc) + 99) / 100)) (accepted new)
       ∧ (r = Ok tt →
          add_requests new = accepted new
          ∧ length (accepted new) = (length (ids acc) + 99) / 100
          ∧ out = MsgAdding ((length (ids acc) + 99) / 100)
                  :: imap (batch_line ((length (ids acc) + 99) / 100))
                          (accepted new))).
Proof.
  unfold add_in_batches. cbv zeta.
  replace (length (ids acc) + 100 - 1) with (length (ids acc) + 99) by lia.
  produces_step. produces_step.
  eapply produces_conseq; [apply add_batches_produces|].
  intros r new out (Hread & Hno & k & Hacc & -> & Hok).
  out_simpl. do 2 (split; [done|]).
  rewrite batch_lines_numbered, <- Hacc.
  split.
  - apply result_lines_all, Forall_forall. intros m Hm.
    apply elem_of_lookup_imap in Hm as (j & req & -> & _). done.
  - intros Hr. destruct (Hok Hr) as [-> Hall].
    split; [done|]. split; [|done].
    rewrite Hacc, length_fmap, firstn_all, range_length.
    f_equal. lia.
Qed.

Lemma report_final_count_produces :
  produces (report_final_count svc cfg)
    (λ r new out,
       accepted new = [] ∧ add_requests new = [] ∧ docs_read new = []
       ∧ match r with
         | Ok _ =>
             ∃ n path,
               new = [EvCount (CHROMA_COLLECTION_NAME cfg) (Ok n);
                      EvAbspath (CHROMA_DB_PATH cfg) (Ok path)]
               ∧ out = [MsgAllStored; MsgTotal n; MsgPath path]
         | Raise e =>
             (new = [EvCount (CHROMA_COLLECTION_NAME cfg) (Raise e)]
              ∧ out = [])
             ∨ ∃ n,
                 new = [EvCount (CHROMA_COLLECTION_NAME cfg) (Ok n);
                        EvAbspath (CHROMA_DB_PATH cfg) (Raise e)]
                 ∧ out = [MsgAllStored; MsgTotal n]
         end).
Proof.
  unfold report_final_count, abspath_of. produces_step.
  apply produces_external; intros [err|n].
  { do 3 (split; [done|]). by left. }
  produces_step. produces_step. produces_step. produces_step. produces_step.
  apply produces_external; intros [err|path].
  { do 3 (split; [done|]). right. by exists n. }
  produces_step. do 3 (split; [done|]). by exists n, path.
Qed.

Lemma produces_emits {A} (m : M Ext A) Q1 Q2 :
  emits m Q1 → produces m Q2 →
  produces m (λ r new out, Q1 r new ∧ Q2 r new out).
Proof.
  intros H1 H2 w.
  destruct (H1 w) as (new1 & Ht1 & HQ1).
  destruct (H2 w) as (new & out & Ht & Ho & HQ2).
  rewrite Ht in Ht1. apply app_inv_head in Ht1 as <-.
  by exists new, out.
Qed.

(** What a run of [store_embeddings] prints, next to what it records. *)
Lemma store_embeddings_produces :
  produces (store_embeddings svc cfg repr_opaque)
    (λ r new out,
       ∃ T,
         (∀ docs, docs_read new = [docs] → T = (length docs + 99) / 100)
         ∧ ((result_lines out
             = imap (batch_line T) (accepted new) ++ [MsgAllStored]
             ∧ (r = Ok tt
                ∨ ∃ e, r = Raise e
                       ∧ last new = Some (EvAbspath (CHROMA_DB_PATH cfg)
                                                    (Raise e))))
            ∨ (result_lines out = imap (batch_line T) (accepted new)
               ∧ r ≠ Ok tt
               ∧ Forall (λ ev, is_abspath ev = false) new))
         ∧ (r = Ok tt →
            ∃ docs sample data evs lines middle count path,
              new = [EvEmbed (EMBEDDING_MODEL cfg) "sample"
                             (Ok (sample :: data));
                     EvMakedirs (CHROMA_DB_PATH cfg) (Ok tt);
                     EvClient (CHROMA_DB_PATH cfg) (Ok tt)]
                    ++ evs
                    ++ [EvPathExists (INPUT_JSON cfg) true;
                        EvReadJson (INPUT_JSON cfg) (Ok docs)]
                    ++ middle
                    ++ [EvCount (CHROMA_COLLECTION_NAME cfg) (Ok count);
                        EvAbspath (CHROMA_DB_PATH cfg) (Ok path)]
              ∧ opening (CHROMA_COLLECTION_NAME cfg) evs lines
              ∧ docs_read new = [docs]
              ∧ add_requests new = accepted new
              ∧ length (accepted new) = T
              ∧ out
                = [MsgGettingDimension (EMBEDDING_MODEL cfg);
                   MsgDimension (length sample)]
                  ++ lines
                  ++ [MsgProcessing (length docs)]
                  ++ ((λ j, MsgProgress (100 * j) (length docs))
                        <$> seq 1 (length docs / 100))
                  ++ [MsgAdding T]
                  ++ imap (batch_line T) (accepted new)
                  ++ [MsgAllStored; MsgTotal count; MsgPath path])).
Proof.
  unfold store_embeddings.
  produces_step. produces_step. produces_step.
  eapply produces_conseq;
    [apply produces_emits;
       [apply create_embedding_emits | apply create_embedding_produces]|].
  intros [err|sample] new0 out0
    [(_ & _ & Hnew0) (-> & Hacc0 & Hadd0 & Hread0 & Hno0)].
  { exists 0. out_simpl. rewrite Hacc0, Hread0.
    split; [by intros ? [=]|]. split; [|by intros [=]].
    right. do 2 (split; [done|]). no_abspath. }
  destruct (Hnew0 _ eq_refl) as [data0 ->].
  clear Hnew0 Hacc0 Hadd0 Hread0 Hno0.
  cbv zeta.
  produces_step. produces_step. produces_step.
  apply produces_external; intros [err|[]].
  { exists 0. split; [by intros ? [=]|]. split; [|by intros [=]].
    right. do 2 (split; [done|]). no_abspath. }
  produces_step.
  apply produces_external; intros [err|[]].
  { exists 0. split; [by intros ? [=]|]. split; [|by intros [=]].
    right. do 2 (split; [done|]). no_abspath. }
  produces_step.
  eapply produces_conseq; [apply open_collection_produces|].
  intros [err|[]] new1 lines (Hres1 & Hacc1 & Hadd1 & Hread1 & Hno1 & Hopen).
  { exists 0. out_simpl. rewrite Hres1, Hacc1, Hread1.
    split; [by intros ? [=]|]. split; [|by intros [=]].
    right. do 2 (split; [done|]). no_abspath. }
  specialize (Hopen eq_refl).
  produces_step.
  eapply produces_conseq; [apply load_docs_produces|].
  intros [err|docs] new2 out2 (-> & Hacc2 & Hadd2 & Hno2 & Hread2).
  { exists 0. out_simpl. rewrite Hres1, Hacc1, Hacc2, Hread1, Hread2.
    split; [by intros ? [=]|]. split; [|by intros [=]].
    right. do 2 (split; [done|]). no_abspath. }
  subst new2. clear Hacc2 Hadd2 Hno2.
  produces_step. produces_step. produces_step.
  eapply produces_conseq; [apply process_docs_produces|].
  intros [err|acc] new3 out3 (Hres3 & Hacc3 & Hadd3 & Hread3 & Hno3 & Hok3).
  { exists ((length docs + 99) / 100). out_simpl.
    rewrite Hres1, Hres3, Hacc1, Hacc3, Hread1, Hread3. out_simpl.
    split; [by intros ? [= <-]|]. split; [|by intros [=]].
    right. do 2 (split; [done|]). no_abspath. }
  destruct (Hok3 acc eq_refl) as [Hlen ->]. clear Hok3. simpl in Hlen.
  produces_step.
  eapply produces_conseq; [apply add_in_batches_produces|].
  rewrite Hlen.
  intros [err|[]] new4 out4 (Hread4 & Hno4 & Hres4 & Hok4).
  { exists ((length docs + 99) / 100). out_simpl.
    rewrite Hres1, Hres3, Hres4, Hacc1, Hacc3, Hread1, Hread3, Hread4.
    out_simpl.
    split; [by intros ? [= <-]|]. split; [|by intros [=]].
    right. do 2 (split; [done|]). no_abspath. }
  destruct (Hok4 eq_refl) as (Hall4 & Hcount4 & ->). clear Hok4.
  eapply produces_conseq; [apply report_final_count_produces|].
  intros r new5 out5 (Hacc5 & Hadd5 & Hread5 & Hout5).
  exists ((length docs + 99) / 100).
  split.
  { out_simpl. rewrite Hread1, Hread3, Hread4, Hread5. out_simpl.
    by intros ? [= <-]. }
  match goal with
  | |- context [result_lines ?l] =>
      assert (result_lines l
              = imap (batch_line ((length docs + 99) / 100)) (accepted new4)
                ++ result_lines out5) as Hlines
        by (rewrite !result_lines_app, Hres1, Hres3, Hres4; by out_simpl)
  end.
  match goal with
  | |- context [accepted ?l] =>
      assert (accepted l = accepted new4) as Haccepted
        by (out_simpl; rewrite Hacc1, Hacc3, Hacc5; by out_simpl)
  end.
  rewrite Hlines, Haccepted.
  destruct r as [err|[]].
  - split; [|by intros [=]].
    destruct Hout5 as [[-> ->]|(n & -> & ->)].
    + right. rewrite app_nil_r. do 2 (split; [done|]). no_abspath.
    + left. split; [done|]. right. exists err. split; [done|].
      repeat first [rewrite app_comm_cons | rewrite app_assoc].
      change [EvCount (CHROMA_COLLECTION_NAME cfg) (Ok n);
              EvAbspath (CHROMA_DB_PATH cfg) (Raise err)]
        with ([EvCount (CHROMA_COLLECTION_NAME cfg) (Ok n)]
              ++ [EvAbspath (CHROMA_DB_PATH cfg) (Raise err)]).
      rewrite app_assoc. apply last_snoc.
  - destruct Hout5 as (count & path & -> & ->).
    split; [left; split; [done | by left]|].
    intros _. exists docs, sample, data0, new1, lines, (new3 ++ new4),
      count, path.
    split; [cbn [app]; by rewrite <- !app_assoc|].
    split; [done|].
    split; [out_simpl; by rewrite Hread1, Hread3, Hread4|].
    split; [out_simpl; by rewrite Hadd1, Hadd3, Hall4|].
    split; [done|].
    cbn [app]. rewrite ?app_nil_r, progress_lines_hundreds.
    done.
Qed.

(** X24: the calls and the transcript of a run of [store_embeddings]
    that completes.  The run starts with the provider call for
    ["sample"], makes the store directory and opens the client, opens
    the collection in one of the three ways of [opening], checks and
    reads the input file, and ends with the count and the absolute form
    of the store path.  It prints, in this order: the model and the
    length of the first vector of the provider's answer for
    ["sample"]; the lines of the way the collection was opened, with
    the count the store gave when it was found; the number of records
    read; one progress line after every 100th record (100, 200, ...)
    and none for the rest; the number of batches, which is the number
    of add requests it makes; one line per request, numbered from 1,
    with the number of ids in that request; and the three closing
    lines, with the count the store returned last and the path that
    [os.path.abspath] returned. *)
Theorem store_embeddings_transcript (w : world Ext) :
  (store_embeddings svc cfg repr_opaque w).1 = Ok tt →
  ∃ new docs sample data evs lines middle count path,
    trace (store_embeddings svc cfg repr_opaque w).2 = trace w ++ new
    ∧ new = [EvEmbed (EMBEDDING_MODEL cfg) "sample" (Ok (sample :: data));
             EvMakedirs (CHROMA_DB_PATH cfg) (Ok tt);
             EvClient (CHROMA_DB_PATH cfg) (Ok tt)]
            ++ evs
            ++ [EvPathExists (INPUT_JSON cfg) true;
                EvReadJson (INPUT_JSON cfg) (Ok docs)]
            ++ middle
            ++ [EvCount (CHROMA_COLLECTION_NAME cfg) (Ok count);
                EvAbspath (CHROMA_DB_PATH cfg) (Ok path)]
    ∧ opening (CHROMA_COLLECTION_NAME cfg) evs lines
    ∧ docs_read new = [docs]
    ∧ stdout (store_embeddings svc cfg repr_opaque w).2
      = stdout w
        ++ [MsgGettingDimension (EMBEDDING_MODEL cfg);
            MsgDimension (length sample)]
        ++ lines
        ++ [MsgProcessing (length docs)]
        ++ ((λ j, MsgProgress (100 * j) (length docs))
              <$> seq 1 (length docs / 100))
        ++ [MsgAdding (length (add_requests new))]
        ++ imap (batch_line (length (add_requests new))) (add_requests new)
        ++ [MsgAllStored; MsgTotal count; MsgPath path].
Proof.
  intros Hrun.
  destruct (store_embeddings_produces w)
    as (new & out & Ht & Ho & T & _ & _ & Hok).
  destruct (Hok Hrun)
    as (docs & sample & data & evs & lines & middle & count & path
        & Hnew & Hopen & Hread & Hall & Hlen & ->).
  exists new, docs, sample, data, evs, lines, middle, count, path.
  do 4 (split; [done|]).
  by rewrite Ho, Hall, Hlen.
Qed.


Lemma retrieve_produces query top_k :
  produces (retrieve_similar_chunks svc cfg query top_k)
    (λ r new out, out = []).
Proof.
  unfold retrieve_similar_chunks, get_embedding, first_embedding.
  produces_step. apply produces_observe; intros found.
  destruct found; simpl; [|by produces_step].
  produces_step. produces_step.
  apply produces_external; intros [err|[|emb data]]; [done| |].
  { by produces_step. }
  produces_step. produces_step.
  apply produces_external; intros [err|[]]; [done|].
  produces_step. produces_step.
  apply produces_external; intros [err|[]].
  { by produces_step. }
  produces_step.
  apply produces_external; intros [err|results]; [done|].
  by produces_step.
Qed.

(** X26: retrieval prints nothing, whatever its outcome: the output is
    the same after the call as before it. *)
Theorem retrieve_prints_nothing (query : string) (top_k : Z) (w : world Ext) :
  stdout (retrieve_similar_chunks svc cfg query top_k w).2 = stdout w.
Proof.
  destruct (retrieve_produces query top_k w) as (new & out & _ & Ho & ->).
  by rewrite Ho, app_nil_r.
Qed.

End OutputFacts.

Lemma store_embeddings_transcript_witness :
  ∃ new docs sample data evs lines middle count path,
    trace (store_embeddings Sim.svc default_config Sim.repr
             (Sim.start sim_three_docs)).2
    = trace (Sim.start sim_three_docs) ++ new
    ∧ new = [EvEmbed (EMBEDDING_MODEL default_config) "sample"
                     (Ok (sample :: data));
             EvMakedirs (CHROMA_DB_PATH default_config) (Ok tt);
             EvClient (CHROMA_DB_PATH default_config) (Ok tt)]
            ++ evs
            ++ [EvPathExists (INPUT_JSON default_config) true;
                EvReadJson (INPUT_JSON default_config) (Ok docs)]
            ++ middle
            ++ [EvCount (CHROMA_COLLECTION_NAME default_config) (Ok count);
                EvAbspath (CHROMA_DB_PATH default_config) (Ok path)]
    ∧ opening (CHROMA_COLLECTION_NAME default_config) evs lines
    ∧ docs_read new = [docs]
    ∧ stdout (store_embeddings Sim.svc default_config Sim.repr
                (Sim.start sim_three_docs)).2
      = stdout (Sim.start sim_three_docs)
        ++ [MsgGettingDimension (EMBEDDING_MODEL default_config);
            MsgDimension (length sample)]
        ++ lines
        ++ [MsgProcessing (length docs)]
        ++ ((λ j, MsgProgress (100 * j) (length docs))
              <$> seq 1 (length docs / 100))
        ++ [MsgAdding (length (add_requests new))]
        ++ imap (batch_line (length (add_requests new))) (add_requests new)
        ++ [MsgAllStored; MsgTotal count; MsgPath path].
Proof.
  apply (store_embeddings_transcript Sim.svc default_config Sim.repr
           (Sim.start sim_three_docs)).
  vm_compute. reflexivity.
Defined.

Example transcript_of_three_records :
  stdout (store_embeddings Sim.svc default_config Sim.repr
            (Sim.start sim_three_docs)).2
  = [MsgGettingDimension "text-embedding-3-small"; MsgDimension 2;
     MsgCreating "medical-vectors"; MsgCreated "medical-vectors";
     MsgProcessing 3; MsgAdding 1; MsgAddedBatch 1 1 3;
     MsgAllStored; MsgTotal 3; MsgPath "/srv/app/chroma_db"].
Proof. vm_compute. reflexivity. Qed.

Example success_line_before_a_failing_abspath :
  (store_embeddings sim_svc_no_cwd default_config Sim.repr
     (Sim.start sim_three_docs)).1
  = Raise (Exn FileNotFoundError "[Errno 2] No such file or directory")
  ∧ stdout (store_embeddings sim_svc_no_cwd default_config Sim.repr
              (Sim.start sim_three_docs)).2
    = [MsgGettingDimension "text-embedding-3-small"; MsgDimension 2;
       MsgCreating "medical-vectors"; MsgCreated "medical-vectors";
       MsgProcessing 3; MsgAdding 1; MsgAddedBatch 1 1 3;
       MsgAllStored; MsgTotal 3].
Proof. split; vm_compute; reflexivity. Qed.

Example describing_without_a_working_directory :
  aout (describe_collection sim_svc_no_cwd sim_admin default_config
          "medical-vectors" (admin_start sim_two_items)).2
  = [LDescribeHeader "medical-vectors"; LDocumentCount 2;
     LMetadataKeys ["title"];
     LError "[Errno 2] No such file or directory"].
Proof. vm_compute. reflexivity. Qed.

Example progress_lines_of_250_records :
  omap (progress_line_of 250) (seq 0 250)
  = [MsgProgress 100 250; MsgProgress 200 250].
Proof. vm_compute. reflexivity. Qed.

Example describing_a_missing_collection_exits_0 :
  (manage_indexes Sim.svc sim_admin default_config
     ["manage_indexes.py"; "describe"; "other"]
     (admin_start sim_two_items)).1 = Ok 0.
Proof. vm_compute. reflexivity. Qed.
